(** * Cycles split-kernel host scheduler: [DeviceSplitKernel]

    A shallow embedding of [intern/cycles/device/device_split_kernel.cpp]
    (constructor, destructor, [load_kernels], [path_trace]) and the
    properties of its work-size arithmetic, its kernel pipeline and its
    adaptive path-iteration loop; then of the templates and inline
    functions of [source/blender/alembic/intern/abc_util.h] and of the
    GLUT view of the standalone renderer, [util_view.cpp].

    Machine integers are integers of [Z] with the wrap-around of their C++
    type written out; the compute device and the render task are external
    collaborators, modelled by the answers they give to the host. *)

From Stdlib Require Import ZArith NArith Nnat List Bool Lia SpecFloat.
Import ListNotations.
Open Scope Z_scope.

(** ** Machine integers *)

(** Conversion to [unsigned int] (32 bits). *)
Definition to_unsigned (v : Z) : Z := v mod 2 ^ 32.

(** Conversion to [size_t] (64 bits). *)
Definition to_size_t (v : Z) : Z := v mod 2 ^ 64.

(** [int8_t(c)] for an [uchar] [c]. *)
Definition int8_t (c : Z) : Z :=
  let r := c mod 256 in if r <? 128 then r else r - 256.

(** Modelled from the spec: [min] of Cycles' [util_math.h], a header that
    is not part of the embedded sources. The fixed-allocation strategy
    "floors" the column estimate "to the requested sample count", that is,
    takes the smaller of the two. *)
Definition min (a b : Z) : Z := if a <? b then a else b.

(** ** Data *)

Record int2 := make_int2 { x : Z; y : Z }.

(** The fields of [RenderTile] that [path_trace] reads. *)
Record RenderTile := make_tile { w : Z; h : Z; num_samples : Z }.

(** The two dispatch strategies, chosen by [#ifdef __WORK_STEALING__]. *)
Inductive strategy := WorkStealing | FixedAllocation.

(** ** Constants of the kernel headers *)

(** [kernel_types.h] and [kernel_split_data.h] are included by
    [device_split_kernel.cpp] and are not embedded: what [path_trace] takes
    from them is a parameter of the development. [dispatch_strategy] says
    whether [__WORK_STEALING__] is defined. *)
Class KernelTypes := {
  PATH_ITER_INC_FACTOR : Z;
  SPLIT_KERNEL_LOCAL_SIZE_X : Z;
  SPLIT_KERNEL_LOCAL_SIZE_Y : Z;
  RAY_INACTIVE : Z;
  NUM_QUEUES : Z;
  split_data_buffer_size : Z -> Z -> Z -> Z;
  dispatch_strategy : strategy
}.

(** ** Work sizes (lines 81-118 of [path_trace]) *)

Section WorkSize.

Context {K : KernelTypes}.

(** [(((d - 1) / local) + 1) * local], with [d] an [int] and [local] a
    [size_t]: [d - 1] is converted to [size_t] before the division. *)
Definition round_up (d local : Z) : Z :=
  to_size_t ((to_size_t (to_size_t (d - 1) / local) + 1) * local).

Definition local_size : Z * Z :=
  (SPLIT_KERNEL_LOCAL_SIZE_X, SPLIT_KERNEL_LOCAL_SIZE_Y).

(** [unsigned int num_threads = max.x * max.y] *)
Definition num_threads (max_render_feasible_tile_size : int2) : Z :=
  to_unsigned (max_render_feasible_tile_size.(x) *
               max_render_feasible_tile_size.(y)).

(** [unsigned int num_tile_columns_possible = num_threads / global_size[1]] *)
Definition num_tile_columns_possible (rtile : RenderTile) (m : int2) : Z :=
  to_unsigned (num_threads m / round_up rtile.(h) (snd local_size)).

(** [min(num_tile_columns_possible / d_w, rtile.num_samples)], before the
    rounding to the wavefront size. *)
Definition raw_parallel_samples (rtile : RenderTile) (m : int2) : Z :=
  to_unsigned (min (num_tile_columns_possible rtile m / to_unsigned rtile.(w))
                   rtile.(num_samples)).

Definition num_parallel_samples (s : strategy) (rtile : RenderTile) (m : int2) : Z :=
  match s with
  | WorkStealing => 1
  | FixedAllocation =>
      let n := raw_parallel_samples rtile m in
      if 64 <=? n then to_unsigned (n / 64 * 64) else n
  end.

Definition global_size (s : strategy) (rtile : RenderTile) (m : int2) : Z * Z :=
  match s with
  | WorkStealing =>
      (round_up rtile.(w) (fst local_size), round_up rtile.(h) (snd local_size))
  | FixedAllocation =>
      (to_size_t (to_unsigned (to_unsigned rtile.(w) * num_parallel_samples s rtile m)),
       round_up rtile.(h) (snd local_size))
  end.

(** [global_size[0] * global_size[1]], a [size_t]. *)
Definition dispatch_area (gs : Z * Z) : Z := to_size_t (fst gs * snd gs).

(** The assertions of the sizing block (lines 78-79, 109 and 114). *)
Definition assert_feasible_aligned (m : int2) : bool :=
  (m.(x) mod SPLIT_KERNEL_LOCAL_SIZE_X =? 0) &&
  (m.(y) mod SPLIT_KERNEL_LOCAL_SIZE_Y =? 0).

Definition assert_parallel_samples (s : strategy) (rtile : RenderTile) (m : int2) : bool :=
  negb (num_parallel_samples s rtile m =? 0).

Definition assert_dispatch_fits (s : strategy) (rtile : RenderTile) (m : int2) : bool :=
  dispatch_area (global_size s rtile m) <=? to_size_t (m.(x) * m.(y)).

(** [int num_global_elements = max.x * max.y] *)
Definition num_global_elements (m : int2) : Z := m.(x) * m.(y).

(** [max_work_groups] of the first-tile block: the work groups of a
    maximum feasible tile ([tile_x - 1] is a [size_t] subtraction, which
    [round_up] computes as well). *)
Definition max_work_groups (m : int2) : Z :=
  to_unsigned
    (to_size_t (round_up m.(x) (fst local_size) * round_up m.(y) (snd local_size))
     / to_size_t (fst local_size * snd local_size)).

End WorkSize.

(** ** The device, the task and the scheduler *)

(** The ten stages of the pipeline, in the order [load_kernels] loads them. *)
Inductive kernel :=
| scene_intersect
| lamp_emission
| queue_enqueue
| background_buffer_update
| shader_eval
| holdout_emission_blurring_pathtermination_ao
| direct_lighting
| shadow_blocked
| next_iteration_setup
| sum_all_radiance.

Definition all_kernels : list kernel :=
  [scene_intersect; lamp_emission; queue_enqueue; background_buffer_update;
   shader_eval; holdout_emission_blurring_pathtermination_ao; direct_lighting;
   shadow_blocked; next_iteration_setup; sum_all_radiance].

(** The device memory objects the scheduler owns. *)
Inductive device_memory :=
| kgbuffer | split_data | ray_state_mem | use_queues_flag | queue_index
| work_pool_wgs.

(** A loaded stage: [SplitKernelFunction *], null being [None]. *)
Definition SplitKernelFunction := N.

Record DeviceRequestedFeatures := { max_closure : Z }.

(** The device is an external collaborator. What the host sees of it is
    what its calls answer: the [n]-th data-init dispatch and the [n]-th
    stage enqueue succeed or not, and the [n]-th read-back finds the
    device's [ray_state] with some byte in every lane. *)
Record Device := {
  get_split_kernel_function : kernel -> DeviceRequestedFeatures -> option SplitKernelFunction;
  sizeof_KernelGlobals : Z;
  data_init_result : N -> bool;
  enqueue_result : N -> bool;
  ray_state_on_device : N -> Z -> Z
}.

(** The render task answers the [n]-th cancellation poll. *)
Record DeviceTask := { cancel_answer : N -> bool }.

(** What the scheduler does to its collaborators, in the order it does
    it. [EvScan] is the one host-side entry: the outcome of the scan of
    [ray_state] after a read-back. *)
Inductive event :=
| EvMemAlloc (m : device_memory) (size : Z)
| EvMemFree (m : device_memory)
| EvDataInit (global local : Z * Z) (num_global_elements num_parallel_samples : Z) (ok : bool)
| EvEnqueue (k : kernel) (global local : Z * Z) (ok : bool)
| EvMemCopyFrom (m : device_memory) (size : Z)
| EvGetCancel (answer : bool)
| EvScan (active : bool).

(** The fields of [DeviceSplitKernel] that the three functions use. The
    class is declared in [device_split_kernel.h]; [path_iteration_times]
    is an [unsigned int] like the locals that copy it, and [ray_state] is
    the host side of a vector of [uchar]. *)
Record DeviceSplitKernel := {
  device : Device;
  kernel_handle : kernel -> option SplitKernelFunction;
  path_iteration_times : Z;
  current_max_closure : Z;
  first_tile : bool;
  ray_state : list Z
}.

(** The scheduler object together with the history of its calls: the
    trace, oldest event first, and how many dispatches, enqueues,
    read-backs and polls have been served. *)
Record machine := {
  self : DeviceSplitKernel;
  trace : list event;
  data_inits : N;
  enqueues : N;
  read_backs : N;
  polls : N
}.

(** ** A monad for statements: state, and early [return] *)

Inductive completion (A : Type) : Type :=
| Normal (a : A)        (* falls through to the next statement *)
| Returned (b : bool)   (* [return b;] *)
| OutOfFuel.            (* the [while] loop was cut *)

Arguments Normal {A} a.
Arguments Returned {A} b.
Arguments OutOfFuel {A}.

Definition M (A : Type) : Type := machine -> completion A * machine.

Definition ret {A} (a : A) : M A := fun s => (Normal a, s).

Definition bind {A B} (m : M A) (k : A -> M B) : M B :=
  fun s =>
    match m s with
    | (Normal a, s') => k a s'
    | (Returned b, s') => (Returned b, s')
    | (OutOfFuel, s') => (OutOfFuel, s')
    end.

Definition return_ {A} (b : bool) : M A := fun s => (Returned b, s).

Definition out_of_fuel {A} : M A := fun s => (OutOfFuel, s).

Notation "v <- m ;; k" := (bind m (fun v => k))
  (at level 61, m at next level, right associativity).
Notation "m ;; k" := (bind m (fun _ => k))
  (at level 61, right associativity).

Definition get {A} (f : DeviceSplitKernel -> A) : M A :=
  fun s => (Normal (f s.(self)), s).

Definition modify (f : DeviceSplitKernel -> DeviceSplitKernel) : M unit :=
  fun s => (Normal tt,
            {| self := f s.(self); trace := s.(trace);
               data_inits := s.(data_inits); enqueues := s.(enqueues);
               read_backs := s.(read_backs); polls := s.(polls) |}).

Definition log (e : event) : M unit :=
  fun s => (Normal tt,
            {| self := s.(self); trace := s.(trace) ++ [e];
               data_inits := s.(data_inits); enqueues := s.(enqueues);
               read_backs := s.(read_backs); polls := s.(polls) |}).

Definition set_path_iteration_times (v : Z) (d : DeviceSplitKernel) :=
  {| device := d.(device); kernel_handle := d.(kernel_handle);
     path_iteration_times := v; current_max_closure := d.(current_max_closure);
     first_tile := d.(first_tile); ray_state := d.(ray_state) |}.

Definition set_current_max_closure (v : Z) (d : DeviceSplitKernel) :=
  {| device := d.(device); kernel_handle := d.(kernel_handle);
     path_iteration_times := d.(path_iteration_times); current_max_closure := v;
     first_tile := d.(first_tile); ray_state := d.(ray_state) |}.

Definition set_first_tile (v : bool) (d : DeviceSplitKernel) :=
  {| device := d.(device); kernel_handle := d.(kernel_handle);
     path_iteration_times := d.(path_iteration_times);
     current_max_closure := d.(current_max_closure);
     first_tile := v; ray_state := d.(ray_state) |}.

Definition set_ray_state (v : list Z) (d : DeviceSplitKernel) :=
  {| device := d.(device); kernel_handle := d.(kernel_handle);
     path_iteration_times := d.(path_iteration_times);
     current_max_closure := d.(current_max_closure);
     first_tile := d.(first_tile); ray_state := v |}.

Definition kernel_eqb (a b : kernel) : bool :=
  match a, b with
  | scene_intersect, scene_intersect
  | lamp_emission, lamp_emission
  | queue_enqueue, queue_enqueue
  | background_buffer_update, background_buffer_update
  | shader_eval, shader_eval
  | holdout_emission_blurring_pathtermination_ao,
    holdout_emission_blurring_pathtermination_ao
  | direct_lighting, direct_lighting
  | shadow_blocked, shadow_blocked
  | next_iteration_setup, next_iteration_setup
  | sum_all_radiance, sum_all_radiance => true
  | _, _ => false
  end.

Definition set_kernel_handle (k : kernel) (v : option SplitKernelFunction)
    (d : DeviceSplitKernel) :=
  {| device := d.(device);
     kernel_handle := fun k' => if kernel_eqb k' k then v else d.(kernel_handle) k';
     path_iteration_times := d.(path_iteration_times);
     current_max_closure := d.(current_max_closure);
     first_tile := d.(first_tile); ray_state := d.(ray_state) |}.

(** ** Calls to the device and to the task *)

(** [device->mem_alloc(m, size)] *)
Definition mem_alloc (m : device_memory) (size : Z) : M unit :=
  log (EvMemAlloc m size).

(** [device->mem_free(m)] *)
Definition mem_free (m : device_memory) : M unit :=
  log (EvMemFree m).

(** [device->enqueue_split_kernel_data_init(...)] *)
Definition enqueue_split_kernel_data_init (global local : Z * Z)
    (num_global_elements num_parallel_samples : Z) : M bool :=
  fun s =>
    let ok := s.(self).(device).(data_init_result) s.(data_inits) in
    (Normal ok,
     {| self := s.(self);
        trace := s.(trace) ++
                 [EvDataInit global local num_global_elements num_parallel_samples ok];
        data_inits := N.succ s.(data_inits); enqueues := s.(enqueues);
        read_backs := s.(read_backs); polls := s.(polls) |}).

(** [kernel_##name->enqueue(KernelDimensions(global, local), kgbuffer, d_data)] *)
Definition enqueue (name : kernel) (global local : Z * Z) : M bool :=
  fun s =>
    let ok := s.(self).(device).(enqueue_result) s.(enqueues) in
    (Normal ok,
     {| self := s.(self);
        trace := s.(trace) ++ [EvEnqueue name global local ok];
        data_inits := s.(data_inits); enqueues := N.succ s.(enqueues);
        read_backs := s.(read_backs); polls := s.(polls) |}).

(** [task->get_cancel()] *)
Definition get_cancel (task : DeviceTask) : M bool :=
  fun s =>
    let c := task.(cancel_answer) s.(polls) in
    (Normal c,
     {| self := s.(self); trace := s.(trace) ++ [EvGetCancel c];
        data_inits := s.(data_inits); enqueues := s.(enqueues);
        read_backs := s.(read_backs); polls := N.succ s.(polls) |}).

(** The first [n] lanes of the device's [ray_state] at read-back [r]. *)
Definition lanes_on_device (d : Device) (r : N) (n : nat) : list Z :=
  map (fun i => d.(ray_state_on_device) r (Z.of_nat i)) (seq 0 n).

(** [device->mem_copy_from(ray_state, 0, size, 1, 1)]: the first [size]
    bytes of the host vector are overwritten with the device's. *)
Definition mem_copy_from_ray_state (size : Z) : M unit :=
  fun s =>
    let d := s.(self) in
    let n := Z.to_nat size in
    (Normal tt,
     {| self := set_ray_state
                  (lanes_on_device d.(device) s.(read_backs) n ++ skipn n d.(ray_state)) d;
        trace := s.(trace) ++ [EvMemCopyFrom ray_state_mem size];
        data_inits := s.(data_inits); enqueues := s.(enqueues);
        read_backs := N.succ s.(read_backs); polls := s.(polls) |}).

(** [ray_state.resize(n)] *)
Definition resize (n : Z) (data : list Z) : list Z :=
  firstn (Z.to_nat n) data ++ repeat 0 (Z.to_nat n - length data).

(** ** Constructor, destructor and [load_kernels] *)

Section Scheduler.

Context {K : KernelTypes}.

(** [DeviceSplitKernel::DeviceSplitKernel(Device *device)]. The stage
    pointers and the host vector are not initialised by the constructor:
    they start null and empty. *)
Definition new_DeviceSplitKernel (dev : Device) : DeviceSplitKernel :=
  {| device := dev;
     kernel_handle := fun _ => None;
     path_iteration_times := to_unsigned PATH_ITER_INC_FACTOR;
     current_max_closure := -1;
     first_tile := true;
     ray_state := [] |}.

Definition new_machine (dev : Device) : machine :=
  {| self := new_DeviceSplitKernel dev; trace := [];
     data_inits := 0%N; enqueues := 0%N; read_backs := 0%N; polls := 0%N |}.

(** [DeviceSplitKernel::~DeviceSplitKernel()] *)
Definition delete_DeviceSplitKernel : M unit :=
  mem_free kgbuffer ;;
  mem_free split_data ;;
  mem_free ray_state_mem ;;
  mem_free use_queues_flag ;;
  mem_free queue_index ;;
  mem_free work_pool_wgs.

(** The macro [LOAD_KERNEL(name)] *)
Definition LOAD_KERNEL (name : kernel) (requested_features : DeviceRequestedFeatures)
    : M unit :=
  dev <- get device ;;
  let f := dev.(get_split_kernel_function) name requested_features in
  modify (set_kernel_handle name f) ;;
  match f with
  | None => return_ false
  | Some _ => ret tt
  end.

Definition load_kernels (requested_features : DeviceRequestedFeatures) : M unit :=
  LOAD_KERNEL scene_intersect requested_features ;;
  LOAD_KERNEL lamp_emission requested_features ;;
  LOAD_KERNEL queue_enqueue requested_features ;;
  LOAD_KERNEL background_buffer_update requested_features ;;
  LOAD_KERNEL shader_eval requested_features ;;
  LOAD_KERNEL holdout_emission_blurring_pathtermination_ao requested_features ;;
  LOAD_KERNEL direct_lighting requested_features ;;
  LOAD_KERNEL shadow_blocked requested_features ;;
  LOAD_KERNEL next_iteration_setup requested_features ;;
  LOAD_KERNEL sum_all_radiance requested_features ;;
  modify (set_current_max_closure requested_features.(max_closure)) ;;
  return_ true.

(** A pipeline can run when every one of its ten stages is loaded. *)
Definition pipeline_usable (d : DeviceSplitKernel) : bool :=
  forallb (fun k => match d.(kernel_handle) k with Some _ => true | None => false end)
          all_kernels.

(** ** [path_trace] *)

(** The macro [ENQUEUE_SPLIT_KERNEL(name, global_size, local_size)] *)
Definition ENQUEUE_SPLIT_KERNEL (name : kernel) (global local : Z * Z) : M unit :=
  ok <- enqueue name global local ;;
  if negb ok then return_ false else ret tt.

(** The locals of [path_trace] that live across the outer loop. *)
Record locals := {
  numHostIntervention : Z;
  numNextPathIterTimes : Z;
  canceled : bool;
  activeRaysAvailable : bool
}.

(** [global_size_shadow_blocked] *)
Definition global_size_shadow_blocked (global : Z * Z) : Z * Z :=
  (to_size_t (fst global * 2), snd global).

(** One pass of the body of the [for] loop, up to the cancellation poll. *)
Definition path_iteration (global local : Z * Z) : M unit :=
  ENQUEUE_SPLIT_KERNEL scene_intersect global local ;;
  ENQUEUE_SPLIT_KERNEL lamp_emission global local ;;
  ENQUEUE_SPLIT_KERNEL queue_enqueue global local ;;
  ENQUEUE_SPLIT_KERNEL background_buffer_update global local ;;
  ENQUEUE_SPLIT_KERNEL shader_eval global local ;;
  ENQUEUE_SPLIT_KERNEL holdout_emission_blurring_pathtermination_ao global local ;;
  ENQUEUE_SPLIT_KERNEL direct_lighting global local ;;
  ENQUEUE_SPLIT_KERNEL shadow_blocked (global_size_shadow_blocked global) local ;;
  ENQUEUE_SPLIT_KERNEL next_iteration_setup global local.

(** [for(int PathIter = 0; PathIter < path_iteration_times; PathIter++)],
    with [n] passes left to do; the result is [canceled]. *)
Fixpoint path_iterations (n : nat) (task : DeviceTask) (global local : Z * Z)
    (canceled : bool) : M bool :=
  match n with
  | O => ret canceled
  | S n' =>
      path_iteration global local ;;
      c <- get_cancel task ;;
      if c then ret true
      else path_iterations n' task global local canceled
  end.

(** The scan of the host copy of [ray_state] (lines 207-216): is one of
    the first [n] lanes not [RAY_INACTIVE]? The read-back has just written
    these [n] lanes, so the scan never runs past the end of the data. *)
Fixpoint scan_ray_state (n : nat) (data : list Z) : bool :=
  match n, data with
  | S n', c :: rest =>
      if negb (int8_t c =? RAY_INACTIVE) then true else scan_ray_state n' rest
  | _, _ => false
  end.

(** The read-back of [ray_state] and the scan of its first
    [global_size[0] * global_size[1]] lanes (lines 203-216); the result is
    [activeRaysAvailable]. *)
Definition sync_check (global : Z * Z) : M bool :=
  mem_copy_from_ray_state (to_size_t (dispatch_area global * 1)) ;;
  data <- get ray_state ;;
  let active := scan_ray_state (Z.to_nat (dispatch_area global)) data in
  log (EvScan active) ;;
  ret active.

(** [if(activeRaysAvailable) { ... }] (lines 218-225), with the locals
    that leave it. *)
Definition host_intervention (active c : bool) (l : locals) : M locals :=
  if active then
    modify (set_path_iteration_times (to_unsigned PATH_ITER_INC_FACTOR)) ;;
    ret {| numHostIntervention := to_unsigned (l.(numHostIntervention) + 1);
           numNextPathIterTimes :=
             to_unsigned (l.(numNextPathIterTimes) + PATH_ITER_INC_FACTOR);
           canceled := c;
           activeRaysAvailable := true |}
  else
    ret {| numHostIntervention := l.(numHostIntervention);
           numNextPathIterTimes := l.(numNextPathIterTimes);
           canceled := c;
           activeRaysAvailable := false |}.

(** [canceled = true; break;] *)
Definition cancel (l : locals) : locals :=
  {| numHostIntervention := l.(numHostIntervention);
     numNextPathIterTimes := l.(numNextPathIterTimes);
     canceled := true;
     activeRaysAvailable := l.(activeRaysAvailable) |}.

(** [while(activeRaysAvailable) { ... }] *)
Fixpoint path_iteration_loop (fuel : nat) (task : DeviceTask) (global local : Z * Z)
    (l : locals) : M locals :=
  if negb l.(activeRaysAvailable) then ret l else
  match fuel with
  | O => out_of_fuel
  | S fuel' =>
      times <- get path_iteration_times ;;
      c <- path_iterations (Z.to_nat times) task global local l.(canceled) ;;
      active <- sync_check global ;;
      l1 <- host_intervention active c l ;;
      c' <- get_cancel task ;;
      if c' then ret (cancel l1)
      else path_iteration_loop fuel' task global local l1
  end.

(** The block [if(first_tile) { ... }] *)
Definition allocate_global_memory (m : int2) (per_thread_output_buffer_size : Z)
    : M unit :=
  (match dispatch_strategy with
   | WorkStealing => mem_alloc work_pool_wgs (to_size_t (max_work_groups m * 4))
   | FixedAllocation => ret tt
   end) ;;
  mem_alloc queue_index (to_size_t (NUM_QUEUES * 4)) ;;
  mem_alloc use_queues_flag 1 ;;
  dev <- get device ;;
  mem_alloc kgbuffer dev.(sizeof_KernelGlobals) ;;
  modify (fun d => set_ray_state (resize (num_global_elements m) d.(ray_state)) d) ;;
  mem_alloc ray_state_mem (num_global_elements m) ;;
  closure <- get current_max_closure ;;
  mem_alloc split_data
    (split_data_buffer_size (num_global_elements m) closure per_thread_output_buffer_size).

(** The tuning of [path_iteration_times] for the next tile (lines 253-265). *)
Definition next_path_iteration_times (l : locals) : Z :=
  if l.(numHostIntervention) =? 0 then
    if to_unsigned (l.(numNextPathIterTimes) - PATH_ITER_INC_FACTOR) <=? 0
    then to_unsigned PATH_ITER_INC_FACTOR
    else to_unsigned (l.(numNextPathIterTimes) - PATH_ITER_INC_FACTOR)
  else l.(numNextPathIterTimes).

(** [sum_all_radiance_global_size], with its local size of 16 by 16. *)
Definition sum_all_radiance_global_size (rtile : RenderTile) : Z * Z :=
  (round_up rtile.(w) 16, round_up rtile.(h) 16).

(** [path_trace], its locals still in hand when it runs to its end. The
    assertions are not executed: they are the predicates [assert_...]
    above. *)
Definition path_trace_body (fuel : nat) (task : DeviceTask) (rtile : RenderTile)
    (max_render_feasible_tile_size : int2) (per_thread_output_buffer_size : Z)
    : M locals :=
  let global := global_size dispatch_strategy rtile max_render_feasible_tile_size in
  let local := local_size in
  let samples :=
    num_parallel_samples dispatch_strategy rtile max_render_feasible_tile_size in
  first <- get first_tile ;;
  (if first
   then allocate_global_memory max_render_feasible_tile_size per_thread_output_buffer_size
   else ret tt) ;;
  ok <- enqueue_split_kernel_data_init global local
          (num_global_elements max_render_feasible_tile_size) samples ;;
  (if negb ok then return_ false else ret tt) ;;
  times <- get path_iteration_times ;;
  l <- path_iteration_loop fuel task global local
         {| numHostIntervention := 0;
            numNextPathIterTimes := to_unsigned times;
            canceled := false;
            activeRaysAvailable := true |} ;;
  (if negb l.(canceled)
   then ENQUEUE_SPLIT_KERNEL sum_all_radiance (sum_all_radiance_global_size rtile) (16, 16)
   else ret tt) ;;
  modify (set_path_iteration_times (next_path_iteration_times l)) ;;
  modify (set_first_tile false) ;;
  ret l.

Definition path_trace (fuel : nat) (task : DeviceTask) (rtile : RenderTile)
    (max_render_feasible_tile_size : int2) (per_thread_output_buffer_size : Z)
    : M unit :=
  path_trace_body fuel task rtile max_render_feasible_tile_size
    per_thread_output_buffer_size ;;
  return_ true.

End Scheduler.

(** ** The blocks of [path_trace], and the machine between them *)

Section Blocks.

Context {K : KernelTypes}.

(** A list of stages enqueued in order, as a sequence of
    [ENQUEUE_SPLIT_KERNEL] does. *)
Fixpoint enqueue_all (stages : list (kernel * (Z * Z))) (local : Z * Z) : M unit :=
  match stages with
  | [] => ret tt
  | (name, global) :: rest =>
      ENQUEUE_SPLIT_KERNEL name global local ;; enqueue_all rest local
  end.

Definition accepted (local : Z * Z) (stage : kernel * (Z * Z)) : event :=
  EvEnqueue (fst stage) (snd stage) local true.

(** The stages of [path_iteration] with their grids. *)
Definition round_stages (global shadow : Z * Z) : list (kernel * (Z * Z)) :=
  [(scene_intersect, global); (lamp_emission, global); (queue_enqueue, global);
   (background_buffer_update, global); (shader_eval, global);
   (holdout_emission_blurring_pathtermination_ao, global);
   (direct_lighting, global); (shadow_blocked, shadow);
   (next_iteration_setup, global)].

(** The machine after the read-back, the outcome of the scan, and the
    machine after the scan. *)
Definition copied (g : Z * Z) (s : machine) : machine :=
  snd (mem_copy_from_ray_state (to_size_t (dispatch_area g * 1)) s).

Definition still_active (g : Z * Z) (s : machine) : bool :=
  scan_ray_state (Z.to_nat (dispatch_area g)) (ray_state (self (copied g s))).

Definition synced (g : Z * Z) (s : machine) : machine :=
  snd (log (EvScan (still_active g s)) (copied g s)).

(** The locals and the machine after [host_intervention]. *)
Definition intervened (active c : bool) (l : locals) : locals :=
  if active then
    {| numHostIntervention := to_unsigned (l.(numHostIntervention) + 1);
       numNextPathIterTimes :=
         to_unsigned (l.(numNextPathIterTimes) + PATH_ITER_INC_FACTOR);
       canceled := c;
       activeRaysAvailable := true |}
  else
    {| numHostIntervention := l.(numHostIntervention);
       numNextPathIterTimes := l.(numNextPathIterTimes);
       canceled := c;
       activeRaysAvailable := false |}.

Definition retimed (active : bool) (s : machine) : machine :=
  if active
  then snd (modify (set_path_iteration_times (to_unsigned PATH_ITER_INC_FACTOR)) s)
  else s.

(** The machine after [kernel_##name = v]. *)
Definition loaded (name : kernel) (v : option SplitKernelFunction) (s : machine) : machine :=
  snd (modify (set_kernel_handle name v) s).

(** The allocations of the first tile. *)
Definition allocation_events (m : int2) (per_thread_output_buffer_size : Z)
    (d : DeviceSplitKernel) : list event :=
  (match dispatch_strategy with
   | WorkStealing => [EvMemAlloc work_pool_wgs (to_size_t (max_work_groups m * 4))]
   | FixedAllocation => []
   end) ++
  [EvMemAlloc queue_index (to_size_t (NUM_QUEUES * 4));
   EvMemAlloc use_queues_flag 1;
   EvMemAlloc kgbuffer d.(device).(sizeof_KernelGlobals);
   EvMemAlloc ray_state_mem (num_global_elements m);
   EvMemAlloc split_data
     (split_data_buffer_size (num_global_elements m) d.(current_max_closure)
        per_thread_output_buffer_size)].

(** The machine when the data-init dispatch is issued. *)
Definition prepared (m : int2) (p : Z) (s : machine) : machine :=
  if first_tile (self s) then snd (allocate_global_memory m p s) else s.

(** The machine after the data-init dispatch. *)
Definition initialised (rtile : RenderTile) (m : int2) (p : Z) (s : machine) : machine :=
  snd (enqueue_split_kernel_data_init
         (global_size dispatch_strategy rtile m) local_size
         (num_global_elements m)
         (num_parallel_samples dispatch_strategy rtile m) (prepared m p s)).

(** The locals at the head of the outer loop. *)
Definition initial_locals (s : machine) : locals :=
  {| numHostIntervention := 0;
     numNextPathIterTimes := to_unsigned (path_iteration_times (self s));
     canceled := false;
     activeRaysAvailable := true |}.

(** The machine after the last two assignments of [path_trace]. *)
Definition finished (l : locals) (s : machine) : machine :=
  snd ((modify (set_path_iteration_times (next_path_iteration_times l)) ;;
        modify (set_first_tile false)) s).

(** The events of [path_trace] before the outer loop. *)
Definition prologue (rtile : RenderTile) (m : int2) (p : Z) (s : machine) : list event :=
  (if first_tile (self s) then allocation_events m p (self s) else []) ++
  [EvDataInit (global_size dispatch_strategy rtile m) local_size
     (num_global_elements m) (num_parallel_samples dispatch_strategy rtile m)
     (data_init_result (device (self s)) (data_inits s))].

(** The reduction stage, accepted or refused. *)
Definition reduction (rtile : RenderTile) (ok : bool) : event :=
  EvEnqueue sum_all_radiance (sum_all_radiance_global_size rtile) (16, 16) ok.

End Blocks.

(** ** Sequences of tiles *)

(** One call of [path_trace], with its arguments. *)
Record tile_request := {
  request_fuel : nat;
  request_task : DeviceTask;
  request_tile : RenderTile;
  request_feasible_size : int2;
  request_output_buffer_size : Z
}.

Section Rendering.

Context {K : KernelTypes}.

Definition path_trace_request (c : tile_request) : M unit :=
  path_trace c.(request_fuel) c.(request_task) c.(request_tile)
    c.(request_feasible_size) c.(request_output_buffer_size).

(** A sequence of calls on one scheduler. *)
Fixpoint render (calls : list tile_request) (s : machine) : machine :=
  match calls with
  | [] => s
  | c :: rest => render rest (snd (path_trace_request c s))
  end.

End Rendering.

(** ** Vocabulary of the properties *)

Section Vocabulary.

Context {K : KernelTypes}.

(** The local work size is a pair of positive [int] constants. *)
Definition local_size_well_formed : Prop :=
  0 < SPLIT_KERNEL_LOCAL_SIZE_X < 2 ^ 31 /\ 0 < SPLIT_KERNEL_LOCAL_SIZE_Y < 2 ^ 31.

(** A tile has positive [int] dimensions and a sample count that is not
    negative. *)
Definition tile_well_formed (rtile : RenderTile) : Prop :=
  0 < rtile.(w) < 2 ^ 31 /\ 0 < rtile.(h) < 2 ^ 31 /\
  0 <= rtile.(num_samples) < 2 ^ 31.

(** The tile's width and height are multiples of the local work size. *)
Definition tile_aligned (rtile : RenderTile) : Prop :=
  rtile.(w) mod SPLIT_KERNEL_LOCAL_SIZE_X = 0 /\
  rtile.(h) mod SPLIT_KERNEL_LOCAL_SIZE_Y = 0.

(** The maximum feasible tile size is positive and its area is an [int]. *)
Definition feasible_size_well_formed (m : int2) : Prop :=
  0 < m.(x) /\ 0 < m.(y) /\ m.(x) * m.(y) < 2 ^ 31.

(** The increment of the path-iteration budget is a positive
    [unsigned int]. *)
Definition increment_well_formed : Prop :=
  0 < PATH_ITER_INC_FACTOR < 2 ^ 32.

(** The budget is a positive multiple of the increment. *)
Definition budget_invariant (d : DeviceSplitKernel) : Prop :=
  exists q, 1 <= q /\ path_iteration_times d = q * PATH_ITER_INC_FACTOR.

End Vocabulary.

(** The events a call has added to the trace. *)
Definition events_since (s s' : machine) : list event :=
  skipn (length s.(trace)) s'.(trace).

(** A dispatch the device refused. *)
Definition failed (e : event) : bool :=
  match e with
  | EvDataInit _ _ _ _ ok => negb ok
  | EvEnqueue _ _ _ ok => negb ok
  | _ => false
  end.

Definition is_alloc (e : event) : bool :=
  match e with EvMemAlloc _ _ => true | _ => false end.

Definition is_free (e : event) : bool :=
  match e with EvMemFree _ => true | _ => false end.

Definition is_scan_active (e : event) : bool :=
  match e with EvScan true => true | _ => false end.

Definition is_cancel (e : event) : bool :=
  match e with EvGetCancel true => true | _ => false end.

Definition is_enqueue_of (k : kernel) (e : event) : bool :=
  match e with EvEnqueue k' _ _ _ => kernel_eqb k' k | _ => false end.

Definition is_work_pool_alloc (e : event) : bool :=
  match e with EvMemAlloc work_pool_wgs _ => true | _ => false end.

(** What the outer loop may leave in the trace: enqueues of the nine
    per-round stages, polls, read-backs and scans. *)
Definition in_loop (e : event) : bool :=
  match e with
  | EvEnqueue k _ _ _ => negb (kernel_eqb k sum_all_radiance)
  | EvGetCancel _ | EvMemCopyFrom _ _ | EvScan _ => true
  | _ => false
  end.

(** The parts of the scheduler the outer loop leaves alone. *)
Definition same_pipeline (s s' : machine) : Prop :=
  device (self s') = device (self s) /\
  kernel_handle (self s') = kernel_handle (self s) /\
  current_max_closure (self s') = current_max_closure (self s) /\
  first_tile (self s') = first_tile (self s) /\
  data_inits s' = data_inits s.

(** A refusal ends a call: every event but the last was accepted, and the
    last was refused exactly when the call returns [false]. *)
Definition refusal_is_final {A} (o : completion A) (evs : list event) : Prop :=
  match o with
  | Returned false =>
      exists pre e, evs = pre ++ [e] /\
        Forall (fun e => failed e = false) pre /\ failed e = true
  | _ => Forall (fun e => failed e = false) evs
  end.

(** Host interventions: the passes of the outer loop whose scan found a
    lane that is not inactive. *)
Definition host_interventions (evs : list event) : Z :=
  Z.of_nat (length (filter is_scan_active evs)).

(** The number of allocations among some events. *)
Definition allocations (evs : list event) : nat :=
  length (filter is_alloc evs).

(** The events of one full pass of the pipeline over the grid [global]:
    the nine stages in their order, shadow-blocked on the grid [shadow]. *)
Definition round_events (global shadow local : Z * Z) : list event :=
  [EvEnqueue scene_intersect global local true;
   EvEnqueue lamp_emission global local true;
   EvEnqueue queue_enqueue global local true;
   EvEnqueue background_buffer_update global local true;
   EvEnqueue shader_eval global local true;
   EvEnqueue holdout_emission_blurring_pathtermination_ao global local true;
   EvEnqueue direct_lighting global local true;
   EvEnqueue shadow_blocked shadow local true;
   EvEnqueue next_iteration_setup global local true].

(** A pass the device cut short: the first [j] stages were accepted and
    the next one was refused. *)
Definition refuse (e : event) : event :=
  match e with
  | EvEnqueue k g l _ => EvEnqueue k g l false
  | _ => e
  end.

Definition refused_round (global shadow local : Z * Z) (j : nat) : list event :=
  firstn j (round_events global shadow local) ++
  map refuse (firstn 1 (skipn j (round_events global shadow local))).

(** The shapes a batch of at most [n] passes can take: it runs out of
    passes, or a poll after a full pass finds the task canceled and no
    further pass is issued, or the device refuses a stage and nothing
    follows, or a full pass and a quiet poll are followed by a batch of at
    most [n - 1] passes. The completion is the value of [canceled], or the
    [return false] of the refused enqueue. *)
Inductive batch_run (global shadow local : Z * Z) (canceled_before : bool)
  : nat -> list event -> completion bool -> Prop :=
| batch_exhausted :
    batch_run global shadow local canceled_before O [] (Normal canceled_before)
| batch_canceled n :
    batch_run global shadow local canceled_before (S n)
      (round_events global shadow local ++ [EvGetCancel true]) (Normal true)
| batch_refused n j :
    (j < 9)%nat ->
    batch_run global shadow local canceled_before (S n)
      (refused_round global shadow local j) (Returned false)
| batch_continued n evs o :
    batch_run global shadow local canceled_before n evs o ->
    batch_run global shadow local canceled_before (S n)
      (round_events global shadow local ++ EvGetCancel false :: evs) o.

Definition is_enqueue (e : event) : bool :=
  match e with EvEnqueue _ _ _ _ => true | _ => false end.

Definition is_poll (e : event) : bool :=
  match e with EvGetCancel _ => true | _ => false end.

(** The machine after a batch that left the events [evs]: the trace has
    grown and the enqueues and polls have been counted. *)
Definition advance (evs : list event) (s : machine) : machine :=
  {| self := s.(self);
     trace := s.(trace) ++ evs;
     data_inits := s.(data_inits);
     enqueues := s.(enqueues) + N.of_nat (length (filter is_enqueue evs));
     read_backs := s.(read_backs);
     polls := s.(polls) + N.of_nat (length (filter is_poll evs)) |}.

(** A cancellation request, once raised, stays raised. *)
Definition sticky (task : DeviceTask) : Prop :=
  forall i j : N, (i <= j)%N ->
    task.(cancel_answer) i = true -> task.(cancel_answer) j = true.

(** ** Inputs used in examples

    The constants are those of Cycles: a local work size of 64 by 1, an
    increment of 8, [RAY_ACTIVE = 0] and [RAY_INACTIVE = 1]. *)

Definition cycles (s : strategy) : KernelTypes :=
  {| PATH_ITER_INC_FACTOR := 8;
     SPLIT_KERNEL_LOCAL_SIZE_X := 64;
     SPLIT_KERNEL_LOCAL_SIZE_Y := 1;
     RAY_INACTIVE := 1;
     NUM_QUEUES := 4;
     split_data_buffer_size := fun n closure per_thread => n * (closure + per_thread);
     dispatch_strategy := s |}.

(** A device that accepts every dispatch and whose lanes are all active
    in the first [rounds] read-backs and all inactive afterwards. *)
Definition steady_device (rounds : N) : Device :=
  {| get_split_kernel_function := fun _ _ => Some 1%N;
     sizeof_KernelGlobals := 256;
     data_init_result := fun _ => true;
     enqueue_result := fun _ => true;
     ray_state_on_device := fun r _ => if (r <? rounds)%N then 0 else 1 |}.

(** A device like [steady_device] that refuses its [n]-th data-init
    dispatch and its [e]-th stage enqueue. *)
Definition faulty_device (rounds n e : N) : Device :=
  {| get_split_kernel_function := fun _ _ => Some 1%N;
     sizeof_KernelGlobals := 256;
     data_init_result := fun i => negb (i =? n)%N;
     enqueue_result := fun i => negb (i =? e)%N;
     ray_state_on_device := fun r _ => if (r <? rounds)%N then 0 else 1 |}.

(** A device that lacks one stage. *)
Definition device_without (k : kernel) : Device :=
  {| get_split_kernel_function := fun k' _ => if kernel_eqb k' k then None else Some 1%N;
     sizeof_KernelGlobals := 256;
     data_init_result := fun _ => true;
     enqueue_result := fun _ => true;
     ray_state_on_device := fun _ _ => 1 |}.

Definition never_canceled : DeviceTask := {| cancel_answer := fun _ => false |}.

(** A task canceled from its [n]-th poll on. *)
Definition canceled_from (n : N) : DeviceTask :=
  {| cancel_answer := fun i => (n <=? i)%N |}.

Definition tile_64x64 : RenderTile := make_tile 64 64 16.
Definition tile_128x1 : RenderTile := make_tile 128 1 16.
Definition feasible_64x1 : int2 := make_int2 64 1.
Definition feasible_64x64 : int2 := make_int2 64 64.
Definition feasible_256x256 : int2 := make_int2 256 256.
Definition tile_64x1 : RenderTile := make_tile 64 1 16.

(** A request for [tile_64x1] with four passes of fuel. *)
Definition first_request (task : DeviceTask) : tile_request :=
  {| request_fuel := 4; request_task := task; request_tile := tile_64x1;
     request_feasible_size := feasible_64x1; request_output_buffer_size := 16 |}.

(** ** Vocabulary of the further properties of the scheduler *)

Definition is_data_init (e : event) : bool :=
  match e with EvDataInit _ _ _ _ _ => true | _ => false end.

Definition is_read_back (e : event) : bool :=
  match e with EvMemCopyFrom _ _ => true | _ => false end.

(** The position of a stage in the order of [load_kernels]. *)
Definition stage_index (k : kernel) : nat :=
  match k with
  | scene_intersect => 0
  | lamp_emission => 1
  | queue_enqueue => 2
  | background_buffer_update => 3
  | shader_eval => 4
  | holdout_emission_blurring_pathtermination_ao => 5
  | direct_lighting => 6
  | shadow_blocked => 7
  | next_iteration_setup => 8
  | sum_all_radiance => 9
  end.

(** The first stage, in that order, that the device does not provide. *)
Definition first_missing (dev : Device) (f : DeviceRequestedFeatures) : option kernel :=
  find (fun k => match get_split_kernel_function dev k f with
                 | None => true | Some _ => false end) all_kernels.

(** The six [mem_free] calls of the destructor. *)
Definition destructor_events : list event :=
  [EvMemFree kgbuffer; EvMemFree split_data; EvMemFree ray_state_mem;
   EvMemFree use_queues_flag; EvMemFree queue_index; EvMemFree work_pool_wgs].

(** What follows the first poll that found the task canceled. *)
Fixpoint events_after_cancel (evs : list event) : list event :=
  match evs with
  | [] => []
  | EvGetCancel true :: rest => rest
  | _ :: rest => events_after_cancel rest
  end.

(** The number of enqueues of a stage among some events. *)
Definition enqueues_of (k : kernel) (evs : list event) : nat :=
  length (filter (is_enqueue_of k) evs).

Definition read_back_count (evs : list event) : nat :=
  length (filter is_read_back evs).

(** A read-back of [size] bytes of [ray_state]. *)
Definition reads_back (size : Z) (e : event) : Prop :=
  match e with
  | EvMemCopyFrom b n => b = ray_state_mem /\ n = size
  | _ => True
  end.



(** A tile that is not aligned with the local work size of Cycles. *)
Definition tile_100x3 : RenderTile := make_tile 100 3 16.

(** A call on a scheduler between its construction and its destruction. *)
Inductive scheduler_call :=
| LoadKernels (requested_features : DeviceRequestedFeatures)
| PathTrace (c : tile_request).

Section Life.

Context {K : KernelTypes}.

Definition perform (c : scheduler_call) (s : machine) : machine :=
  match c with
  | LoadKernels requested_features => snd (load_kernels requested_features s)
  | PathTrace c => snd (path_trace_request c s)
  end.

(** A sequence of calls of [load_kernels] and [path_trace] on one
    scheduler. *)
Fixpoint perform_all (calls : list scheduler_call) (s : machine) : machine :=
  match calls with
  | [] => s
  | c :: rest => perform_all rest (perform c s)
  end.

(** A new scheduler on which [load_kernels] has been called once, for
    features with at most 64 closures. *)
Definition loaded_machine (dev : Device) : machine :=
  perform (LoadKernels {| max_closure := 64 |}) (new_machine dev).

End Life.

(** A task whose [n]-th poll, and no other, finds it canceled. *)
Definition canceled_once (n : N) : DeviceTask :=
  {| cancel_answer := fun i => (i =? n)%N |}.

(** * Alembic utilities ([abc_util.h]) *)

(** ** [begins_with] *)

Section BeginsWith.

(** The element type of [TContainer], with its [operator==]. *)
Context {A : Type} (eqb : A -> A -> bool).

(** [std::equal(first1, last1, first2)]: the first range is compared with
    as many elements from [first2] on. Reading past the end of the second
    range is undefined behaviour: [None]. *)
Fixpoint equal (range1 range2 : list A) : option bool :=
  match range1 with
  | [] => Some true
  | a :: rest1 =>
      match range2 with
      | [] => None
      | b :: rest2 => if eqb a b then equal rest1 rest2 else Some false
      end
  end.

(** [input.size() >= match.size() && std::equal(match.begin(), match.end(),
    input.begin())] *)
Definition begins_with (input match_ : list A) : option bool :=
  if (length match_ <=? length input)%nat then equal match_ input else Some false.

End BeginsWith.

(** ** Axis conversion *)

(** Conversion to [short] (16 bits). *)
Definition to_short (v : Z) : Z :=
  let r := v mod 65536 in if r <? 32768 then r else r - 65536.

(** [-v] for a [short] [v]: the operand is promoted to [int], and the
    result is converted back when it is stored. *)
Definition short_neg (v : Z) : Z := to_short (- v).

(** A [float] as its IEEE 754 encoding, an integer of 32 bits. Unary
    minus turns the sign bit, bit 31, whatever the value is. *)
Definition float_neg (v : Z) : Z := Z.lxor v (2 ^ 31).

Section AxisConversion.

(** The two overloads of each function have the same body; [T] is [float]
    or [short], with its unary minus. *)
Context {T : Type} (neg : T -> T).

(** Arrays live in a memory of elements; a pointer is the address of an
    element. *)
Definition memory : Type := Z -> T.

Definition store (mem : memory) (address : Z) (v : T) : memory :=
  fun a => if a =? address then v else mem a.

(** [copy_zup_from_yup(zup, yup)] *)
Definition copy_zup_from_yup (zup yup : Z) (mem : memory) : memory :=
  let mem := store mem (zup + 0) (mem (yup + 0)) in
  let mem := store mem (zup + 1) (neg (mem (yup + 2))) in
  store mem (zup + 2) (mem (yup + 1)).

(** [copy_yup_from_zup(yup, zup)] *)
Definition copy_yup_from_zup (yup zup : Z) (mem : memory) : memory :=
  let mem := store mem (yup + 0) (mem (zup + 0)) in
  let mem := store mem (yup + 1) (mem (zup + 2)) in
  store mem (yup + 2) (neg (mem (zup + 1))).

(** The three elements of the array at [p]. *)
Definition vector (mem : memory) (p : Z) : T * T * T :=
  (mem (p + 0), mem (p + 1), mem (p + 2)).

(** Two arrays of three elements that do not overlap. *)
Definition separate (p q : Z) : Prop := p + 3 <= q \/ q + 3 <= p.

End AxisConversion.

(** ** Time ranges *)

(** [chrono_t] is a [double]. *)
Definition chrono_t := spec_float.

(** [std::min(a, b)] is [(b < a) ? b : a], and [std::max(a, b)] is
    [(a < b) ? b : a]. *)
Definition std_min (a b : chrono_t) : chrono_t := if SFltb b a then b else a.
Definition std_max (a b : chrono_t) : chrono_t := if SFltb a b then b else a.

(** What the two templates use of an Alembic schema: whether it is
    constant, its number of samples (a [size_t]) and the times of its
    time sampling. *)
Record Schema := {
  isConstant : bool;
  getNumSamples : Z;
  getSampleTime : Z -> chrono_t
}.

(** What [get_min_max_time] uses of an object: whether its parent is
    valid, whether the parent's meta data match a transform, and the
    schema of that transform. *)
Record IObject := {
  parent_valid : bool;
  parent_matches_IXform : bool;
  parent_schema : Schema
}.

(** [get_min_max_time_ex(schema, min, max)]; the pair is [(min, max)]. *)
Definition get_min_max_time_ex (schema : Schema) (range : chrono_t * chrono_t)
    : chrono_t * chrono_t :=
  if negb schema.(isConstant) then
    let num_samps := schema.(getNumSamples) in
    if 0 <? num_samps then
      (std_min (fst range) (schema.(getSampleTime) 0),
       std_max (snd range) (schema.(getSampleTime) (to_size_t (num_samps - 1))))
    else range
  else range.

(** [get_min_max_time(object, schema, min, max)] *)
Definition get_min_max_time (object : IObject) (schema : Schema)
    (range : chrono_t * chrono_t) : chrono_t * chrono_t :=
  let range := get_min_max_time_ex schema range in
  if object.(parent_valid) && object.(parent_matches_IXform)
  then get_min_max_time_ex object.(parent_schema) range
  else range.

(** A time that is a number. *)
Definition is_number (t : chrono_t) : bool :=
  match t with S754_nan => false | _ => true end.

(** Inputs used in examples. *)

(** Three [short]s at address 0, the first the least [short]; the rest
    of the memory holds its own address. *)
Definition shorts_at_0 : @memory Z :=
  fun a => if a =? 0 then -32768 else a.

(** Three [float]s at address 0: [1.0f], [-2.0f] and a NaN with a
    payload. *)
Definition floats_at_0 : @memory Z :=
  fun a => if a =? 0 then 0x3f800000
           else if a =? 1 then 0xc0000000
           else 0x7fc00001.

(** The time [n], for a positive [n]. *)
Definition seconds (n : positive) : chrono_t := S754_finite false n 0.

(** A schema with three samples, at the times 2, 3 and 4. *)
Definition three_samples : Schema :=
  {| isConstant := false; getNumSamples := 3;
     getSampleTime := fun i => seconds (Z.to_pos (i + 2)) |}.

(** An object below a transform with two samples, at the times 1 and 2. *)
Definition below_transform : IObject :=
  {| parent_valid := true; parent_matches_IXform := true;
     parent_schema := {| isConstant := false; getNumSamples := 2;
                         getSampleTime := fun i => seconds (Z.to_pos (i + 1)) |} |}.

(** * The GLUT view of the standalone renderer ([util_view.cpp]) *)

Module UtilView.

(** A callback pointer; a null pointer is [None]. *)
Definition funptr := N.

(** [struct View] *)
Record View := {
  initf : option funptr;
  exitf : option funptr;
  resize : option funptr;
  display : option funptr;
  keyboard : option funptr;
  first_display : bool;
  redraw : bool;
  width : Z;
  height : Z
}.

(** The five callback types. *)
Inductive callback :=
| ViewInitFunc | ViewExitFunc | ViewResizeFunc | ViewDisplayFunc | ViewKeyboardFunc.

Inductive matrix_mode := GL_PROJECTION | GL_MODELVIEW.

(** What the view does to the application, to OpenGL, to GLUT and to the
    C library, in the order it does it. Calls are recorded with the
    arguments that are not literals of the source. *)
Inductive event :=
| Call (type : callback) (f : funptr) (args : list Z)
| atexit (f : funptr)
| exit (status : Z)
| printf_mouse (x y : Z)
| time_sleep
| glClearColor
| glClear
| glMatrixMode (mode : matrix_mode)
| glLoadIdentity
| gluOrtho2D (left right bottom top : Z)
| glRasterPos3f (x y z : Z)
| glViewport (x y w h : Z)
| glutSwapBuffers
| glutPostRedisplay
| glutInit
| glutInitWindowSize (w h : Z)
| glutInitWindowPosition (x y : Z)
| glutInitDisplayMode
| glutCreateWindow (title : list Z)
| glewInit
| glutDisplayFunc
| glutIdleFunc
| glutReshapeFunc
| glutKeyboardFunc.

(** The global [V], the trace, the functions registered with [atexit]
    (the last registered first), and whether [exit] has been called. *)
Record machine := {
  V : View;
  trace : list event;
  at_exit : list funptr;
  exited : bool
}.

Definition log (e : event) (s : machine) : machine :=
  {| V := s.(V); trace := s.(trace) ++ [e]; at_exit := s.(at_exit);
     exited := s.(exited) |}.

Definition set_V (v : View) (s : machine) : machine :=
  {| V := v; trace := s.(trace); at_exit := s.(at_exit); exited := s.(exited) |}.

(** [if(f) f(args)] *)
Definition call_if_set (type : callback) (f : option funptr) (args : list Z)
    (s : machine) : machine :=
  match f with
  | Some f => log (Call type f args) s
  | None => s
  end.

(** [atexit(f)] of the C library. *)
Definition register_atexit (f : funptr) (s : machine) : machine :=
  let s := log (atexit f) s in
  {| V := s.(V); trace := s.(trace); at_exit := f :: s.(at_exit);
     exited := s.(exited) |}.

(** [exit(status)] of the C library: the functions registered with
    [atexit] are called, the last registered first, and the program ends. *)
Definition exit_program (status : Z) (s : machine) : machine :=
  let s := log (exit status) s in
  let s := fold_left (fun s f => log (Call ViewExitFunc f []) s) s.(at_exit) s in
  {| V := s.(V); trace := s.(trace); at_exit := s.(at_exit); exited := true |}.

(** [view_redraw()] *)
Definition view_redraw (s : machine) : machine :=
  let v := s.(V) in
  set_V {| initf := v.(initf); exitf := v.(exitf); resize := v.(resize);
           display := v.(display); keyboard := v.(keyboard);
           first_display := v.(first_display); redraw := true;
           width := v.(width); height := v.(height) |} s.

Definition clear_redraw (s : machine) : machine :=
  let v := s.(V) in
  set_V {| initf := v.(initf); exitf := v.(exitf); resize := v.(resize);
           display := v.(display); keyboard := v.(keyboard);
           first_display := v.(first_display); redraw := false;
           width := v.(width); height := v.(height) |} s.

Definition clear_first_display (s : machine) : machine :=
  let v := s.(V) in
  set_V {| initf := v.(initf); exitf := v.(exitf); resize := v.(resize);
           display := v.(display); keyboard := v.(keyboard);
           first_display := false; redraw := v.(redraw);
           width := v.(width); height := v.(height) |} s.

Definition set_size (w h : Z) (s : machine) : machine :=
  let v := s.(V) in
  set_V {| initf := v.(initf); exitf := v.(exitf); resize := v.(resize);
           display := v.(display); keyboard := v.(keyboard);
           first_display := v.(first_display); redraw := v.(redraw);
           width := w; height := h |} s.

(** [view_display()] *)
Definition view_display (s : machine) : machine :=
  let s :=
    if s.(V).(first_display) then
      let s := call_if_set ViewInitFunc s.(V).(initf) [] s in
      let s := match s.(V).(exitf) with
               | Some f => register_atexit f s
               | None => s
               end in
      clear_first_display s
    else s in
  let s := log glClearColor s in
  let s := log glClear s in
  let s := log (glMatrixMode GL_PROJECTION) s in
  let s := log glLoadIdentity s in
  let s := log (gluOrtho2D 0 s.(V).(width) 0 s.(V).(height)) s in
  let s := log (glMatrixMode GL_MODELVIEW) s in
  let s := log glLoadIdentity s in
  let s := log (glRasterPos3f 0 0 0) s in
  let s := call_if_set ViewDisplayFunc s.(V).(display) [] s in
  log glutSwapBuffers s.

(** [view_reshape(width, height)] *)
Definition view_reshape (width height : Z) (s : machine) : machine :=
  if (width <=? 0) || (height <=? 0) then s
  else
    let s := set_size width height s in
    let s := log (glViewport 0 0 width height) s in
    let s := log (glMatrixMode GL_PROJECTION) s in
    let s := log glLoadIdentity s in
    let s := log (glMatrixMode GL_MODELVIEW) s in
    let s := log glLoadIdentity s in
    call_if_set ViewResizeFunc s.(V).(resize) [width; height] s.

(** [view_keyboard(key, x, y)]; ['m'] is 109 and ['q'] is 113. *)
Definition view_keyboard (key x y : Z) (s : machine) : machine :=
  let s := call_if_set ViewKeyboardFunc s.(V).(keyboard) [key] s in
  let s := if key =? 109 then log (printf_mouse x y) s else s in
  if key =? 113 then
    let s := call_if_set ViewExitFunc s.(V).(exitf) [] s in
    exit_program 0 s
  else s.

(** [view_idle()] *)
Definition view_idle (s : machine) : machine :=
  let s :=
    if s.(V).(redraw) then log glutPostRedisplay (clear_redraw s) else s in
  log time_sleep s.

(** What happens while [glutMainLoop] runs: GLUT calls one of the four
    registered functions, or the application calls [view_redraw], from a
    callback or from another thread. *)
Inductive step :=
| Display
| Idle
| Reshape (width height : Z)
| Keyboard (key x y : Z)
| Redraw.

Definition handle (e : step) (s : machine) : machine :=
  match e with
  | Display => view_display s
  | Idle => view_idle s
  | Reshape w h => view_reshape w h s
  | Keyboard key x y => view_keyboard key x y s
  | Redraw => view_redraw s
  end.

(** [glutMainLoop()], for the steps that happen until the program ends. *)
Fixpoint glutMainLoop (steps : list step) (s : machine) : machine :=
  match steps with
  | [] => s
  | e :: rest => if s.(exited) then s else glutMainLoop rest (handle e s)
  end.

(** The arguments of [view_main_loop]. *)
Record arguments := {
  title : list Z;
  arg_width : Z;
  arg_height : Z;
  arg_initf : option funptr;
  arg_exitf : option funptr;
  arg_resize : option funptr;
  arg_display : option funptr;
  arg_keyboard : option funptr
}.

(** [view_main_loop(title, width, height, initf, exitf, resize, display,
    keyboard)], in a new program; [apple] says whether [__APPLE__] is
    defined. *)
Definition view_main_loop (apple : bool) (a : arguments) (steps : list step) : machine :=
  let s := {| V := {| initf := a.(arg_initf); exitf := a.(arg_exitf);
                      resize := a.(arg_resize); display := a.(arg_display);
                      keyboard := a.(arg_keyboard);
                      first_display := true; redraw := false;
                      width := a.(arg_width); height := a.(arg_height) |};
              trace := []; at_exit := []; exited := false |} in
  let s := log glutInit s in
  let s := log (glutInitWindowSize a.(arg_width) a.(arg_height)) s in
  let s := log (glutInitWindowPosition 0 0) s in
  let s := log glutInitDisplayMode s in
  let s := log (glutCreateWindow a.(title)) s in
  let s := if apple then s else log glewInit s in
  let s := view_reshape a.(arg_width) a.(arg_height) s in
  let s := log glutDisplayFunc s in
  let s := log glutIdleFunc s in
  let s := log glutReshapeFunc s in
  let s := log glutKeyboardFunc s in
  glutMainLoop steps s.

(** Vocabulary of the properties. *)

Definition is_call (type : callback) (e : event) : bool :=
  match e, type with
  | Call ViewInitFunc _ _, ViewInitFunc
  | Call ViewExitFunc _ _, ViewExitFunc
  | Call ViewResizeFunc _ _, ViewResizeFunc
  | Call ViewDisplayFunc _ _, ViewDisplayFunc
  | Call ViewKeyboardFunc _ _, ViewKeyboardFunc => true
  | _, _ => false
  end.

Definition is_atexit (e : event) : bool :=
  match e with atexit _ => true | _ => false end.

Definition is_post_redisplay (e : event) : bool :=
  match e with glutPostRedisplay => true | _ => false end.

Definition is_exit (e : event) : bool :=
  match e with exit _ => true | _ => false end.

Definition count (p : event -> bool) (tr : list event) : nat :=
  length (filter p tr).

Definition is_redraw (e : step) : bool :=
  match e with Redraw => true | _ => false end.

Definition is_display (e : step) : bool :=
  match e with Display => true | _ => false end.

(** The key ['q']. *)
Definition is_quit (e : step) : bool :=
  match e with Keyboard key _ _ => key =? 113 | _ => false end.

(** The sizes that an event hands to OpenGL or to the application. *)
Definition sizes_positive (e : event) : Prop :=
  match e with
  | glViewport _ _ w h => 0 < w /\ 0 < h
  | gluOrtho2D _ r _ t => 0 < r /\ 0 < t
  | Call ViewResizeFunc _ args => Forall (fun v => 0 < v) args
  | _ => True
  end.

(** No display callback is called before the init callback has been. *)
Fixpoint init_first (initialised : bool) (tr : list event) : bool :=
  match tr with
  | [] => true
  | Call ViewInitFunc _ _ :: rest => init_first true rest
  | Call ViewDisplayFunc _ _ :: rest => initialised && init_first initialised rest
  | _ :: rest => init_first initialised rest
  end.

(** What a step adds to the trace. *)
Definition display_events (s : machine) : list event :=
  (if first_display (V s)
   then match initf (V s) with Some f => [Call ViewInitFunc f []] | None => [] end ++
        match exitf (V s) with Some f => [atexit f] | None => [] end
   else []) ++
  [glClearColor; glClear; glMatrixMode GL_PROJECTION; glLoadIdentity;
   gluOrtho2D 0 (width (V s)) 0 (height (V s)); glMatrixMode GL_MODELVIEW;
   glLoadIdentity; glRasterPos3f 0 0 0] ++
  match display (V s) with Some f => [Call ViewDisplayFunc f []] | None => [] end ++
  [glutSwapBuffers].

Definition reshape_events (w h : Z) (s : machine) : list event :=
  if (w <=? 0) || (h <=? 0) then []
  else [glViewport 0 0 w h; glMatrixMode GL_PROJECTION; glLoadIdentity;
        glMatrixMode GL_MODELVIEW; glLoadIdentity] ++
       match resize (V s) with Some f => [Call ViewResizeFunc f [w; h]] | None => [] end.

Definition keyboard_events (key x y : Z) (s : machine) : list event :=
  match keyboard (V s) with Some f => [Call ViewKeyboardFunc f [key]] | None => [] end ++
  (if key =? 109 then [printf_mouse x y] else []) ++
  (if key =? 113
   then match exitf (V s) with Some f => [Call ViewExitFunc f []] | None => [] end ++
        [exit 0] ++ map (fun f => Call ViewExitFunc f []) (at_exit s)
   else []).

Definition step_events (e : step) (s : machine) : list event :=
  match e with
  | Display => display_events s
  | Idle => (if redraw (V s) then [glutPostRedisplay] else []) ++ [time_sleep]
  | Reshape w h => reshape_events w h s
  | Keyboard key x y => keyboard_events key x y s
  | Redraw => []
  end.

(** The program when [glutMainLoop] is entered. *)
Definition started (apple : bool) (a : arguments) : machine :=
  view_main_loop apple a [].

(** A call of the init callback is a call of [initf], without arguments. *)
Definition init_call_of (a : arguments) (e : event) : Prop :=
  match e with
  | Call ViewInitFunc f args => arg_initf a = Some f /\ args = []
  | _ => True
  end.

(** The first display, and nothing else, calls the init callback and
    registers the exit callback. *)
Definition initialised_once (a : arguments) (s : machine) : Prop :=
  initf (V s) = arg_initf a /\ exitf (V s) = arg_exitf a /\
  count (is_call ViewInitFunc) (trace s) =
    (if first_display (V s) then 0
     else match arg_initf a with Some _ => 1 | None => 0 end)%nat /\
  count is_atexit (trace s) =
    (if first_display (V s) then 0
     else match arg_exitf a with Some _ => 1 | None => 0 end)%nat /\
  init_first false (trace s) =
    match arg_initf a with Some _ => true | None => init_first false (trace s) end /\
  Forall (init_call_of a) (trace s).

(** The sizes of the view are positive and have been so all along. *)
Definition sizes_kept (s : machine) : Prop :=
  0 < width (V s) /\ 0 < height (V s) /\ Forall sizes_positive (trace s).

(** The calls of [view_redraw] among some steps. *)
Definition redraws (steps : list step) : nat := length (filter is_redraw steps).


End UtilView.

(** A view of 640 by 480 with every callback set. *)
Definition window_640x480 : UtilView.arguments :=
  {| UtilView.title := [];
     UtilView.arg_width := 640; UtilView.arg_height := 480;
     UtilView.arg_initf := Some 1%N; UtilView.arg_exitf := Some 2%N;
     UtilView.arg_resize := Some 3%N; UtilView.arg_display := Some 4%N;
     UtilView.arg_keyboard := Some 5%N |}.

(** * Properties *)

(** ** Machine arithmetic *)

Lemma to_unsigned_small v : 0 <= v < 2 ^ 32 -> to_unsigned v = v.
Proof. intros Hv. unfold to_unsigned. apply Z.mod_small. exact Hv. Qed.

Lemma to_size_t_small v : 0 <= v < 2 ^ 64 -> to_size_t v = v.
Proof. intros Hv. unfold to_size_t. apply Z.mod_small. exact Hv. Qed.

Lemma to_unsigned_range v : 0 <= to_unsigned v < 2 ^ 32.
Proof. unfold to_unsigned. apply Z.mod_pos_bound. lia. Qed.

Lemma to_size_t_range v : 0 <= to_size_t v < 2 ^ 64.
Proof. unfold to_size_t. apply Z.mod_pos_bound. lia. Qed.

Lemma min_is_Zmin a b : min a b = Z.min a b.
Proof. unfold min. destruct (Z.ltb_spec a b); lia. Qed.

(** An [uchar] whose [int8_t] value is not negative is that value. *)
Lemma int8_t_byte c : 0 <= c < 256 -> 0 <= int8_t c -> int8_t c = c.
Proof.
  intros Hc. unfold int8_t. rewrite (Z.mod_small c 256) by lia.
  destruct (Z.ltb_spec c 128); lia.
Qed.

(** Without wrap-around, [round_up] is the textbook formula. *)
Lemma round_up_exact d l :
  0 < d < 2 ^ 31 -> 0 < l < 2 ^ 31 ->
  round_up d l = ((d - 1) / l + 1) * l.
Proof.
  intros Hd Hl. unfold round_up.
  assert (Hq : 0 <= (d - 1) / l <= d - 1).
  { split; [apply Z.div_pos; lia|]. apply Z.div_le_upper_bound; nia. }
  rewrite (to_size_t_small (d - 1)) by lia.
  rewrite (to_size_t_small ((d - 1) / l)) by lia.
  apply to_size_t_small. nia.
Qed.

(** [round_up d l] is the least multiple of [l] that is at least [d]. *)
Lemma round_up_bounds d l :
  0 < d < 2 ^ 31 -> 0 < l < 2 ^ 31 ->
  d <= round_up d l < d + l /\ round_up d l mod l = 0.
Proof.
  intros Hd Hl. rewrite round_up_exact by assumption.
  pose proof (Z.div_mod (d - 1) l ltac:(lia)) as E.
  pose proof (Z.mod_pos_bound (d - 1) l ltac:(lia)) as B.
  split; [nia|]. apply Z.mod_mul. lia.
Qed.

Lemma round_up_aligned d l :
  0 < d < 2 ^ 31 -> 0 < l < 2 ^ 31 -> d mod l = 0 -> round_up d l = d.
Proof.
  intros Hd Hl Hm.
  destruct (round_up_bounds d l Hd Hl) as [[Hlo Hhi] Hr].
  apply Z.mod_divide in Hm; [|lia]. apply Z.mod_divide in Hr; [|lia].
  destruct Hm as [a Ha]. destruct Hr as [b Hb].
  assert (b = a) by nia. subst b. lia.
Qed.

(** ** Work sizes *)

Section WorkSizeProperties.

Context {K : KernelTypes}.

Lemma raw_parallel_samples_exact rtile m :
  local_size_well_formed -> tile_well_formed rtile -> feasible_size_well_formed m ->
  raw_parallel_samples rtile m =
    Z.min (m.(x) * m.(y) / round_up rtile.(h) SPLIT_KERNEL_LOCAL_SIZE_Y / rtile.(w))
          rtile.(num_samples)
  /\ 0 <= raw_parallel_samples rtile m <= rtile.(num_samples)
  /\ rtile.(w) * raw_parallel_samples rtile m
       * round_up rtile.(h) SPLIT_KERNEL_LOCAL_SIZE_Y <= m.(x) * m.(y).
Proof.
  intros [_ HLY] (Hw & Hh & Hs) (Hx & Hy & Hxy).
  unfold raw_parallel_samples, num_tile_columns_possible, num_threads, local_size.
  cbn [snd fst].
  destruct (round_up_bounds _ _ Hh HLY) as [HG _].
  set (G := round_up (h rtile) SPLIT_KERNEL_LOCAL_SIZE_Y) in *.
  set (T := x m * y m) in *.
  assert (HT : 0 < T) by (subst T; nia).
  rewrite (to_unsigned_small T) by lia.
  assert (Hc : 0 <= T / G <= T).
  { split; [apply Z.div_pos; lia|]. apply Z.div_le_upper_bound; nia. }
  assert (HcG : T / G * G <= T).
  { pose proof (Z.mul_div_le T G ltac:(lia)). lia. }
  rewrite (to_unsigned_small (T / G)) by lia.
  rewrite (to_unsigned_small (w rtile)) by lia.
  assert (Hq : 0 <= T / G / w rtile <= T / G).
  { split; [apply Z.div_pos; lia|]. apply Z.div_le_upper_bound; nia. }
  assert (Hqw : w rtile * (T / G / w rtile) <= T / G).
  { apply Z.mul_div_le. lia. }
  rewrite min_is_Zmin.
  rewrite to_unsigned_small by lia.
  split; [reflexivity|]. split; [lia|].
  assert (w rtile * Z.min (T / G / w rtile) (num_samples rtile) <= T / G) by nia.
  nia.
Qed.

(** C3. In the fixed-allocation strategy the number of parallel samples
    never exceeds the tile's requested sample count; it is the raw value
    [min(laneBudget / roundedTileHeight / tileWidth, requestedSamples)] when
    that value is below 64 and a positive multiple of 64 when the raw
    value is at least 64; and it is not zero, so that the assertion
    [num_parallel_samples != 0] holds, exactly under the sizing
    preconditions: a sample is requested and [tileWidth] columns of
    [roundedTileHeight] lanes fit the lane budget. *)
Theorem parallel_samples_fixed_allocation rtile m :
  local_size_well_formed -> tile_well_formed rtile -> feasible_size_well_formed m ->
  let raw :=
    Z.min (m.(x) * m.(y) / round_up rtile.(h) SPLIT_KERNEL_LOCAL_SIZE_Y / rtile.(w))
          rtile.(num_samples) in
  let n := num_parallel_samples FixedAllocation rtile m in
  n <= rtile.(num_samples) /\
  (raw < 64 -> n = raw) /\
  (64 <= raw -> 0 < n /\ n mod 64 = 0) /\
  (assert_parallel_samples FixedAllocation rtile m = true <->
     1 <= rtile.(num_samples) /\
     rtile.(w) * round_up rtile.(h) SPLIT_KERNEL_LOCAL_SIZE_Y <= m.(x) * m.(y)).
Proof.
  intros HL Ht Hm.
  destruct (raw_parallel_samples_exact rtile m HL Ht Hm) as (Eraw & Hraw & _).
  cbv zeta. rewrite <- Eraw.
  unfold assert_parallel_samples, num_parallel_samples.
  set (r := raw_parallel_samples rtile m) in *.
  assert (Hdiv : 0 <= r / 64 * 64 <= r).
  { pose proof (Z.mul_div_le r 64 ltac:(lia)).
    pose proof (Z.div_pos r 64 ltac:(lia) ltac:(lia)). lia. }
  destruct Ht as (Hw & Hh & Hs). destruct Hm as (Hx & Hy & Hxy).
  destruct HL as [_ HLY].
  destruct (round_up_bounds _ _ Hh HLY) as [HG _].
  assert (Hnz : r <> 0 <->
          1 <= num_samples rtile /\
          w rtile * round_up (h rtile) SPLIT_KERNEL_LOCAL_SIZE_Y <= x m * y m).
  { subst r. rewrite Eraw.
    set (G := round_up (h rtile) SPLIT_KERNEL_LOCAL_SIZE_Y) in *.
    set (T := x m * y m) in *.
    assert (HT : 0 < T) by (subst T; nia).
    assert (Hc : 0 <= T / G) by (apply Z.div_pos; lia).
    assert (Hq : 0 <= T / G / w rtile) by (apply Z.div_pos; lia).
    split.
    - intros Hne. assert (1 <= num_samples rtile /\ 1 <= T / G / w rtile) as [H1 H2] by lia.
      split; [exact H1|].
      assert (w rtile <= T / G).
      { pose proof (Z.mul_div_le (T / G) (w rtile) ltac:(lia)). nia. }
      pose proof (Z.mul_div_le T G ltac:(lia)). nia.
    - intros [H1 H2].
      assert (w rtile <= T / G) by (apply Z.div_le_lower_bound; lia).
      assert (1 <= T / G / w rtile) by (apply Z.div_le_lower_bound; lia).
      lia. }
  assert (Hbool : forall v, negb (v =? 0) = true <-> v <> 0).
  { intros v. destruct (Z.eqb_spec v 0); cbn; split; congruence. }
  destruct (Z.leb_spec 64 r) as [H64|H64].
  - rewrite to_unsigned_small by lia.
    assert (1 <= r / 64) by (apply Z.div_le_lower_bound; lia).
    split; [lia|]. split; [lia|]. split.
    + intros _. split; [lia|]. apply Z.mod_mul. lia.
    + rewrite Hbool, <- Hnz. lia.
  - split; [lia|]. split; [reflexivity|]. split; [lia|].
    rewrite Hbool. exact Hnz.
Qed.

(** C2, as amended. For a well-formed tile whose width and height are
    multiples of the local work size and a well-formed maximum feasible
    tile size, the assertion
    [global_size[0] * global_size[1] <= max.x * max.y] holds in the
    fixed-allocation strategy; in the work-stealing strategy it holds
    exactly when the tile's area is at most the maximum feasible area. *)
Theorem dispatch_area_within_feasible_area rtile m :
  local_size_well_formed -> tile_well_formed rtile -> tile_aligned rtile ->
  feasible_size_well_formed m ->
  assert_dispatch_fits FixedAllocation rtile m = true /\
  (assert_dispatch_fits WorkStealing rtile m = true <->
     rtile.(w) * rtile.(h) <= m.(x) * m.(y)).
Proof.
  intros HL Ht Ha Hm.
  destruct (raw_parallel_samples_exact rtile m HL Ht Hm) as (_ & Hraw & Harea).
  destruct HL as [HLX HLY]. destruct Ht as (Hw & Hh & Hs).
  destruct Ha as [Haw Hah]. destruct Hm as (Hx & Hy & Hxy).
  unfold assert_dispatch_fits, dispatch_area, global_size, local_size.
  cbn [fst snd].
  rewrite (round_up_aligned (h rtile)) in * by assumption.
  rewrite (round_up_aligned (w rtile)) by assumption.
  rewrite (to_size_t_small (x m * y m)) by nia.
  split.
  - unfold num_parallel_samples.
    set (r := raw_parallel_samples rtile m) in *.
    assert (Hdiv : 0 <= r / 64 * 64 <= r).
    { pose proof (Z.mul_div_le r 64 ltac:(lia)).
      pose proof (Z.div_pos r 64 ltac:(lia) ltac:(lia)). lia. }
    rewrite (to_unsigned_small (w rtile)) by lia.
    assert (Hn : 0 <= (if 64 <=? r then to_unsigned (r / 64 * 64) else r) <= r).
    { destruct (64 <=? r); [rewrite to_unsigned_small by lia|]; lia. }
    set (n := if 64 <=? r then to_unsigned (r / 64 * 64) else r) in *.
    assert (Hwn : 0 <= w rtile * n <= w rtile * r) by nia.
    assert (Hwr : w rtile * r * 1 <= w rtile * r * h rtile) by nia.
    rewrite (to_unsigned_small (w rtile * n)) by nia.
    rewrite (to_size_t_small (w rtile * n)) by nia.
    rewrite to_size_t_small by nia.
    apply Z.leb_le. nia.
  - rewrite to_size_t_small by nia. apply Z.leb_le.
Qed.

End WorkSizeProperties.

(** ** One pass of the pipeline and one batch of passes *)

Section Passes.

Context {K : KernelTypes}.

Lemma advance_nil s : advance [] s = s.
Proof.
  destruct s. unfold advance. cbn. rewrite app_nil_r, !N.add_0_r. reflexivity.
Qed.

Lemma advance_app evs1 evs2 s :
  advance evs2 (advance evs1 s) = advance (evs1 ++ evs2) s.
Proof.
  unfold advance. cbn. rewrite !filter_app, !length_app, !Nat2N.inj_add.
  rewrite <- app_assoc, <- !N.add_assoc. reflexivity.
Qed.

Lemma bind_run {A B} (m : M A) (k : A -> M B) s :
  bind m k s =
    match m s with
    | (Normal a, s') => k a s'
    | (Returned b, s') => (Returned b, s')
    | (OutOfFuel, s') => (OutOfFuel, s')
    end.
Proof. reflexivity. Qed.

Lemma ENQUEUE_SPLIT_KERNEL_run name g l s :
  ENQUEUE_SPLIT_KERNEL name g l s =
    if enqueue_result (device (self s)) (enqueues s)
    then (Normal tt, advance [EvEnqueue name g l true] s)
    else (Returned false, advance [EvEnqueue name g l false] s).
Proof.
  unfold ENQUEUE_SPLIT_KERNEL, bind, enqueue, advance. cbn.
  rewrite N.add_0_r, N.add_1_r.
  destruct (enqueue_result _ _); reflexivity.
Qed.

Lemma ENQUEUE_SPLIT_KERNEL_then {B} name g l (k : M B) s :
  (ENQUEUE_SPLIT_KERNEL name g l ;; k) s =
    if enqueue_result (device (self s)) (enqueues s)
    then k (advance [EvEnqueue name g l true] s)
    else (Returned false, advance [EvEnqueue name g l false] s).
Proof.
  rewrite bind_run, ENQUEUE_SPLIT_KERNEL_run.
  destruct (enqueue_result _ _); reflexivity.
Qed.

Lemma get_cancel_run task s :
  get_cancel task s =
    (Normal (cancel_answer task (polls s)),
     advance [EvGetCancel (cancel_answer task (polls s))] s).
Proof.
  unfold get_cancel, advance. cbn. rewrite N.add_0_r, N.add_1_r. reflexivity.
Qed.

Lemma path_iteration_enqueue_all g l s :
  path_iteration g l s =
  enqueue_all (round_stages g (global_size_shadow_blocked g)) l s.
Proof.
  unfold path_iteration, round_stages. cbn [enqueue_all].
  repeat (rewrite !ENQUEUE_SPLIT_KERNEL_then;
          match goal with
          | |- (if ?c then _ else _) = _ => destruct c; [|reflexivity]
          end).
  rewrite ENQUEUE_SPLIT_KERNEL_run.
  destruct (enqueue_result _ _); reflexivity.
Qed.

Lemma enqueue_all_run stages l s :
  exists evs o,
    enqueue_all stages l s = (o, advance evs s) /\
    ((o = Normal tt /\ evs = map (accepted l) stages) \/
     (o = Returned false /\
      exists j, (j < length stages)%nat /\
        evs = firstn j (map (accepted l) stages) ++
              map refuse (firstn 1 (skipn j (map (accepted l) stages))) /\
        enqueue_result (device (self s)) (enqueues s + N.of_nat j) = false)).
Proof.
  revert s. induction stages as [|[name g] rest IH]; intros s.
  - exists [], (Normal tt). rewrite advance_nil. cbn. auto.
  - cbn [enqueue_all]. rewrite ENQUEUE_SPLIT_KERNEL_then.
    destruct (enqueue_result _ _) eqn:E.
    + destruct (IH (advance [EvEnqueue name g l true] s)) as (evs & o & Hrun & Hshape).
      exists (EvEnqueue name g l true :: evs), o.
      rewrite Hrun, advance_app. split; [reflexivity|].
      destruct Hshape as [[-> ->]|(-> & j & Hj & -> & Hres)].
      * left. auto.
      * right. split; [reflexivity|]. exists (S j). cbn [length].
        split; [lia|]. split; [reflexivity|].
        cbn [advance self device enqueues filter is_enqueue length] in Hres.
        rewrite <- Hres. f_equal. lia.
    + exists [EvEnqueue name g l false], (Returned false).
      split; [reflexivity|]. right. split; [reflexivity|].
      exists 0%nat. cbn [length]. split; [lia|]. split; [reflexivity|].
      rewrite N.add_0_r. exact E.
Qed.

Lemma path_iteration_run g l s :
  exists evs o,
    path_iteration g l s = (o, advance evs s) /\
    ((o = Normal tt /\ evs = round_events g (global_size_shadow_blocked g) l) \/
     (o = Returned false /\
      exists j, (j < 9)%nat /\
        evs = refused_round g (global_size_shadow_blocked g) l j /\
        enqueue_result (device (self s)) (enqueues s + N.of_nat j) = false)).
Proof.
  rewrite path_iteration_enqueue_all. apply enqueue_all_run.
Qed.

Lemma path_iterations_run n task g l c s :
  exists evs o,
    path_iterations n task g l c s = (o, advance evs s) /\
    batch_run g (global_size_shadow_blocked g) l c n evs o /\
    (existsb is_cancel evs = true ->
     exists p, (p < polls (advance evs s))%N /\ cancel_answer task p = true).
Proof.
  revert s. induction n as [|n IH]; intros s.
  - exists [], (Normal c). cbn. rewrite advance_nil.
    split; [reflexivity|]. split; [constructor|discriminate].
  - cbn [path_iterations]. rewrite bind_run.
    destruct (path_iteration_run g l s) as (evs & o & Hrun & Hshape). rewrite Hrun.
    set (sh := global_size_shadow_blocked g) in *.
    destruct Hshape as [[-> ->]|(-> & j & Hj & -> & _)].
    + rewrite bind_run, get_cancel_run, advance_app.
      destruct (cancel_answer task _) eqn:Ec.
      * eexists _, (Normal true). split; [reflexivity|]. split; [constructor|].
        intros _. eexists. split; [|exact Ec]. cbn. lia.
      * destruct (IH (advance (round_events g sh l ++ [EvGetCancel false]) s))
          as (evs' & o' & Hrun' & Hshape' & Hp).
        rewrite Hrun', advance_app, <- app_assoc.
        eexists _, o'. split; [reflexivity|]. cbn [app].
        split; [constructor; exact Hshape'|].
        rewrite !existsb_app. cbn [existsb is_cancel round_events orb].
        replace (round_events g sh l ++ EvGetCancel false :: evs')
          with ((round_events g sh l ++ [EvGetCancel false]) ++ evs')
          by (rewrite <- app_assoc; reflexivity).
        rewrite <- advance_app. exact Hp.
    + eexists _, (Returned false). split; [reflexivity|].
      split; [constructor; exact Hj|].
      unfold refused_round. do 9 (destruct j as [|j]; [discriminate|]). lia.
Qed.

(** A device that accepts everything and a task that is never canceled:
    the batch runs all its passes. *)
Lemma path_iterations_quiet n task g l c s :
  (forall i, enqueue_result (device (self s)) i = true) ->
  (forall i, cancel_answer task i = false) ->
  exists evs,
    path_iterations n task g l c s = (Normal c, advance evs s) /\
    Forall (fun e => is_enqueue e = true \/ e = EvGetCancel false) evs.
Proof.
  intros Hdev Htask. revert s Hdev. induction n as [|n IH]; intros s Hdev.
  - exists []. cbn. rewrite advance_nil. auto.
  - cbn [path_iterations]. rewrite bind_run.
    destruct (path_iteration_run g l s) as (evs & o & Hrun & Hshape). rewrite Hrun.
    destruct Hshape as [[-> ->]|(-> & j & Hj & -> & Hres)].
    + rewrite bind_run, get_cancel_run, advance_app, Htask.
      destruct (IH (advance (round_events g (global_size_shadow_blocked g) l
                              ++ [EvGetCancel false]) s) Hdev)
        as (evs' & Hrun' & Hall).
      rewrite Hrun', advance_app. eexists. split; [reflexivity|].
      apply Forall_app. split; [|exact Hall].
      cbn [round_events app].
      repeat (apply Forall_cons; [first [left; reflexivity|right; reflexivity]|]).
      apply Forall_nil.
    + rewrite Hdev in Hres. discriminate.
Qed.

(** What a batch leaves in the trace. *)
Lemma batch_run_events g sh l c n evs o :
  batch_run g sh l c n evs o ->
  Forall (fun e => is_enqueue e = true /\ is_enqueue_of sum_all_radiance e = false
                   \/ is_poll e = true) evs.
Proof.
  assert (Hround : Forall (fun e => is_enqueue e = true /\
                                    is_enqueue_of sum_all_radiance e = false
                                    \/ is_poll e = true) (round_events g sh l)).
  { repeat constructor. }
  induction 1.
  - constructor.
  - apply Forall_app. split; [exact Hround|].
    constructor; [right; reflexivity|constructor].
  - unfold refused_round.
    do 9 (destruct j as [|j]; [repeat constructor|]). lia.
  - apply Forall_app. split; [exact Hround|]. constructor; [right; reflexivity|assumption].
Qed.

(** Refusals end a batch: every event but the last is accepted, and the
    last is refused exactly when the batch returns [false]. *)
Lemma batch_run_failed g sh l c n evs o :
  batch_run g sh l c n evs o ->
  match o with
  | Returned b =>
      b = false /\ exists pre e, evs = pre ++ [e] /\
        Forall (fun e => failed e = false) pre /\ failed e = true
  | _ => Forall (fun e => failed e = false) evs
  end.
Proof.
  assert (Hround : Forall (fun e => failed e = false) (round_events g sh l)).
  { repeat constructor. }
  induction 1.
  - constructor.
  - apply Forall_app. split; [exact Hround|]. repeat constructor.
  - split; [reflexivity|]. unfold refused_round.
    exists (firstn j (round_events g sh l)).
    do 9 (destruct j as [|j]; [eexists; split; [reflexivity|];
                               split; [repeat constructor|reflexivity]|]).
    lia.
  - destruct o as [a|b|].
    + apply Forall_app. split; [exact Hround|]. constructor; [reflexivity|assumption].
    + destruct IHbatch_run as (-> & pre & e & -> & Hpre & He).
      split; [reflexivity|].
      exists (round_events g sh l ++ EvGetCancel false :: pre), e.
      split; [rewrite <- app_assoc; reflexivity|]. split; [|exact He].
      apply Forall_app. split; [exact Hround|]. constructor; [reflexivity|assumption].
    + apply Forall_app. split; [exact Hround|]. constructor; [reflexivity|assumption].
Qed.

(** Cancellation in a batch: the flag is raised exactly when a poll
    answered yes, and that poll is then the last event. *)
Lemma batch_run_cancel g sh l c n evs o :
  batch_run g sh l c n evs o ->
  match o with
  | Normal c' =>
      c' = c || existsb is_cancel evs /\
      (existsb is_cancel evs = true -> exists pre, evs = pre ++ [EvGetCancel true])
  | _ => existsb is_cancel evs = false
  end.
Proof.
  induction 1.
  - cbn. rewrite orb_false_r. split; [reflexivity|discriminate].
  - split; [cbn; rewrite orb_true_r; reflexivity|]. intros _. eexists. reflexivity.
  - unfold refused_round. do 9 (destruct j as [|j]; [reflexivity|]). lia.
  - rewrite existsb_app. cbn [existsb is_cancel round_events orb].
    destruct o as [c'| |]; try assumption.
    destruct IHbatch_run as [Hc Hlast]. split; [exact Hc|].
    intros Hex. destruct (Hlast Hex) as [pre ->].
    exists (round_events g sh l ++ EvGetCancel false :: pre).
    rewrite <- app_assoc. reflexivity.
Qed.

End Passes.

(** ** The outer loop *)

Section OuterLoop.

Context {K : KernelTypes}.

Lemma sync_check_run g s :
  sync_check g s = (Normal (still_active g s), synced g s).
Proof. reflexivity. Qed.

Lemma host_intervention_run a c st s :
  host_intervention a c st s = (Normal (intervened a c st), retimed a s).
Proof. destruct a; reflexivity. Qed.

Lemma loop_exit fuel task g l st s :
  activeRaysAvailable st = false ->
  path_iteration_loop fuel task g l st s = (Normal st, s).
Proof. intros H. destruct fuel; cbn [path_iteration_loop]; rewrite H; reflexivity. Qed.

Lemma loop_step fuel task g l st s :
  activeRaysAvailable st = true ->
  path_iteration_loop (S fuel) task g l st s =
    match path_iterations (Z.to_nat (path_iteration_times (self s)))
            task g l (canceled st) s with
    | (Normal c, s1) =>
        let a := still_active g s1 in
        let st1 := intervened a c st in
        let s3 := retimed a (synced g s1) in
        let c' := cancel_answer task (polls s3) in
        let s4 := advance [EvGetCancel c'] s3 in
        if c' then (Normal (cancel st1), s4)
        else path_iteration_loop fuel task g l st1 s4
    | (Returned b, s1) => (Returned b, s1)
    | (OutOfFuel, s1) => (OutOfFuel, s1)
    end.
Proof.
  intros H. cbn [path_iteration_loop]. rewrite H. cbn [negb].
  rewrite bind_run. cbn [get]. rewrite bind_run.
  destruct (path_iterations _ _ _ _ _ _) as [[c|b|] s1]; try reflexivity.
  rewrite bind_run, sync_check_run, bind_run, host_intervention_run, bind_run,
    get_cancel_run.
  cbv zeta. destruct (cancel_answer _ _); reflexivity.
Qed.

Lemma loop_out_of_fuel task g l st s :
  activeRaysAvailable st = true ->
  path_iteration_loop O task g l st s = (OutOfFuel, s).
Proof. intros H. cbn. rewrite H. reflexivity. Qed.

(** Fields after the blocks of the loop body. *)
Lemma synced_trace g s :
  trace (synced g s) =
    trace s ++ [EvMemCopyFrom ray_state_mem (to_size_t (dispatch_area g * 1));
                EvScan (still_active g s)].
Proof. cbn. rewrite <- app_assoc. reflexivity. Qed.

Lemma retimed_trace a s : trace (retimed a s) = trace s.
Proof. destruct a; reflexivity. Qed.

Lemma retimed_polls a s : polls (retimed a s) = polls s.
Proof. destruct a; reflexivity. Qed.

Lemma retimed_path_iteration_times a s :
  path_iteration_times (self (retimed a s)) =
    if a then to_unsigned PATH_ITER_INC_FACTOR else path_iteration_times (self s).
Proof. destruct a; reflexivity. Qed.

Lemma events_since_app s s' evs :
  trace s' = trace s ++ evs -> events_since s s' = evs.
Proof.
  intros H. unfold events_since. rewrite H.
  rewrite skipn_app, skipn_all, Nat.sub_diag. reflexivity.
Qed.

(** The trace after one pass of the loop body, from the machine [s1]
    the batch left. *)
Lemma body_trace task g a s1 :
  let s3 := retimed a (synced g s1) in
  trace (advance [EvGetCancel (cancel_answer task (polls s3))] s3) =
    trace s1 ++ [EvMemCopyFrom ray_state_mem (to_size_t (dispatch_area g * 1));
                 EvScan (still_active g s1);
                 EvGetCancel (cancel_answer task (polls s1))].
Proof.
  cbv zeta. cbn [advance trace]. rewrite retimed_trace, retimed_polls, synced_trace.
  rewrite <- app_assoc. reflexivity.
Qed.

Lemma same_pipeline_refl s : same_pipeline s s.
Proof. repeat split. Qed.

Lemma same_pipeline_trans s1 s2 s3 :
  same_pipeline s1 s2 -> same_pipeline s2 s3 -> same_pipeline s1 s3.
Proof.
  unfold same_pipeline. intros (a1 & a2 & a3 & a4 & a5) (b1 & b2 & b3 & b4 & b5).
  repeat split; congruence.
Qed.

Lemma same_pipeline_body task g a evs s :
  let s3 := retimed a (synced g (advance evs s)) in
  same_pipeline s (advance [EvGetCancel (cancel_answer task (polls s3))] s3).
Proof. destruct a; repeat split. Qed.

Lemma batch_in_loop g sh l c n evs o :
  batch_run g sh l c n evs o -> Forall (fun e => in_loop e = true) evs.
Proof.
  intros H. apply batch_run_events in H.
  eapply Forall_impl; [|exact H].
  intros [] [[H1 H2]|H1]; cbn in *; try discriminate; try reflexivity.
  rewrite H2. reflexivity.
Qed.

Lemma refusal_is_final_app {A} (o : completion A) evs1 evs2 :
  Forall (fun e => failed e = false) evs1 ->
  refusal_is_final o evs2 -> refusal_is_final o (evs1 ++ evs2).
Proof.
  intros H1 H2. destruct o as [a|[|]|]; cbn in *.
  - apply Forall_app. auto.
  - apply Forall_app. auto.
  - destruct H2 as (pre & e & -> & Hpre & He).
    exists (evs1 ++ pre), e. rewrite app_assoc. split; [reflexivity|].
    split; [apply Forall_app; auto|exact He].
  - apply Forall_app. auto.
Qed.

Lemma batch_run_final g sh l c n evs o :
  batch_run g sh l c n evs o -> refusal_is_final o evs.
Proof.
  intros H. apply batch_run_failed in H. destruct o as [a|b|]; cbn; try exact H.
  destruct H as (-> & H). exact H.
Qed.

Lemma path_iteration_loop_trace fuel task g l st s :
  exists evs,
    let r := path_iteration_loop fuel task g l st s in
    trace (snd r) = trace s ++ evs /\
    same_pipeline s (snd r) /\
    Forall (fun e => in_loop e = true) evs /\
    refusal_is_final (fst r) evs.
Proof.
  revert st s. induction fuel as [|fuel IH]; intros st s;
    destruct (activeRaysAvailable st) eqn:Hact;
    try (rewrite (loop_exit _ _ _ _ _ _ Hact); exists []; cbn;
         rewrite app_nil_r; repeat split; constructor).
  - rewrite (loop_out_of_fuel _ _ _ _ _ Hact). exists []. cbn.
    rewrite app_nil_r. repeat split; constructor.
  - rewrite (loop_step _ _ _ _ _ _ Hact).
    destruct (path_iterations_run (Z.to_nat (path_iteration_times (self s)))
                task g l (canceled st) s) as (evs & o & Hrun & Hshape & Hpolled).
    rewrite Hrun.
    pose proof (batch_in_loop _ _ _ _ _ _ _ Hshape) as Hin.
    pose proof (batch_run_final _ _ _ _ _ _ _ Hshape) as Hfail.
    destruct o as [c|b|].
    + cbv zeta.
      set (a := still_active g (advance evs s)).
      set (s3 := retimed a (synced g (advance evs s))).
      pose proof (body_trace task g a (advance evs s)) as Htr.
      fold s3 in Htr. cbv zeta in Htr.
      pose proof (same_pipeline_body task g a evs s) as Hsame.
      fold s3 in Hsame. cbv zeta in Hsame.
      set (s4 := advance [EvGetCancel (cancel_answer task (polls s3))] s3) in *.
      set (body := [EvMemCopyFrom ray_state_mem (to_size_t (dispatch_area g * 1));
                    EvScan (still_active g (advance evs s));
                    EvGetCancel (cancel_answer task (polls (advance evs s)))]) in *.
      assert (Hbody : Forall (fun e => in_loop e = true) body /\
                      Forall (fun e => failed e = false) body).
      { split; repeat constructor. }
      destruct Hbody as [Hb1 Hb2].
      destruct (cancel_answer task (polls s3)) eqn:Ec.
      * exists (evs ++ body). cbn [fst snd]. rewrite Htr. cbn [advance trace].
        rewrite <- app_assoc. split; [reflexivity|]. split; [exact Hsame|].
        split; apply Forall_app; auto.
      * destruct (IH (intervened a c st) s4) as (evs' & Htr' & Hsame' & Hin' & Hfail').
        cbv zeta in *.
        exists (evs ++ body ++ evs'). rewrite Htr', Htr. cbn [advance trace].
        rewrite <- !app_assoc. split; [reflexivity|].
        split; [eapply same_pipeline_trans; eassumption|].
        split; [repeat (apply Forall_app; split); assumption|].
        apply refusal_is_final_app; [exact Hfail|].
        apply refusal_is_final_app; assumption.
    + exists evs. cbn [fst snd advance trace]. split; [reflexivity|].
      split; [repeat split|]. split; assumption.
    + exists evs. cbn [fst snd advance trace]. split; [reflexivity|].
      split; [repeat split|]. split; assumption.
Qed.

Lemma host_interventions_app evs1 evs2 :
  host_interventions (evs1 ++ evs2) = host_interventions evs1 + host_interventions evs2.
Proof.
  unfold host_interventions. rewrite filter_app, length_app. lia.
Qed.

Lemma host_interventions_nonneg evs : 0 <= host_interventions evs.
Proof. unfold host_interventions. lia. Qed.

Lemma batch_no_intervention g sh l c n evs o :
  batch_run g sh l c n evs o -> host_interventions evs = 0.
Proof.
  intros H. apply batch_run_events in H. unfold host_interventions.
  induction H as [|e evs He _ IH]; [reflexivity|].
  cbn [filter]. destruct e; cbn in *; try assumption;
    destruct He as [[? ?]|?]; discriminate.
Qed.

Lemma advance_inj evs1 evs2 s : advance evs1 s = advance evs2 s -> evs1 = evs2.
Proof.
  intros H. apply (f_equal trace) in H. cbn in H.
  eapply app_inv_head. exact H.
Qed.

Lemma to_unsigned_add_l a b : to_unsigned (to_unsigned a + b) = to_unsigned (a + b).
Proof. unfold to_unsigned. apply Z.add_mod_idemp_l. lia. Qed.

Lemma path_iteration_loop_budget fuel task g l st s :
  0 <= numHostIntervention st < 2 ^ 32 ->
  0 <= numNextPathIterTimes st < 2 ^ 32 ->
  let r := path_iteration_loop fuel task g l st s in
  let k := host_interventions (events_since s (snd r)) in
  path_iteration_times (self (snd r)) =
    (if k =? 0 then path_iteration_times (self s)
     else to_unsigned PATH_ITER_INC_FACTOR) /\
  match fst r with
  | Normal st' =>
      numHostIntervention st' = to_unsigned (numHostIntervention st + k) /\
      numNextPathIterTimes st' =
        to_unsigned (numNextPathIterTimes st + k * PATH_ITER_INC_FACTOR)
  | _ => True
  end.
Proof.
  revert st s. induction fuel as [|fuel IH]; intros st s Hh Hn;
    destruct (activeRaysAvailable st) eqn:Hact;
    try (rewrite (loop_exit _ _ _ _ _ _ Hact); cbn [fst snd];
         rewrite (events_since_app s s []) by (rewrite app_nil_r; reflexivity);
         cbn; rewrite !Z.add_0_r, !to_unsigned_small by lia; auto).
  - rewrite (loop_out_of_fuel _ _ _ _ _ Hact). cbn [fst snd].
    rewrite (events_since_app s s []) by (rewrite app_nil_r; reflexivity).
    cbn. auto.
  - rewrite (loop_step _ _ _ _ _ _ Hact).
    destruct (path_iterations_run (Z.to_nat (path_iteration_times (self s)))
                task g l (canceled st) s) as (evs & o & Hrun & Hshape & Hpolled).
    rewrite Hrun.
    pose proof (batch_no_intervention _ _ _ _ _ _ _ Hshape) as Hk.
    destruct o as [c|b|].
    + cbv zeta.
      set (a := still_active g (advance evs s)).
      set (s3 := retimed a (synced g (advance evs s))).
      pose proof (body_trace task g a (advance evs s)) as Htr.
      fold s3 in Htr. cbv zeta in Htr.
      assert (Hpit : path_iteration_times (self s3) =
                     if a then to_unsigned PATH_ITER_INC_FACTOR
                     else path_iteration_times (self s)).
      { subst s3. rewrite retimed_path_iteration_times. reflexivity. }
      set (s4 := advance [EvGetCancel (cancel_answer task (polls s3))] s3) in *.
      assert (Hpit4 : path_iteration_times (self s4) = path_iteration_times (self s3))
        by reflexivity.
      set (body := [EvMemCopyFrom ray_state_mem (to_size_t (dispatch_area g * 1));
                    EvScan (still_active g (advance evs s));
                    EvGetCancel (cancel_answer task (polls (advance evs s)))]) in *.
      assert (Hkb : host_interventions body = if a then 1 else 0).
      { subst body. fold a. destruct a; reflexivity. }
      cbn [advance trace] in Htr.
      destruct (cancel_answer task (polls s3)) eqn:Ec.
      * cbn [fst snd].
        rewrite (events_since_app s s4 (evs ++ body))
          by (rewrite Htr, <- app_assoc; reflexivity).
        rewrite host_interventions_app, Hk, Hkb, Hpit4, Hpit.
        destruct a; cbn [cancel intervened numHostIntervention numNextPathIterTimes].
        -- split; [reflexivity|]. split; f_equal; lia.
        -- replace (0 + 0) with 0 by lia. cbn [Z.eqb Z.mul].
           rewrite !Z.add_0_r, !to_unsigned_small by lia. auto.
      * destruct (path_iteration_loop_trace fuel task g l (intervened a c st) s4)
          as (evs' & Htr' & _). cbv zeta in Htr'.
        assert (Hst1 : 0 <= numHostIntervention (intervened a c st) < 2 ^ 32 /\
                       0 <= numNextPathIterTimes (intervened a c st) < 2 ^ 32).
        { destruct a; cbn; auto using to_unsigned_range. }
        destruct Hst1 as [Hh1 Hn1].
        specialize (IH (intervened a c st) s4 Hh1 Hn1). cbv zeta in IH.
        rewrite (events_since_app s4 _ evs') in IH by exact Htr'.
        rewrite (events_since_app s _ (evs ++ body ++ evs'))
          by (rewrite Htr', Htr, <- !app_assoc; reflexivity).
        rewrite !host_interventions_app, Hk, Hkb.
        pose proof (host_interventions_nonneg evs') as Hk'.
        destruct IH as [IHp IHl]. rewrite IHp, Hpit4, Hpit.
        destruct a.
        -- split.
           ++ destruct (Z.eqb_spec (0 + (1 + host_interventions evs')) 0); [lia|].
              destruct (host_interventions evs' =? 0); reflexivity.
           ++ destruct (fst (path_iteration_loop fuel task g l _ s4)); auto.
              destruct IHl as [-> ->]. cbn [intervened numHostIntervention
                                              numNextPathIterTimes].
              rewrite !to_unsigned_add_l. split; f_equal; lia.
        -- replace (0 + (0 + host_interventions evs')) with (host_interventions evs')
             by lia.
           split; [destruct (host_interventions evs' =? 0); reflexivity|].
           destruct (fst (path_iteration_loop fuel task g l _ s4)); auto.
    + cbn [fst snd].
      rewrite (events_since_app s _ evs) by reflexivity.
      rewrite Hk. cbn. auto.
    + cbn [fst snd].
      rewrite (events_since_app s _ evs) by reflexivity.
      rewrite Hk. cbn. auto.
Qed.

Lemma dispatch_area_range g : 0 <= dispatch_area g < 2 ^ 64.
Proof. apply to_size_t_range. Qed.

Lemma copy_size g : to_size_t (dispatch_area g * 1) = dispatch_area g.
Proof. rewrite Z.mul_1_r. apply to_size_t_small, dispatch_area_range. Qed.

Lemma synced_ray_state g s :
  ray_state (self (synced g s)) =
    lanes_on_device (device (self s)) (read_backs s) (Z.to_nat (dispatch_area g))
    ++ skipn (Z.to_nat (dispatch_area g)) (ray_state (self s)).
Proof. cbn. rewrite copy_size. reflexivity. Qed.

Lemma path_iteration_loop_cancel fuel task g l st s :
  let r := path_iteration_loop fuel task g l st s in
  let evs := events_since s (snd r) in
  match fst r with
  | Normal st' =>
      canceled st' = canceled st || existsb is_cancel evs /\
      (canceled st' = false -> activeRaysAvailable st = true ->
       exists r0 rest,
         read_backs (snd r) = N.succ r0 /\
         ray_state (self (snd r)) =
           lanes_on_device (device (self s)) r0 (Z.to_nat (dispatch_area g)) ++ rest /\
         scan_ray_state (Z.to_nat (dispatch_area g)) (ray_state (self (snd r))) = false)
  | _ => sticky task -> canceled st = false -> existsb is_cancel evs = false
  end.
Proof.
  revert st s. induction fuel as [|fuel IH]; intros st s;
    destruct (activeRaysAvailable st) eqn:Hact;
    try (rewrite (loop_exit _ _ _ _ _ _ Hact); cbn [fst snd];
         rewrite (events_since_app s s []) by (rewrite app_nil_r; reflexivity);
         cbn [existsb]; rewrite orb_false_r; split; [reflexivity|discriminate]).
  - rewrite (loop_out_of_fuel _ _ _ _ _ Hact). cbn [fst snd].
    rewrite (events_since_app s s []) by (rewrite app_nil_r; reflexivity).
    reflexivity.
  - rewrite (loop_step _ _ _ _ _ _ Hact).
    destruct (path_iterations_run (Z.to_nat (path_iteration_times (self s)))
                task g l (canceled st) s) as (evs & o & Hrun & Hshape & Hpolled).
    rewrite Hrun.
    pose proof (batch_run_cancel _ _ _ _ _ _ _ Hshape) as Hc.
    destruct o as [c|b|].
    + destruct Hc as [Hc _]. cbv zeta.
      set (s1 := advance evs s) in *.
      set (a := still_active g s1).
      set (s3 := retimed a (synced g s1)).
      pose proof (body_trace task g a s1) as Htr.
      fold s3 in Htr. cbv zeta in Htr.
      assert (Hp3 : polls s3 = polls s1).
      { subst s3. rewrite retimed_polls. reflexivity. }
      assert (Hrs : ray_state (self s3) = ray_state (self (synced g s1))).
      { subst s3. destruct a; reflexivity. }
      assert (Hrb : read_backs s3 = N.succ (read_backs s)).
      { subst s3. destruct a; reflexivity. }
      assert (Hdev : device (self s3) = device (self s)).
      { subst s3. destruct a; reflexivity. }
      set (s4 := advance [EvGetCancel (cancel_answer task (polls s3))] s3) in *.
      set (body := [EvMemCopyFrom ray_state_mem (to_size_t (dispatch_area g * 1));
                    EvScan (still_active g s1);
                    EvGetCancel (cancel_answer task (polls s1))]) in *.
      cbn [advance trace] in Htr. subst s1. cbn [advance trace] in Htr.
      set (s1 := advance evs s) in *.
      destruct (cancel_answer task (polls s3)) eqn:Ec.
      * cbn [fst snd].
        rewrite (events_since_app s s4 (evs ++ body))
          by (rewrite Htr, <- app_assoc; reflexivity).
        rewrite existsb_app. subst body. rewrite <- Hp3, Ec.
        cbn. rewrite !orb_true_r. split; [reflexivity|discriminate].
      * destruct (path_iteration_loop_trace fuel task g l (intervened a c st) s4)
          as (evs' & Htr' & _). cbv zeta in Htr'.
        specialize (IH (intervened a c st) s4). cbv zeta in IH.
        rewrite (events_since_app s4 _ evs') in IH by exact Htr'.
        rewrite (events_since_app s _ (evs ++ body ++ evs'))
          by (rewrite Htr', Htr, <- !app_assoc; reflexivity).
        assert (Hbody : existsb is_cancel body = false).
        { subst body. rewrite <- Hp3, Ec. reflexivity. }
        rewrite !existsb_app, Hbody. cbn [orb].
        assert (Hc1 : canceled (intervened a c st) = c) by (destruct a; reflexivity).
        destruct (fst (path_iteration_loop fuel task g l (intervened a c st) s4))
          as [st'|b|] eqn:Hres.
        -- destruct IH as [IHc IHs].
           split; [rewrite IHc, Hc1, Hc, orb_assoc; reflexivity|]. intros Hnc _.
           destruct a eqn:Ea.
           ++ destruct (IHs Hnc eq_refl) as (r0 & rest & H1 & H2 & H3).
              exists r0, rest.
              change (device (self s4)) with (device (self s3)) in H2.
              rewrite Hdev in H2. auto.
           ++ rewrite (loop_exit fuel task g l (intervened false c st) s4 eq_refl)
                in Hres |- *.
              cbn [snd]. exists (read_backs s), (skipn (Z.to_nat (dispatch_area g))
                                                   (ray_state (self s))).
              change (read_backs s4) with (read_backs s3).
              change (self s4) with (self s3).
              rewrite Hrb, Hrs.
              split; [reflexivity|].
              split; [rewrite synced_ray_state; reflexivity|].
              exact Ea.
        -- intros Hst Hcan.
           assert (Hq : existsb is_cancel evs = false).
           { destruct (existsb is_cancel evs) eqn:E; [|reflexivity].
             destruct (Hpolled eq_refl) as (p & Hp & Hans).
             fold s1 in Hp. rewrite <- Hp3 in Hp.
             rewrite (Hst p (polls s3)) in Ec by (try lia; exact Hans).
             discriminate. }
           rewrite Hq. cbn [orb]. apply IH; [exact Hst|].
           rewrite Hc1, Hc, Hcan, Hq. reflexivity.
        -- intros Hst Hcan.
           assert (Hq : existsb is_cancel evs = false).
           { destruct (existsb is_cancel evs) eqn:E; [|reflexivity].
             destruct (Hpolled eq_refl) as (p & Hp & Hans).
             fold s1 in Hp. rewrite <- Hp3 in Hp.
             rewrite (Hst p (polls s3)) in Ec by (try lia; exact Hans).
             discriminate. }
           rewrite Hq. cbn [orb]. apply IH; [exact Hst|].
           rewrite Hc1, Hc, Hcan, Hq. reflexivity.
    + cbn [fst snd]. rewrite (events_since_app s _ evs) by reflexivity. auto.
    + cbn [fst snd]. rewrite (events_since_app s _ evs) by reflexivity. auto.
Qed.

End OuterLoop.

(** ** A call of [path_trace] *)

Section Tile.

Context {K : KernelTypes}.

Lemma prepared_trace m p s :
  trace (prepared m p s) =
    trace s ++ (if first_tile (self s) then allocation_events m p (self s) else []).
Proof.
  unfold prepared, allocation_events, allocate_global_memory.
  destruct (first_tile (self s)); [|rewrite app_nil_r; reflexivity].
  destruct dispatch_strategy; cbn; rewrite <- !app_assoc; reflexivity.
Qed.

Lemma prepared_fields m p s :
  device (self (prepared m p s)) = device (self s) /\
  kernel_handle (self (prepared m p s)) = kernel_handle (self s) /\
  current_max_closure (self (prepared m p s)) = current_max_closure (self s) /\
  first_tile (self (prepared m p s)) = first_tile (self s) /\
  path_iteration_times (self (prepared m p s)) = path_iteration_times (self s) /\
  data_inits (prepared m p s) = data_inits s.
Proof.
  unfold prepared, allocate_global_memory.
  destruct (first_tile (self s)) eqn:E; [|rewrite ?E; repeat split].
  destruct dispatch_strategy; cbn; rewrite ?E; repeat split.
Qed.

Lemma path_trace_body_run fuel task rtile m p s :
  path_trace_body fuel task rtile m p s =
    let g := global_size dispatch_strategy rtile m in
    let s2 := initialised rtile m p s in
    if negb (data_init_result (device (self s)) (data_inits s))
    then (Returned false, s2)
    else
      match path_iteration_loop fuel task g local_size (initial_locals s) s2 with
      | (Normal l, s3) =>
          if negb (canceled l) then
            if enqueue_result (device (self s3)) (enqueues s3)
            then (Normal l,
                  finished l
                    (advance [EvEnqueue sum_all_radiance
                                (sum_all_radiance_global_size rtile) (16, 16) true] s3))
            else (Returned false,
                  advance [EvEnqueue sum_all_radiance
                             (sum_all_radiance_global_size rtile) (16, 16) false] s3)
          else (Normal l, finished l s3)
      | (Returned b, s3) => (Returned b, s3)
      | (OutOfFuel, s3) => (OutOfFuel, s3)
      end.
Proof.
  destruct (prepared_fields m p s) as (Hd & _ & _ & _ & Hp & Hi).
  unfold path_trace_body. cbv zeta.
  rewrite bind_run. cbn [get]. rewrite bind_run.
  assert (Hprep : (if first_tile (self s) then allocate_global_memory m p else ret tt) s
                  = (Normal tt, prepared m p s)).
  { unfold prepared. destruct (first_tile (self s)); [|reflexivity].
    unfold allocate_global_memory. destruct dispatch_strategy; reflexivity. }
  rewrite Hprep, bind_run.
  change (enqueue_split_kernel_data_init (global_size dispatch_strategy rtile m)
            local_size (num_global_elements m)
            (num_parallel_samples dispatch_strategy rtile m) (prepared m p s))
    with (Normal (data_init_result (device (self (prepared m p s)))
                    (data_inits (prepared m p s))),
          initialised rtile m p s).
  rewrite Hd, Hi.
  destruct (data_init_result (device (self s)) (data_inits s)); cbn [negb];
    [|reflexivity].
  rewrite bind_run. cbn [ret]. rewrite bind_run. cbn [get]. rewrite bind_run.
  change (path_iteration_times (self (initialised rtile m p s)))
    with (path_iteration_times (self (prepared m p s))).
  rewrite Hp. fold (initial_locals s).
  destruct (path_iteration_loop _ _ _ _ _ _) as [[l|b|] s3]; try reflexivity.
  rewrite bind_run.
  destruct (canceled l); cbn [negb]; [reflexivity|].
  rewrite ENQUEUE_SPLIT_KERNEL_run.
  destruct (enqueue_result _ _); reflexivity.
Qed.

Lemma initialised_trace rtile m p s :
  trace (initialised rtile m p s) = trace s ++ prologue rtile m p s.
Proof.
  destruct (prepared_fields m p s) as (Hd & _ & _ & _ & _ & Hi).
  unfold initialised, prologue, enqueue_split_kernel_data_init. cbn [snd trace].
  rewrite prepared_trace, Hd, Hi, <- app_assoc. reflexivity.
Qed.

Lemma initialised_fields rtile m p s :
  device (self (initialised rtile m p s)) = device (self s) /\
  kernel_handle (self (initialised rtile m p s)) = kernel_handle (self s) /\
  current_max_closure (self (initialised rtile m p s)) = current_max_closure (self s) /\
  first_tile (self (initialised rtile m p s)) = first_tile (self s) /\
  path_iteration_times (self (initialised rtile m p s)) = path_iteration_times (self s).
Proof.
  destruct (prepared_fields m p s) as (H1 & H2 & H3 & H4 & H5 & _).
  unfold initialised, enqueue_split_kernel_data_init. cbn [snd self]. auto.
Qed.

Lemma prologue_events rtile m p s :
  host_interventions (prologue rtile m p s) = 0 /\
  existsb is_cancel (prologue rtile m p s) = false /\
  Forall (fun e => is_free e = false) (prologue rtile m p s) /\
  Forall (fun e => is_enqueue_of sum_all_radiance e = false) (prologue rtile m p s).
Proof.
  unfold prologue, allocation_events.
  destruct (first_tile (self s)); destruct dispatch_strategy; cbn;
    repeat split; repeat constructor.
Qed.

Lemma prologue_final rtile m p s :
  if data_init_result (device (self s)) (data_inits s)
  then Forall (fun e => failed e = false) (prologue rtile m p s)
  else exists pre e, prologue rtile m p s = pre ++ [e] /\
         Forall (fun e => failed e = false) pre /\ failed e = true.
Proof.
  unfold prologue.
  assert (Ha : Forall (fun e => failed e = false)
                 (if first_tile (self s) then allocation_events m p (self s) else [])).
  { unfold allocation_events.
    destruct (first_tile (self s)); destruct dispatch_strategy; repeat constructor. }
  destruct (data_init_result _ _).
  - apply Forall_app. split; [exact Ha|]. repeat constructor.
  - eexists _, _. split; [reflexivity|]. split; [exact Ha|reflexivity].
Qed.

Lemma in_loop_events evs :
  Forall (fun e => in_loop e = true) evs ->
  Forall (fun e => is_free e = false) evs /\
  Forall (fun e => is_enqueue_of sum_all_radiance e = false) evs /\
  Forall (fun e => is_alloc e = false) evs.
Proof.
  induction 1 as [|e evs He _ (IH1 & IH2 & IH3)]; [repeat constructor|].
  repeat split; constructor; try assumption; destruct e; cbn in *;
    try reflexivity; try discriminate.
  destruct (kernel_eqb k sum_all_radiance); [discriminate|reflexivity].
Qed.

(** The shape of a call of [path_trace]: the prologue, the events of the
    outer loop and, when the loop ended without cancellation, the
    reduction stage; with what the call leaves in the scheduler. *)
Lemma path_trace_body_events fuel task rtile m p s :
  let r := path_trace_body fuel task rtile m p s in
  exists loop_evs tail,
    let k := host_interventions loop_evs in
    trace (snd r) = trace s ++ prologue rtile m p s ++ loop_evs ++ tail /\
    Forall (fun e => in_loop e = true) loop_evs /\
    (tail = [] \/
     exists ok, tail = [reduction rtile ok] /\ existsb is_cancel loop_evs = false) /\
    refusal_is_final (fst r) (prologue rtile m p s ++ loop_evs ++ tail) /\
    device (self (snd r)) = device (self s) /\
    kernel_handle (self (snd r)) = kernel_handle (self s) /\
    current_max_closure (self (snd r)) = current_max_closure (self s) /\
    match fst r with
    | Normal l =>
        numHostIntervention l = to_unsigned k /\
        numNextPathIterTimes l =
          to_unsigned (to_unsigned (path_iteration_times (self s))
                       + k * PATH_ITER_INC_FACTOR) /\
        canceled l = existsb is_cancel loop_evs /\
        (canceled l = true -> tail = []) /\
        path_iteration_times (self (snd r)) = next_path_iteration_times l /\
        first_tile (self (snd r)) = false
    | _ =>
        path_iteration_times (self (snd r)) =
          (if k =? 0 then path_iteration_times (self s)
           else to_unsigned PATH_ITER_INC_FACTOR) /\
        first_tile (self (snd r)) = first_tile (self s) /\
        (sticky task -> existsb is_cancel loop_evs = false)
    end.
Proof.
  cbv zeta. rewrite path_trace_body_run. cbv zeta.
  destruct (initialised_fields rtile m p s) as (Hd & Hk & Hc & Hf & Hp).
  pose proof (initialised_trace rtile m p s) as Htr.
  pose proof (prologue_final rtile m p s) as Hpro.
  set (s2 := initialised rtile m p s) in *.
  destruct (data_init_result (device (self s)) (data_inits s)) eqn:Eok; cbn [negb].
  2:{ exists [], []. cbn [fst snd]. rewrite !app_nil_r.
      split; [exact Htr|]. split; [constructor|]. split; [left; reflexivity|].
      split; [exact Hpro|]. repeat split; auto. }
  cbn iota in Hpro.
  set (g := global_size dispatch_strategy rtile m).
  destruct (path_iteration_loop_trace fuel task g local_size (initial_locals s) s2)
    as (evs & Htr3 & Hsame & Hin & Hfin). cbv zeta in *.
  assert (Hrange : 0 <= numHostIntervention (initial_locals s) < 2 ^ 32 /\
                   0 <= numNextPathIterTimes (initial_locals s) < 2 ^ 32).
  { cbn. split; [lia|apply to_unsigned_range]. }
  destruct Hrange as [Hr1 Hr2].
  pose proof (path_iteration_loop_budget fuel task g local_size
                (initial_locals s) s2 Hr1 Hr2) as Hbud.
  pose proof (path_iteration_loop_cancel fuel task g local_size
                (initial_locals s) s2) as Hcan.
  cbv zeta in Hbud, Hcan.
  rewrite (events_since_app s2 _ evs) in Hbud, Hcan by exact Htr3.
  destruct Hsame as (Sd & Sk & Sc & Sf & _).
  assert (Hclean : forall tail,
            Forall (fun e => failed e = false) evs ->
            Forall (fun e => failed e = false) tail ->
            Forall (fun e => failed e = false) (prologue rtile m p s ++ evs ++ tail)).
  { intros tail H1 H2. apply Forall_app. split; [exact Hpro|].
    apply Forall_app. split; assumption. }
  destruct (path_iteration_loop fuel task g local_size (initial_locals s) s2)
    as [[l|b|] s3]; cbn [fst snd] in *; unfold refusal_is_final in Hfin.
  - destruct Hbud as (Hpit & Hnh & Hnn). destruct Hcan as (Hcl & _).
    cbn [initial_locals canceled numHostIntervention numNextPathIterTimes orb]
      in Hnh, Hnn, Hcl.
    rewrite Z.add_0_l in Hnh.
    assert (Hfields : forall s', self s' = self s3 ->
              device (self (finished l s')) = device (self s) /\
              kernel_handle (self (finished l s')) = kernel_handle (self s) /\
              current_max_closure (self (finished l s')) = current_max_closure (self s) /\
              path_iteration_times (self (finished l s')) = next_path_iteration_times l /\
              first_tile (self (finished l s')) = false).
    { intros s' E. unfold finished. cbn. rewrite E. repeat split; congruence. }
    destruct (canceled l) eqn:El; cbn [negb].
    + exists evs, []. cbn [fst snd]. rewrite app_nil_r.
      destruct (Hfields s3 eq_refl) as (F1 & F2 & F3 & F4 & F5).
      split; [rewrite app_assoc, <- Htr; exact Htr3|].
      split; [exact Hin|]. split; [left; reflexivity|].
      split; [apply Forall_app; split; assumption|].
      repeat split; try assumption; try congruence; auto.
    + destruct (enqueue_result (device (self s3)) (enqueues s3)) eqn:Eq.
      * exists evs, [reduction rtile true]. cbn [fst snd].
        destruct (Hfields (advance [reduction rtile true] s3) eq_refl)
          as (F1 & F2 & F3 & F4 & F5).
        split; [cbn; rewrite Htr3, Htr, <- !app_assoc; reflexivity|].
        split; [exact Hin|].
        split; [right; exists true; split; [reflexivity|congruence]|].
        split; [apply Hclean; [assumption|repeat constructor]|].
        repeat split; try assumption; try congruence.
      * exists evs, [reduction rtile false]. cbn [fst snd].
        split; [cbn; rewrite Htr3, Htr, <- !app_assoc; reflexivity|].
        split; [exact Hin|].
        split; [right; exists false; split; [reflexivity|congruence]|].
        split.
        { exists (prologue rtile m p s ++ evs), (reduction rtile false).
          rewrite <- app_assoc. split; [reflexivity|].
          split; [apply Forall_app; split; assumption|reflexivity]. }
        cbn [advance self]. rewrite Hpit.
        repeat split; try congruence. rewrite Hp. reflexivity.
  - exists evs, []. cbn [fst snd]. rewrite app_nil_r.
    split; [rewrite app_assoc, <- Htr; exact Htr3|].
    split; [exact Hin|]. split; [left; reflexivity|].
    split.
    { destruct b; [apply Forall_app; split; assumption|].
      apply refusal_is_final_app with (o := @Returned unit false); assumption. }
    destruct Hbud as (Hpit & _). rewrite Hpit, Hp.
    repeat split; try congruence. intros Hst. apply Hcan; [exact Hst|reflexivity].
  - exists evs, []. cbn [fst snd]. rewrite app_nil_r.
    split; [rewrite app_assoc, <- Htr; exact Htr3|].
    split; [exact Hin|]. split; [left; reflexivity|].
    split; [apply Forall_app; split; assumption|].
    destruct Hbud as (Hpit & _). rewrite Hpit, Hp.
    repeat split; try congruence. intros Hst. apply Hcan; [exact Hst|reflexivity].
Qed.

Lemma path_iteration_loop_returns fuel task g l st s :
  fst (path_iteration_loop fuel task g l st s) <> Returned true.
Proof.
  revert st s. induction fuel as [|fuel IH]; intros st s;
    destruct (activeRaysAvailable st) eqn:Hact;
    try (rewrite (loop_exit _ _ _ _ _ _ Hact); discriminate).
  - rewrite (loop_out_of_fuel _ _ _ _ _ Hact). discriminate.
  - rewrite (loop_step _ _ _ _ _ _ Hact).
    destruct (path_iterations_run (Z.to_nat (path_iteration_times (self s)))
                task g l (canceled st) s) as (evs & o & Hrun & Hshape & _).
    rewrite Hrun. apply batch_run_failed in Hshape.
    destruct o as [c|b|]; cbv zeta.
    + destruct (cancel_answer task _); [discriminate|apply IH].
    + destruct Hshape as [-> _]. discriminate.
    + discriminate.
Qed.

Lemma path_trace_body_returns fuel task rtile m p s :
  fst (path_trace_body fuel task rtile m p s) <> Returned true.
Proof.
  rewrite path_trace_body_run. cbv zeta.
  destruct (data_init_result _ _); cbn [negb]; [|discriminate].
  pose proof (path_iteration_loop_returns fuel task
                (global_size dispatch_strategy rtile m) local_size
                (initial_locals s) (initialised rtile m p s)) as H.
  destruct (path_iteration_loop _ _ _ _ _ _) as [[l|b|] s3]; cbn [fst] in *.
  - destruct (canceled l); cbn [negb]; [discriminate|].
    destruct (enqueue_result _ _); discriminate.
  - exact H.
  - discriminate.
Qed.

Lemma path_trace_run fuel task rtile m p s :
  path_trace fuel task rtile m p s =
    match path_trace_body fuel task rtile m p s with
    | (Normal _, s') => (Returned true, s')
    | (Returned b, s') => (Returned b, s')
    | (OutOfFuel, s') => (OutOfFuel, s')
    end.
Proof. reflexivity. Qed.

Lemma path_trace_machine fuel task rtile m p s :
  snd (path_trace fuel task rtile m p s) = snd (path_trace_body fuel task rtile m p s).
Proof.
  rewrite path_trace_run. destruct (path_trace_body _ _ _ _ _ _) as [[l|b|] s']; reflexivity.
Qed.

(** [path_trace] returns [true] exactly when its body runs to its end. *)
Lemma path_trace_returns_true fuel task rtile m p s :
  fst (path_trace fuel task rtile m p s) = Returned true <->
  exists l, fst (path_trace_body fuel task rtile m p s) = Normal l.
Proof.
  rewrite path_trace_run.
  pose proof (path_trace_body_returns fuel task rtile m p s) as H.
  destruct (path_trace_body _ _ _ _ _ _) as [[l|b|] s']; cbn [fst] in *.
  - split; eauto.
  - split; [intros E; destruct b; [contradiction|discriminate]|intros [l E]; discriminate].
  - split; [discriminate|intros [l E]; discriminate].
Qed.

Lemma path_trace_returns_false fuel task rtile m p s :
  fst (path_trace fuel task rtile m p s) = Returned false <->
  fst (path_trace_body fuel task rtile m p s) = Returned false.
Proof.
  rewrite path_trace_run.
  destruct (path_trace_body _ _ _ _ _ _) as [[l|b|] s']; cbn [fst];
    split; congruence.
Qed.

Lemma host_interventions_in_loop rtile m p s loop_evs tail :
  (tail = [] \/
   exists ok, tail = [reduction rtile ok] /\ existsb is_cancel loop_evs = false) ->
  host_interventions (prologue rtile m p s ++ loop_evs ++ tail) =
    host_interventions loop_evs /\
  existsb is_cancel (prologue rtile m p s ++ loop_evs ++ tail) =
    existsb is_cancel loop_evs.
Proof.
  intros Htail.
  destruct (prologue_events rtile m p s) as (H1 & H2 & _).
  rewrite !host_interventions_app, !existsb_app, H1, H2.
  destruct Htail as [->|(ok & -> & _)]; cbn; rewrite ?orb_false_r; split; try lia;
    reflexivity.
Qed.

(** The budget a call leaves, in machine arithmetic. *)
Lemma path_trace_body_budget fuel task rtile m p s :
  let r := path_trace_body fuel task rtile m p s in
  let k := host_interventions (events_since s (snd r)) in
  match fst r with
  | Normal l =>
      numHostIntervention l = to_unsigned k /\
      numNextPathIterTimes l =
        to_unsigned (to_unsigned (path_iteration_times (self s))
                     + k * PATH_ITER_INC_FACTOR) /\
      path_iteration_times (self (snd r)) = next_path_iteration_times l
  | _ =>
      path_iteration_times (self (snd r)) =
        (if k =? 0 then path_iteration_times (self s)
         else to_unsigned PATH_ITER_INC_FACTOR)
  end.
Proof.
  cbv zeta.
  destruct (path_trace_body_events fuel task rtile m p s)
    as (loop_evs & tail & Htr & _ & Htail & _ & _ & _ & _ & Hres).
  cbv zeta in *.
  rewrite (events_since_app s _ _ Htr).
  destruct (host_interventions_in_loop rtile m p s loop_evs tail Htail) as [-> _].
  destruct (fst (path_trace_body fuel task rtile m p s)).
  - destruct Hres as (H1 & H2 & _ & _ & H3 & _). auto.
  - destruct Hres as (H1 & _). exact H1.
  - destruct Hres as (H1 & _). exact H1.
Qed.

End Tile.

(** ** The scheduler *)

Section Scheduling.

Context {K : KernelTypes}.


Lemma scan_ray_state_false n data :
  scan_ray_state n data = false ->
  forall i, (i < n)%nat -> (i < length data)%nat ->
    int8_t (nth i data 0) = RAY_INACTIVE.
Proof.
  revert data. induction n as [|n IH]; intros data Hscan i Hi Hlen; [lia|].
  destruct data as [|c rest]; [cbn in Hlen; lia|].
  cbn [scan_ray_state] in Hscan.
  destruct (Z.eqb_spec (int8_t c) RAY_INACTIVE) as [E|E]; cbn [negb] in Hscan;
    [|discriminate].
  destruct i as [|i]; [exact E|].
  cbn [nth]. apply IH; [exact Hscan|lia|cbn in Hlen; lia].
Qed.

Lemma lanes_on_device_length dev r n : length (lanes_on_device dev r n) = n.
Proof. unfold lanes_on_device. rewrite length_map, length_seq. reflexivity. Qed.

Lemma lanes_on_device_nth dev r n i :
  (i < n)%nat ->
  nth i (lanes_on_device dev r n) 0 = ray_state_on_device dev r (Z.of_nat i).
Proof.
  intros Hi. unfold lanes_on_device.
  rewrite (nth_indep _ 0 ((fun j => ray_state_on_device dev r (Z.of_nat j)) O))
    by (rewrite length_map, length_seq; exact Hi).
  rewrite (map_nth (fun j => ray_state_on_device dev r (Z.of_nat j))).
  rewrite seq_nth by exact Hi. reflexivity.
Qed.

(** C4. When the outer loop ends and no poll has found the task
    canceled, the last read-back found every lane of the dispatch area
    with a state byte equal to [RAY_INACTIVE], and the host copy of
    [ray_state] holds these bytes. *)
Theorem lanes_inactive_when_loop_ends fuel task g l st s st' s' :
  path_iteration_loop fuel task g l st s = (Normal st', s') ->
  activeRaysAvailable st = true ->
  canceled st = false ->
  existsb is_cancel (events_since s s') = false ->
  exists r0,
    read_backs s' = N.succ r0 /\
    forall i, 0 <= i < dispatch_area g ->
      let c := ray_state_on_device (device (self s)) r0 i in
      nth (Z.to_nat i) (ray_state (self s')) 0 = c /\
      int8_t c = RAY_INACTIVE /\
      (0 <= c < 256 -> 0 <= RAY_INACTIVE -> c = RAY_INACTIVE).
Proof.
  intros Hrun Hact Hcan Hobs.
  pose proof (path_iteration_loop_cancel fuel task g l st s) as H.
  cbv zeta in H. rewrite Hrun in H. cbn [fst snd] in H.
  destruct H as [Hflag Hscan].
  rewrite Hcan, Hobs in Hflag. cbn in Hflag.
  destruct (Hscan Hflag Hact) as (r0 & rest & Hrb & Hdata & Hquiet).
  exists r0. split; [exact Hrb|]. intros i Hi. cbv zeta.
  set (n := Z.to_nat (dispatch_area g)) in *.
  assert (Hin : (Z.to_nat i < n)%nat) by (subst n; lia).
  assert (Hc : nth (Z.to_nat i) (ray_state (self s')) 0
               = ray_state_on_device (device (self s)) r0 i).
  { rewrite Hdata, app_nth1 by (rewrite lanes_on_device_length; exact Hin).
    rewrite lanes_on_device_nth by exact Hin. f_equal. lia. }
  assert (Hq : int8_t (ray_state_on_device (device (self s)) r0 i) = RAY_INACTIVE).
  { rewrite <- Hc. apply (scan_ray_state_false n); [exact Hquiet|exact Hin|].
    rewrite Hdata, length_app, lanes_on_device_length. lia. }
  split; [exact Hc|]. split; [exact Hq|].
  intros Hbyte Hpos. rewrite <- Hq in Hpos |- *. symmetry.
  apply int8_t_byte; assumption.
Qed.

(** C7, as amended. When a poll finds the task canceled during a tile,
    mid-batch or after the scan, [path_trace] does not enqueue the
    sum-all-radiance stage, so nothing is added to the tile's output
    buffer; and when the cancellation request stays raised once it is
    raised, [path_trace] returns [true]. *)
Theorem cancellation_skips_reduction fuel task rtile m p s :
  let r := path_trace fuel task rtile m p s in
  existsb is_cancel (events_since s (snd r)) = true ->
  Forall (fun e => is_enqueue_of sum_all_radiance e = false) (events_since s (snd r)) /\
  (sticky task -> fst r = Returned true).
Proof.
  cbv zeta. rewrite path_trace_machine. intros Hobs.
  destruct (path_trace_body_events fuel task rtile m p s)
    as (loop_evs & tail & Htr & Hin & Htail & _ & _ & _ & _ & Hres).
  cbv zeta in *. rewrite (events_since_app s _ _ Htr) in *.
  destruct (host_interventions_in_loop rtile m p s loop_evs tail Htail) as [_ Hc].
  rewrite Hc in Hobs.
  assert (Ht : tail = []).
  { destruct Htail as [->|(ok & _ & E)]; [reflexivity|congruence]. }
  subst tail. rewrite app_nil_r. split.
  - apply Forall_app. split.
    + apply (prologue_events rtile m p s).
    + apply (in_loop_events loop_evs Hin).
  - intros Hst. apply path_trace_returns_true.
    destruct (fst (path_trace_body fuel task rtile m p s)) as [l|b|].
    + eauto.
    + destruct Hres as (_ & _ & Hq). rewrite (Hq Hst) in Hobs. discriminate.
    + destruct Hres as (_ & _ & Hq). rewrite (Hq Hst) in Hobs. discriminate.
Qed.

Lemma refusal_last (evs pre' : list event) e' :
  evs = pre' ++ [e'] -> Forall (fun e => failed e = false) pre' ->
  forall pre e post, evs = pre ++ e :: post -> failed e = true -> post = [].
Proof.
  intros -> Hclean pre e post E He.
  destruct post as [|z post]; [reflexivity|exfalso].
  destruct (exists_last (l := z :: post) ltac:(discriminate)) as (post' & z' & Ep).
  rewrite Ep in E.
  replace (pre ++ e :: post' ++ [z']) with ((pre ++ e :: post') ++ [z']) in E
    by (rewrite <- app_assoc; reflexivity).
  apply app_inj_tail in E. destruct E as [E _]. subst pre'.
  apply Forall_app in Hclean. destruct Hclean as [_ Hc].
  inversion Hc; subst. congruence.
Qed.

Lemma clean_no_failed evs :
  Forall (fun e => failed e = false) evs -> existsb failed evs = false.
Proof.
  induction 1 as [|e evs He _ IH]; [reflexivity|]. cbn. rewrite He, IH. reflexivity.
Qed.

(** C1, as amended. For a tile that [path_trace] processes successfully
    from a starting budget that is a positive multiple of the increment,
    with [k] host interventions and [budget + k * increment] below
    [2^32]: after no host intervention the next tile starts from
    [max(increment, budget - increment)], and after [k >= 1] host
    interventions from [budget + k * increment]. *)
Theorem next_budget_after_tile fuel task rtile m p s :
  increment_well_formed ->
  let r := path_trace fuel task rtile m p s in
  let budget := path_iteration_times (self s) in
  let k := host_interventions (events_since s (snd r)) in
  fst r = Returned true ->
  budget_invariant (self s) ->
  budget + k * PATH_ITER_INC_FACTOR < 2 ^ 32 ->
  (k = 0 -> path_iteration_times (self (snd r))
            = Z.max PATH_ITER_INC_FACTOR (budget - PATH_ITER_INC_FACTOR)) /\
  (1 <= k -> path_iteration_times (self (snd r))
             = budget + k * PATH_ITER_INC_FACTOR).
Proof.
  intros Hinc. cbv zeta. rewrite path_trace_machine. intros Hret (q & Hq & Hb) Hhi.
  apply path_trace_returns_true in Hret. destruct Hret as [l Hl].
  pose proof (path_trace_body_budget fuel task rtile m p s) as H.
  cbv zeta in H. rewrite Hl in H. destruct H as (Hnh & Hnn & Hpit).
  set (k := host_interventions
              (events_since s (snd (path_trace_body fuel task rtile m p s)))) in *.
  assert (Hk : 0 <= k) by apply host_interventions_nonneg.
  unfold increment_well_formed in Hinc.
  assert (Hkb : k < 2 ^ 32) by nia.
  rewrite (to_unsigned_small (path_iteration_times (self s))) in Hnn by nia.
  rewrite (to_unsigned_small (_ + _)) in Hnn by nia.
  rewrite (to_unsigned_small k) in Hnh by lia.
  rewrite Hpit. unfold next_path_iteration_times. rewrite Hnh, Hnn.
  split.
  - intros E0. rewrite E0. cbn [Z.eqb]. rewrite Z.mul_0_l, Z.add_0_r, Hb.
    rewrite !(to_unsigned_small (q * PATH_ITER_INC_FACTOR - PATH_ITER_INC_FACTOR))
      by nia.
    rewrite (to_unsigned_small PATH_ITER_INC_FACTOR) by lia.
    destruct (Z.leb_spec (q * PATH_ITER_INC_FACTOR - PATH_ITER_INC_FACTOR) 0);
      cbn iota.
    + rewrite Z.max_l by nia. reflexivity.
    + assert (2 <= q) by nia. rewrite Z.max_r by nia. reflexivity.
  - intros H1. destruct (Z.eqb_spec k 0); [lia|reflexivity].
Qed.

(** C10, as amended. [path_iteration_times] is a positive multiple of
    [PATH_ITER_INC_FACTOR] after construction, and after every call of
    [path_trace] that started from such a budget and kept
    [budget + k * increment] below [2^32], [k] being the host
    interventions of the call; in the budget-decrease branch of such a
    call the subtraction [numNextPathIterTimes - PATH_ITER_INC_FACTOR]
    does not wrap around. *)
Theorem budget_is_multiple_of_increment dev fuel task rtile m p s :
  increment_well_formed ->
  budget_invariant (new_DeviceSplitKernel dev) /\
  (let r := path_trace_body fuel task rtile m p s in
   let k := host_interventions (events_since s (snd r)) in
   budget_invariant (self s) ->
   path_iteration_times (self s) + k * PATH_ITER_INC_FACTOR < 2 ^ 32 ->
   budget_invariant (self (snd r)) /\
   match fst r with
   | Normal l =>
       numHostIntervention l = 0 ->
       to_unsigned (numNextPathIterTimes l - PATH_ITER_INC_FACTOR)
         = numNextPathIterTimes l - PATH_ITER_INC_FACTOR
   | _ => True
   end).
Proof.
  intros Hinc. unfold increment_well_formed in Hinc. split.
  { exists 1. cbn [new_DeviceSplitKernel path_iteration_times].
    rewrite to_unsigned_small by lia. lia. }
  cbv zeta. intros (q & Hq & Hb) Hhi.
  pose proof (path_trace_body_budget fuel task rtile m p s) as H. cbv zeta in H.
  set (k := host_interventions (events_since s (snd (path_trace_body fuel task rtile m p s)))) in *.
  assert (Hk : 0 <= k) by apply host_interventions_nonneg.
  assert (Hkb : k < 2 ^ 32) by nia.
  assert (Hidle : (if k =? 0 then path_iteration_times (self s)
                   else to_unsigned PATH_ITER_INC_FACTOR) =
                  (if k =? 0 then q else 1) * PATH_ITER_INC_FACTOR).
  { rewrite (to_unsigned_small PATH_ITER_INC_FACTOR) by lia.
    destruct (k =? 0); lia. }
  unfold budget_invariant.
  destruct (fst (path_trace_body fuel task rtile m p s)) as [l|b|].
  - destruct H as (Hnh & Hnn & Hpit).
    rewrite (to_unsigned_small (path_iteration_times (self s))) in Hnn by nia.
    rewrite (to_unsigned_small (_ + _)) in Hnn by nia.
    rewrite (to_unsigned_small k) in Hnh by lia.
    split.
    + rewrite Hpit. unfold next_path_iteration_times. rewrite Hnh, Hnn.
      destruct (Z.eqb_spec k 0) as [->|Hne].
      * rewrite Z.mul_0_l, Z.add_0_r, Hb.
        rewrite !(to_unsigned_small (q * PATH_ITER_INC_FACTOR - PATH_ITER_INC_FACTOR))
          by nia.
        rewrite (to_unsigned_small PATH_ITER_INC_FACTOR) by lia.
        destruct (Z.leb_spec (q * PATH_ITER_INC_FACTOR - PATH_ITER_INC_FACTOR) 0);
          cbn iota.
        -- exists 1. lia.
        -- exists (q - 1). nia.
      * exists (q + k). nia.
    + intros H0. rewrite Hnn. apply to_unsigned_small.
      assert (k = 0) by lia. subst k. nia.
  - split; [|exact I]. rewrite H, Hidle. destruct (k =? 0); [exists q|exists 1]; split; lia.
  - split; [|exact I]. rewrite H, Hidle. destruct (k =? 0); [exists q|exists 1]; split; lia.
Qed.

Lemma LOAD_KERNEL_then {B} name f (k : M B) s :
  (LOAD_KERNEL name f ;; k) s =
    match get_split_kernel_function (device (self s)) name f with
    | Some v => k (loaded name (Some v) s)
    | None => (Returned false, loaded name None s)
    end.
Proof.
  unfold LOAD_KERNEL, bind, get, modify, loaded. cbn.
  destruct (get_split_kernel_function _ _ _); reflexivity.
Qed.

Lemma loaded_device name v s : device (self (loaded name v s)) = device (self s).
Proof. reflexivity. Qed.

Lemma loaded_current_max_closure name v s :
  current_max_closure (self (loaded name v s)) = current_max_closure (self s).
Proof. reflexivity. Qed.

Lemma loaded_kernel_handle name v s k :
  kernel_handle (self (loaded name v s)) k =
    if kernel_eqb k name then v else kernel_handle (self s) k.
Proof. reflexivity. Qed.

Ltac load_step k :=
  rewrite LOAD_KERNEL_then, ?loaded_device;
  match goal with
  | |- context [get_split_kernel_function ?d k ?f] =>
      let E := fresh "E" in
      destruct (get_split_kernel_function d k f) eqn:E;
      [|split;
        [intros _; cbn [fst snd]; rewrite ?loaded_current_max_closure;
         split; [reflexivity|]; split; [|reflexivity];
         unfold pipeline_usable, all_kernels; cbn [forallb];
         rewrite ?loaded_kernel_handle; reflexivity
        |intros Hall; exfalso; exact (Hall k E)]]
  end.

(** C6. [load_kernels] is all-or-nothing: when one of the ten stages
    resolves to null it returns [false], the pipeline it leaves is not
    usable and [current_max_closure] is as before; when all ten resolve it
    returns [true], the pipeline is usable and [current_max_closure] is
    the maximum closure count of the requested features. *)
Theorem load_kernels_all_or_nothing requested_features s :
  let dev := device (self s) in
  let r := load_kernels requested_features s in
  ((exists k, get_split_kernel_function dev k requested_features = None) ->
     fst r = Returned false /\
     pipeline_usable (self (snd r)) = false /\
     current_max_closure (self (snd r)) = current_max_closure (self s)) /\
  ((forall k, get_split_kernel_function dev k requested_features <> None) ->
     fst r = Returned true /\
     pipeline_usable (self (snd r)) = true /\
     current_max_closure (self (snd r)) = max_closure requested_features).
Proof.
  cbv zeta. unfold load_kernels.
  load_step scene_intersect.
  load_step lamp_emission.
  load_step queue_enqueue.
  load_step background_buffer_update.
  load_step shader_eval.
  load_step holdout_emission_blurring_pathtermination_ao.
  load_step direct_lighting.
  load_step shadow_blocked.
  load_step next_iteration_setup.
  load_step sum_all_radiance.
  split.
  - intros [k Hk]. destruct k; congruence.
  - intros _. split; [reflexivity|]. split; [|reflexivity].
    unfold pipeline_usable, all_kernels. cbn [forallb].
    reflexivity.
Qed.

Lemma allocation_events_alloc m p d :
  filter is_alloc (allocation_events m p d) = allocation_events m p d.
Proof. unfold allocation_events. destruct dispatch_strategy; reflexivity. Qed.

Lemma filter_none {A} (f : A -> bool) l :
  Forall (fun a => f a = false) l -> filter f l = [].
Proof.
  induction 1 as [|a l Ha _ IH]; [reflexivity|]. cbn. rewrite Ha. exact IH.
Qed.

(** The allocations of a call, and what the call leaves of the flag. *)
Lemma path_trace_allocations fuel task rtile m p s :
  let r := path_trace fuel task rtile m p s in
  trace (snd r) = trace s ++ events_since s (snd r) /\
  filter is_alloc (events_since s (snd r)) =
    (if first_tile (self s) then allocation_events m p (self s) else []) /\
  (fst r = Returned true -> first_tile (self (snd r)) = false) /\
  (first_tile (self s) = false -> first_tile (self (snd r)) = false).
Proof.
  cbv zeta. rewrite path_trace_machine.
  pose proof (path_trace_returns_true fuel task rtile m p s) as Htrue.
  destruct (path_trace_body_events fuel task rtile m p s)
    as (loop_evs & tail & Htr & Hin & Htail & _ & _ & _ & _ & Hres).
  cbv zeta in *. rewrite (events_since_app s _ _ Htr).
  split; [exact Htr|]. split.
  - unfold prologue. rewrite !filter_app.
    rewrite (filter_none is_alloc loop_evs) by apply (in_loop_events loop_evs Hin).
    assert (Ht : filter is_alloc tail = []).
    { destruct Htail as [->|(ok & -> & _)]; reflexivity. }
    rewrite Ht. cbn [filter is_alloc app]. rewrite !app_nil_r.
    destruct (first_tile (self s)); [apply allocation_events_alloc|reflexivity].
  - destruct (fst (path_trace_body fuel task rtile m p s)) as [l|b|].
    + destruct Hres as (_ & _ & _ & _ & _ & Hf). split; intros; exact Hf.
    + destruct Hres as (_ & Hf & _). split; [|congruence].
      intros E. apply Htrue in E. destruct E as [l E]. discriminate.
    + destruct Hres as (_ & Hf & _). split; [|congruence].
      intros E. apply Htrue in E. destruct E as [l E]. discriminate.
Qed.

(** Once the flag is cleared, no call allocates. *)
Lemma render_reuses_buffers calls :
  forall s, first_tile (self s) = false ->
    exists evs, trace (render calls s) = trace s ++ evs /\ filter is_alloc evs = [].
Proof.
  induction calls as [|c rest IH]; intros s Hf.
  - exists []. cbn. rewrite app_nil_r. auto.
  - cbn [render]. unfold path_trace_request.
    destruct (path_trace_allocations (request_fuel c) (request_task c) (request_tile c)
                (request_feasible_size c) (request_output_buffer_size c) s)
      as (Htr & Halloc & _ & Hkeep).
    rewrite Hf in Halloc.
    destruct (IH _ (Hkeep Hf)) as (evs & Htr' & Hnone).
    eexists. rewrite Htr', Htr, <- app_assoc. split; [reflexivity|].
    rewrite filter_app, Halloc, Hnone. reflexivity.
Qed.

(** [load_kernels] asks nothing of the device but the stages, and leaves
    the first-tile flag alone. *)
Lemma load_kernels_frame requested_features s :
  trace (snd (load_kernels requested_features s)) = trace s /\
  first_tile (self (snd (load_kernels requested_features s))) = first_tile (self s).
Proof.
  unfold load_kernels.
  repeat (rewrite LOAD_KERNEL_then, ?loaded_device;
          destruct (get_split_kernel_function _ _ _); [|split; reflexivity]).
  split; reflexivity.
Qed.

(** A scheduler that has only loaded kernels since its construction has
    its first tile before it. *)
Lemma first_tile_before_path_trace dev requests :
  first_tile (self (perform_all (map LoadKernels requests) (new_machine dev))) = true.
Proof.
  assert (H : forall s, first_tile (self (perform_all (map LoadKernels requests) s))
                        = first_tile (self s)).
  { induction requests as [|f rest IH]; intros s; [reflexivity|].
    cbn [map perform_all perform]. rewrite IH.
    apply (load_kernels_frame f s). }
  rewrite H. reflexivity.
Qed.

(** A sequence of [path_trace] calls is a sequence of calls. *)
Lemma render_perform_all calls s :
  render calls s = perform_all (map PathTrace calls) s.
Proof.
  revert s. induction calls as [|c rest IH]; intros s; [reflexivity|].
  cbn [render map perform_all perform]. apply IH.
Qed.

(** Once the flag is cleared, no call allocates. *)
Lemma perform_all_reuses_buffers calls :
  forall s, first_tile (self s) = false ->
    exists evs, trace (perform_all calls s) = trace s ++ evs /\ filter is_alloc evs = [].
Proof.
  induction calls as [|c rest IH]; intros s Hf.
  - exists []. cbn. rewrite app_nil_r. auto.
  - cbn [perform_all]. destruct c as [f|c]; cbn [perform].
    + destruct (load_kernels_frame f s) as [Htr Hkeep].
      destruct (IH (snd (load_kernels f s))) as (evs & Htr' & Hnone).
      { rewrite Hkeep. exact Hf. }
      exists evs. rewrite Htr', Htr. auto.
    + unfold path_trace_request.
      destruct (path_trace_allocations (request_fuel c) (request_task c) (request_tile c)
                  (request_feasible_size c) (request_output_buffer_size c) s)
        as (Htr & Halloc & _ & Hkeep).
      rewrite Hf in Halloc.
      destruct (IH _ (Hkeep Hf)) as (evs & Htr' & Hnone).
      eexists. rewrite Htr', Htr, <- app_assoc. split; [reflexivity|].
      rewrite filter_app, Halloc, Hnone. reflexivity.
Qed.

(** No call frees a buffer. *)
Lemma perform_all_frees_nothing calls :
  forall s, filter is_free (trace (perform_all calls s)) = filter is_free (trace s).
Proof.
  induction calls as [|c rest IH]; intros s; [reflexivity|].
  cbn [perform_all]. rewrite IH. destruct c as [f|c]; cbn [perform].
  - destruct (load_kernels_frame f s) as [-> _]. reflexivity.
  - unfold path_trace_request. rewrite path_trace_machine.
    destruct (path_trace_body_events (request_fuel c) (request_task c) (request_tile c)
                (request_feasible_size c) (request_output_buffer_size c) s)
      as (loop_evs & tail & Htr & Hin & Htail & _). cbv zeta in Htr.
    rewrite Htr, !filter_app.
    rewrite (filter_none is_free (prologue _ _ _ s))
      by apply (prologue_events (request_tile c) (request_feasible_size c)
                  (request_output_buffer_size c) s).
    rewrite (filter_none is_free loop_evs) by apply (in_loop_events loop_evs Hin).
    destruct Htail as [->|(ok & -> & _)]; cbn; rewrite app_nil_r; reflexivity.
Qed.

(** C5, as amended. On every scheduler whose first tile is still before
    it, as it is from the constructor on and through any calls of
    [load_kernels], a call of [path_trace] that returns [true] allocates
    the lane-state buffers: queue index, queue flag, kernel-globals
    buffer, [ray_state] and [split_data], and the work pool under the
    work-stealing strategy only; over any sequence of calls that
    follows, of [path_trace] or of [load_kernels], no further allocation
    occurs. *)
Theorem lane_buffers_allocated_on_first_tile s c rest :
  first_tile (self s) = true ->
  fst (path_trace_request c s) = Returned true ->
  filter is_alloc (events_since s (snd (path_trace_request c s))) =
    allocation_events (request_feasible_size c) (request_output_buffer_size c) (self s) /\
  filter is_alloc (events_since s (perform_all (PathTrace c :: rest) s)) =
    allocation_events (request_feasible_size c) (request_output_buffer_size c) (self s).
Proof.
  intros Hfirst Hok. cbn [perform_all perform]. unfold path_trace_request in *.
  destruct (path_trace_allocations (request_fuel c) (request_task c) (request_tile c)
              (request_feasible_size c) (request_output_buffer_size c) s)
    as (Htr & Halloc & Hclear & _).
  rewrite Hfirst in Halloc.
  split; [exact Halloc|].
  destruct (perform_all_reuses_buffers rest _ (Hclear Hok)) as (evs & Htr' & Hnone).
  rewrite (events_since_app s _ (events_since s _ ++ evs))
    by (rewrite Htr', Htr, <- app_assoc; f_equal).
  rewrite filter_app, Halloc, Hnone, app_nil_r. reflexivity.
Qed.

(** C8. A data-init dispatch or a stage enqueue that the device refuses
    is the last event of the call: [path_trace] returns [false] exactly
    then, nothing is enqueued or retried after it, no buffer is freed, and
    the device, the loaded stages, the closure count and the first-tile
    flag are as before the call; the budget is as before too, or the
    increment when a host intervention came first. *)
Theorem refused_dispatch_aborts_tile fuel task rtile m p s :
  let r := path_trace fuel task rtile m p s in
  let evs := events_since s (snd r) in
  (existsb failed evs = true <-> fst r = Returned false) /\
  (forall pre e post, evs = pre ++ e :: post -> failed e = true -> post = []) /\
  Forall (fun e => is_free e = false) evs /\
  (fst r = Returned false ->
     device (self (snd r)) = device (self s) /\
     kernel_handle (self (snd r)) = kernel_handle (self s) /\
     current_max_closure (self (snd r)) = current_max_closure (self s) /\
     first_tile (self (snd r)) = first_tile (self s) /\
     path_iteration_times (self (snd r)) =
       (if host_interventions evs =? 0 then path_iteration_times (self s)
        else to_unsigned PATH_ITER_INC_FACTOR)).
Proof.
  cbv zeta. rewrite path_trace_machine, path_trace_returns_false.
  pose proof (path_trace_body_budget fuel task rtile m p s) as Hbud. cbv zeta in Hbud.
  destruct (path_trace_body_events fuel task rtile m p s)
    as (loop_evs & tail & Htr & Hin & Htail & Hfin & Hd & Hk & Hc & Hres).
  cbv zeta in *. rewrite (events_since_app s _ _ Htr) in *.
  set (evs := prologue rtile m p s ++ loop_evs ++ tail) in *.
  assert (Hfree : Forall (fun e => is_free e = false) evs).
  { subst evs. apply Forall_app. split; [apply (prologue_events rtile m p s)|].
    apply Forall_app. split; [apply (in_loop_events loop_evs Hin)|].
    destruct Htail as [->|(ok & -> & _)]; repeat constructor. }
  destruct (fst (path_trace_body fuel task rtile m p s)) as [l|[|]|] eqn:Eres;
    cbn [refusal_is_final] in Hfin.
  - pose proof (clean_no_failed evs Hfin) as Hno.
    split; [rewrite Hno; split; discriminate|].
    split; [|split; [exact Hfree|discriminate]].
    intros pre e post E He. rewrite E in Hfin.
    apply Forall_app in Hfin. destruct Hfin as [_ Hf]. inversion Hf; congruence.
  - exfalso. apply (path_trace_body_returns fuel task rtile m p s). exact Eres.
  - destruct Hfin as (pre' & e' & E & Hclean & He').
    split.
    { split; [reflexivity|]. intros _. rewrite E, existsb_app. cbn.
      rewrite He'. rewrite orb_true_r. reflexivity. }
    split; [exact (refusal_last evs pre' e' E Hclean)|].
    split; [exact Hfree|]. intros _.
    destruct Hres as (_ & Hf & _). auto.
  - pose proof (clean_no_failed evs Hfin) as Hno.
    split; [rewrite Hno; split; discriminate|].
    split; [|split; [exact Hfree|discriminate]].
    intros pre e post E He. rewrite E in Hfin.
    apply Forall_app in Hfin. destruct Hfin as [_ Hf]. inversion Hf; congruence.
Qed.

Lemma quiet_no_intervention evs :
  Forall (fun e => is_enqueue e = true \/ e = EvGetCancel false) evs ->
  host_interventions evs = 0 /\ existsb is_cancel evs = false.
Proof.
  induction 1 as [|e evs He _ [IH1 IH2]]; [split; reflexivity|].
  unfold host_interventions in *. cbn [filter existsb].
  destruct He as [He| ->]; [destruct e; try discriminate|]; cbn; auto.
Qed.

(** A device that accepts every dispatch, whose lanes are found active
    in [j] read-backs and inactive in the next one, and a task that is
    never canceled: the outer loop ends after [j] host interventions. *)
Lemma path_iteration_loop_steady (j extra : nat) task g l :
  forall st s,
  (forall i, enqueue_result (device (self s)) i = true) ->
  (forall i, cancel_answer task i = false) ->
  activeRaysAvailable st = true ->
  (forall (i : nat) rest, (i < j)%nat ->
     scan_ray_state (Z.to_nat (dispatch_area g))
       (lanes_on_device (device (self s)) (read_backs s + N.of_nat i)
          (Z.to_nat (dispatch_area g)) ++ rest) = true) ->
  (forall rest,
     scan_ray_state (Z.to_nat (dispatch_area g))
       (lanes_on_device (device (self s)) (read_backs s + N.of_nat j)
          (Z.to_nat (dispatch_area g)) ++ rest) = false) ->
  let r := path_iteration_loop (S j + extra) task g l st s in
  exists st',
    fst r = Normal st' /\ canceled st' = canceled st /\
    host_interventions (events_since s (snd r)) = Z.of_nat j.
Proof.
  induction j as [|j IH]; intros st s Hdev Htask Hact Hbusy Hidle; cbv zeta.
  - cbn [Nat.add]. rewrite (loop_step _ _ _ _ _ _ Hact).
    destruct (path_iterations_quiet (Z.to_nat (path_iteration_times (self s)))
                task g l (canceled st) s Hdev Htask) as (evs & Hrun & Hq).
    rewrite Hrun. cbv zeta.
    destruct (quiet_no_intervention evs Hq) as [Hk _].
    set (s1 := advance evs s) in *.
    assert (Ha : still_active g s1 = false).
    { unfold still_active. rewrite <- (Hidle (skipn (Z.to_nat (dispatch_area g))
                                               (ray_state (self s)))).
      rewrite N.add_0_r. cbn. rewrite copy_size. reflexivity. }
    rewrite Ha.
    pose proof (body_trace task g false s1) as Htr. cbv zeta in Htr.
    rewrite Ha in Htr.
    rewrite !Htask in Htr. rewrite !Htask.
    rewrite loop_exit by reflexivity. cbn [fst snd].
    eexists. split; [reflexivity|]. split; [reflexivity|].
    rewrite (events_since_app s _ (evs ++ [EvMemCopyFrom ray_state_mem
                                            (to_size_t (dispatch_area g * 1));
                                          EvScan false; EvGetCancel false]))
      by (rewrite Htr; subst s1; cbn [advance trace]; rewrite <- app_assoc; reflexivity).
    rewrite host_interventions_app, Hk. reflexivity.
  - change (S (S j) + extra)%nat with (S (S j + extra)).
    rewrite (loop_step _ _ _ _ _ _ Hact).
    destruct (path_iterations_quiet (Z.to_nat (path_iteration_times (self s)))
                task g l (canceled st) s Hdev Htask) as (evs & Hrun & Hq).
    rewrite Hrun. cbv zeta.
    destruct (quiet_no_intervention evs Hq) as [Hk _].
    set (s1 := advance evs s) in *.
    assert (Ha : still_active g s1 = true).
    { unfold still_active. rewrite <- (Hbusy O (skipn (Z.to_nat (dispatch_area g))
                                                (ray_state (self s))) ltac:(lia)).
      rewrite N.add_0_r. cbn. rewrite copy_size. reflexivity. }
    rewrite Ha.
    pose proof (body_trace task g true s1) as Htr. cbv zeta in Htr.
    rewrite Ha in Htr.
    rewrite !Htask in Htr. rewrite !Htask.
    set (s4 := advance [EvGetCancel false] (retimed true (synced g s1))) in *.
    assert (Hrb : read_backs s4 = N.succ (read_backs s)) by reflexivity.
    assert (Hd4 : device (self s4) = device (self s)) by reflexivity.
    destruct (IH (intervened true (canceled st) st) s4) as (st' & Hres & Hcan & Hk').
    + rewrite Hd4. exact Hdev.
    + exact Htask.
    + reflexivity.
    + intros i rest Hi. rewrite Hd4, Hrb.
      replace (N.succ (read_backs s) + N.of_nat i)%N
        with (read_backs s + N.of_nat (S i))%N by lia.
      apply Hbusy. lia.
    + intros rest. rewrite Hd4, Hrb.
      replace (N.succ (read_backs s) + N.of_nat j)%N
        with (read_backs s + N.of_nat (S j))%N by lia.
      apply Hidle.
    + exists st'. split; [exact Hres|]. split; [exact Hcan|].
      destruct (path_iteration_loop_trace (S j + extra) task g l
                  (intervened true (canceled st) st) s4) as (evs' & Htr' & _).
      cbv zeta in Htr'.
      rewrite (events_since_app s4 _ evs' Htr') in Hk'.
      rewrite (events_since_app s _ (evs ++ [EvMemCopyFrom ray_state_mem
                                              (to_size_t (dispatch_area g * 1));
                                            EvScan true; EvGetCancel false] ++ evs'))
        by (rewrite Htr', Htr; subst s1; cbn [advance trace];
            rewrite <- !app_assoc; reflexivity).
      rewrite !host_interventions_app, Hk, Hk'.
      change (host_interventions [EvMemCopyFrom ray_state_mem
                                    (to_size_t (dispatch_area g * 1));
                                  EvScan true; EvGetCancel false]) with 1.
      lia.
Qed.

Lemma prepared_read_backs m p s :
  read_backs (prepared m p s) = read_backs s /\
  enqueues (prepared m p s) = enqueues s.
Proof.
  unfold prepared, allocate_global_memory.
  destruct (first_tile (self s)); [|split; reflexivity].
  destruct dispatch_strategy; split; reflexivity.
Qed.

(** Lanes that all hold the same byte. *)
Lemma scan_uniform dev r c n rest :
  (forall i, ray_state_on_device dev r i = c) ->
  scan_ray_state n (lanes_on_device dev r n ++ rest) =
    negb (n =? 0)%nat && negb (int8_t c =? RAY_INACTIVE).
Proof.
  intros Hc. unfold lanes_on_device.
  assert (H : forall start,
            scan_ray_state n
              (map (fun i => ray_state_on_device dev r (Z.of_nat i)) (seq start n) ++ rest)
            = negb (n =? 0)%nat && negb (int8_t c =? RAY_INACTIVE)).
  { induction n as [|n IH]; intros start; [reflexivity|].
    cbn [seq map app scan_ray_state]. rewrite Hc.
    destruct (int8_t c =? RAY_INACTIVE) eqn:E; cbn [negb]; [|reflexivity].
    rewrite IH. cbn. rewrite andb_false_r. reflexivity. }
  apply H.
Qed.

(** A whole tile on such a device. *)
Lemma path_trace_steady (j extra : nat) task rtile m p s :
  let g := global_size dispatch_strategy rtile m in
  (forall i, enqueue_result (device (self s)) i = true) ->
  data_init_result (device (self s)) (data_inits s) = true ->
  (forall i, cancel_answer task i = false) ->
  (forall (i : nat) rest, (i < j)%nat ->
     scan_ray_state (Z.to_nat (dispatch_area g))
       (lanes_on_device (device (self s)) (read_backs s + N.of_nat i)
          (Z.to_nat (dispatch_area g)) ++ rest) = true) ->
  (forall rest,
     scan_ray_state (Z.to_nat (dispatch_area g))
       (lanes_on_device (device (self s)) (read_backs s + N.of_nat j)
          (Z.to_nat (dispatch_area g)) ++ rest) = false) ->
  let r := path_trace_body (S j + extra) task rtile m p s in
  (exists l, fst r = Normal l) /\
  host_interventions (events_since s (snd r)) = Z.of_nat j.
Proof.
  intros g Hdev Hinit Htask Hbusy Hidle. cbv zeta.
  rewrite path_trace_body_run. cbv zeta. rewrite Hinit. cbn [negb]. fold g.
  destruct (initialised_fields rtile m p s) as (Hd & _).
  pose proof (initialised_trace rtile m p s) as Htr.
  assert (Hrb : read_backs (initialised rtile m p s) = read_backs s).
  { unfold initialised, enqueue_split_kernel_data_init. cbn [snd read_backs].
    apply prepared_read_backs. }
  set (s2 := initialised rtile m p s) in *.
  destruct (path_iteration_loop_steady j extra task g local_size (initial_locals s) s2)
    as (st' & Hres & Hcan & Hk).
  - rewrite Hd. exact Hdev.
  - exact Htask.
  - reflexivity.
  - rewrite Hd, Hrb. exact Hbusy.
  - rewrite Hd, Hrb. exact Hidle.
  - destruct (path_iteration_loop_trace (S j + extra) task g local_size
                (initial_locals s) s2) as (evs & Htr3 & Hsame & _).
    cbv zeta in Htr3.
    rewrite (events_since_app s2 _ evs Htr3) in Hk.
    destruct Hsame as (Hd3 & _).
    destruct (path_iteration_loop (S j + extra) task g local_size (initial_locals s) s2)
      as [o s3]. cbn [fst snd] in *. subst o.
    cbn [initial_locals canceled] in Hcan. rewrite Hcan. cbn [negb].
    rewrite Hd3, Hd, Hdev. cbn [fst snd].
    split; [eauto|].
    rewrite (events_since_app s _ (prologue rtile m p s ++ evs ++
               [reduction rtile true])).
    + destruct (prologue_events rtile m p s) as (Hp & _).
      rewrite !host_interventions_app, Hp, Hk.
      change (host_interventions [reduction rtile true]) with 0. lia.
    + unfold finished. cbn [snd trace bind modify advance].
      rewrite Htr3, Htr, <- !app_assoc. reflexivity.
Qed.

End Scheduling.

(** ** Runs on the example inputs *)

(** On the device [steady_device R], constructed with the constants of
    Cycles, the first tile takes [R] host interventions. *)
Lemma steady_tile_run (R : N) :
  let s0 := @new_machine (cycles WorkStealing) (steady_device R) in
  let r := @path_trace_body (cycles WorkStealing) (S (N.to_nat R) + 0) never_canceled
             tile_64x64 feasible_64x64 16 s0 in
  (exists l, fst r = Normal l) /\
  host_interventions (events_since s0 (snd r)) = Z.of_N R.
Proof.
  cbv zeta. replace (Z.of_N R) with (Z.of_nat (N.to_nat R)) by lia.
  apply (@path_trace_steady (cycles WorkStealing)).
  - reflexivity.
  - reflexivity.
  - reflexivity.
  - intros i rest Hi.
    rewrite (@scan_uniform (cycles WorkStealing) _ _ 0); [reflexivity|].
    intros lane. cbn [steady_device ray_state_on_device new_machine self
                      new_DeviceSplitKernel device read_backs].
    destruct (N.ltb_spec (0 + N.of_nat i) R); [reflexivity|lia].
  - intros rest.
    rewrite (@scan_uniform (cycles WorkStealing) _ _ 1); [reflexivity|].
    intros lane. cbn [steady_device ray_state_on_device new_machine self
                      new_DeviceSplitKernel device read_backs].
    destruct (N.ltb_spec (0 + N.of_nat (N.to_nat R)) R); [lia|reflexivity].
Qed.

(** The long tile: one tile whose lanes stay active for 536870911
    read-backs. *)
Lemma long_tile_run :
  exists fuel,
    let s0 := @new_machine (cycles WorkStealing) (steady_device 536870911) in
    let r := @path_trace_body (cycles WorkStealing) fuel never_canceled
               tile_64x64 feasible_64x64 16 s0 in
    (exists l, fst r = Normal l) /\
    host_interventions (events_since s0 (snd r)) = Z.of_N 536870911.
Proof.
  exists (S (N.to_nat 536870911) + 0)%nat. exact (steady_tile_run 536870911).
Qed.

(** A device without the shadow-blocked stage: seven stages are loaded,
    [load_kernels] returns [false] and leaves the closure count alone. *)
Example load_kernels_without_shadow_blocked :
  let r := load_kernels {| max_closure := 64 |}
             (new_machine (K := cycles WorkStealing) (device_without shadow_blocked)) in
  fst r = Returned false /\
  kernel_handle (self (snd r)) direct_lighting = Some 1%N /\
  kernel_handle (self (snd r)) shadow_blocked = None /\
  pipeline_usable (self (snd r)) = false /\
  current_max_closure (self (snd r)) = -1.
Proof. vm_compute. repeat split. Qed.

(** A first call that the device refuses leaves the first-tile flag set:
    the call after it allocates the lane-state buffers again. *)
Lemma lane_buffers_allocated_again_after_refused_first_tile :
  let s0 := new_machine (K := cycles WorkStealing) (faulty_device 0 0 1000) in
  let r1 := path_trace (K := cycles WorkStealing) 4 never_canceled
              tile_64x1 feasible_64x1 16 s0 in
  let r2 := path_trace (K := cycles WorkStealing) 4 never_canceled
              tile_64x1 feasible_64x1 16 (snd r1) in
  fst r1 = Returned false /\
  allocations (events_since s0 (snd r1)) = 6%nat /\
  first_tile (self (snd r1)) = true /\
  fst r2 = Returned true /\
  allocations (events_since (snd r1) (snd r2)) = 6%nat.
Proof. vm_compute. repeat split. Qed.

(** C2, counterexample. Under the work-stealing strategy, with a local
    work size of 64 by 1, a tile of 128 by 1 and a maximum feasible tile
    size of 64 by 1 are both aligned, and the dispatch area, 128, exceeds
    the maximum feasible area, 64. *)
Lemma dispatch_exceeds_feasible_area_for_a_larger_tile :
  tile_aligned (K := cycles WorkStealing) tile_128x1 /\
  assert_feasible_aligned (K := cycles WorkStealing) feasible_64x1 = true /\
  dispatch_area (global_size (K := cycles WorkStealing) WorkStealing tile_128x1 feasible_64x1)
    = 128 /\
  assert_dispatch_fits (K := cycles WorkStealing) WorkStealing tile_128x1 feasible_64x1
    = false.
Proof. repeat split. Qed.

Lemma dispatch_area_within_feasible_area_witness :
  assert_dispatch_fits (K := cycles WorkStealing) FixedAllocation tile_64x64 feasible_256x256
    = true /\
  (assert_dispatch_fits (K := cycles WorkStealing) WorkStealing tile_64x64 feasible_256x256
     = true <-> 64 * 64 <= 256 * 256).
Proof.
  apply (dispatch_area_within_feasible_area (K := cycles WorkStealing)
           tile_64x64 feasible_256x256).
  - unfold local_size_well_formed. cbn. lia.
  - unfold tile_well_formed. cbn. lia.
  - split; reflexivity.
  - unfold feasible_size_well_formed. cbn. lia.
Defined.

Lemma parallel_samples_fixed_allocation_witness :
  num_parallel_samples (K := cycles FixedAllocation) FixedAllocation tile_64x64
    feasible_256x256 = 16 /\
  assert_parallel_samples (K := cycles FixedAllocation) FixedAllocation tile_64x64
    feasible_256x256 = true.
Proof.
  destruct (parallel_samples_fixed_allocation (K := cycles FixedAllocation)
              tile_64x64 feasible_256x256) as (_ & Hraw & _ & Hnz).
  - unfold local_size_well_formed. cbn. lia.
  - unfold tile_well_formed. cbn. lia.
  - unfold feasible_size_well_formed. cbn. lia.
  - split.
    + apply Hraw. vm_compute. reflexivity.
    + apply Hnz. vm_compute. split; discriminate.
Defined.

Lemma lanes_inactive_when_loop_ends_witness :
  exists r0,
    read_backs
      (snd (path_iteration_loop (K := cycles WorkStealing) 4 never_canceled (64, 1) (64, 1)
              (initial_locals (new_machine (K := cycles WorkStealing) (steady_device 2)))
              (new_machine (K := cycles WorkStealing) (steady_device 2)))) = N.succ r0 /\
    forall i, 0 <= i < dispatch_area (64, 1) ->
      let c := ray_state_on_device (steady_device 2) r0 i in
      nth (Z.to_nat i)
        (ray_state (self
           (snd (path_iteration_loop (K := cycles WorkStealing) 4 never_canceled
                   (64, 1) (64, 1)
                   (initial_locals (new_machine (K := cycles WorkStealing)
                                      (steady_device 2)))
                   (new_machine (K := cycles WorkStealing) (steady_device 2)))))) 0 = c /\
      int8_t c = 1 /\
      (0 <= c < 256 -> 0 <= 1 -> c = 1).
Proof.
  apply (lanes_inactive_when_loop_ends (K := cycles WorkStealing)
           4 never_canceled (64, 1) (64, 1)
           (initial_locals (new_machine (K := cycles WorkStealing) (steady_device 2)))
           (new_machine (K := cycles WorkStealing) (steady_device 2))
           {| numHostIntervention := 2; numNextPathIterTimes := 24;
              canceled := false; activeRaysAvailable := false |}).
  - vm_compute. reflexivity.
  - reflexivity.
  - reflexivity.
  - vm_compute. reflexivity.
Defined.

Lemma cancellation_skips_reduction_witness :
  existsb is_cancel
    (events_since (new_machine (K := cycles WorkStealing) (steady_device 5))
       (snd (path_trace (K := cycles WorkStealing) 4 (canceled_from 3)
               tile_64x1 feasible_64x1 16
               (new_machine (K := cycles WorkStealing) (steady_device 5))))) = true /\
  Forall (fun e => is_enqueue_of sum_all_radiance e = false)
    (events_since (new_machine (K := cycles WorkStealing) (steady_device 5))
       (snd (path_trace (K := cycles WorkStealing) 4 (canceled_from 3)
               tile_64x1 feasible_64x1 16
               (new_machine (K := cycles WorkStealing) (steady_device 5))))) /\
  fst (path_trace (K := cycles WorkStealing) 4 (canceled_from 3)
         tile_64x1 feasible_64x1 16
         (new_machine (K := cycles WorkStealing) (steady_device 5))) = Returned true.
Proof.
  assert (Hobs : existsb is_cancel
    (events_since (new_machine (K := cycles WorkStealing) (steady_device 5))
       (snd (path_trace (K := cycles WorkStealing) 4 (canceled_from 3)
               tile_64x1 feasible_64x1 16
               (new_machine (K := cycles WorkStealing) (steady_device 5))))) = true).
  { vm_compute. reflexivity. }
  split; [exact Hobs|].
  destruct (cancellation_skips_reduction (K := cycles WorkStealing) 4 (canceled_from 3)
              tile_64x1 feasible_64x1 16
              (new_machine (K := cycles WorkStealing) (steady_device 5)) Hobs)
    as [Hskip Hret].
  split; [exact Hskip|]. apply Hret.
  intros i j Hij Hi. cbn [canceled_from cancel_answer] in *.
  apply N.leb_le in Hi. apply N.leb_le. lia.
Defined.

Lemma next_budget_after_tile_witness :
  host_interventions
    (events_since (new_machine (K := cycles WorkStealing) (steady_device 2))
       (snd (path_trace (K := cycles WorkStealing) 4 never_canceled
               tile_64x1 feasible_64x1 16
               (new_machine (K := cycles WorkStealing) (steady_device 2))))) = 2 /\
  path_iteration_times
    (self (snd (path_trace (K := cycles WorkStealing) 4 never_canceled
                  tile_64x1 feasible_64x1 16
                  (new_machine (K := cycles WorkStealing) (steady_device 2))))) = 8 + 2 * 8.
Proof.
  assert (Hk : host_interventions
    (events_since (new_machine (K := cycles WorkStealing) (steady_device 2))
       (snd (path_trace (K := cycles WorkStealing) 4 never_canceled
               tile_64x1 feasible_64x1 16
               (new_machine (K := cycles WorkStealing) (steady_device 2))))) = 2).
  { vm_compute. reflexivity. }
  split; [exact Hk|].
  destruct (next_budget_after_tile (K := cycles WorkStealing) 4 never_canceled
              tile_64x1 feasible_64x1 16
              (new_machine (K := cycles WorkStealing) (steady_device 2)))
    as [_ Hgrow].
  - unfold increment_well_formed. cbn. lia.
  - vm_compute. reflexivity.
  - exists 1. split; [lia|reflexivity].
  - rewrite Hk. vm_compute. reflexivity.
  - rewrite Hk in Hgrow. apply Hgrow. lia.
Defined.

Lemma budget_is_multiple_of_increment_witness :
  budget_invariant (K := cycles WorkStealing)
    (new_DeviceSplitKernel (K := cycles WorkStealing) (steady_device 0)) /\
  budget_invariant (K := cycles WorkStealing)
    (self (snd (path_trace_body (K := cycles WorkStealing) 4 never_canceled
                  tile_64x1 feasible_64x1 16
                  (new_machine (K := cycles WorkStealing) (steady_device 0))))).
Proof.
  destruct (budget_is_multiple_of_increment (K := cycles WorkStealing)
              (steady_device 0) 4 never_canceled tile_64x1 feasible_64x1 16
              (new_machine (K := cycles WorkStealing) (steady_device 0)))
    as [Hnew Hcall].
  - unfold increment_well_formed. cbn. lia.
  - split; [exact Hnew|].
    destruct Hcall as [Hinv _]; [exact Hnew|vm_compute; reflexivity|exact Hinv].
Defined.

(** C1, counterexample. From the budget of a new scheduler, 8, a tile
    with 536870911 host interventions is processed successfully and
    leaves the budget 0, not [8 + 536870911 * 8 = 2^32]. *)
Lemma budget_wraps_after_a_long_tile :
  exists fuel,
    fst (path_trace (K := cycles WorkStealing) fuel never_canceled
           tile_64x64 feasible_64x64 16
           (new_machine (K := cycles WorkStealing) (steady_device 536870911)))
      = Returned true /\
    host_interventions
      (events_since (new_machine (K := cycles WorkStealing) (steady_device 536870911))
         (snd (path_trace (K := cycles WorkStealing) fuel never_canceled
                 tile_64x64 feasible_64x64 16
                 (new_machine (K := cycles WorkStealing) (steady_device 536870911)))))
      = 536870911 /\
    path_iteration_times
      (self (new_machine (K := cycles WorkStealing) (steady_device 536870911))) = 8 /\
    path_iteration_times
      (self (snd (path_trace (K := cycles WorkStealing) fuel never_canceled
                    tile_64x64 feasible_64x64 16
                    (new_machine (K := cycles WorkStealing) (steady_device 536870911)))))
      = 0 /\
    8 + 536870911 * 8 = 4294967296.
Proof.
  destruct long_tile_run as (fuel & [l Hl] & Hk). cbv zeta in Hl, Hk.
  exists fuel. rewrite path_trace_machine.
  split; [apply path_trace_returns_true; eauto|].
  split; [exact Hk|]. split; [reflexivity|]. split; [|reflexivity].
  pose proof (path_trace_body_budget (K := cycles WorkStealing) fuel never_canceled
                tile_64x64 feasible_64x64 16
                (new_machine (K := cycles WorkStealing) (steady_device 536870911))) as H.
  cbv zeta in H. rewrite Hl, Hk in H. destruct H as (Hnh & Hnn & Hpit).
  rewrite Hpit. unfold next_path_iteration_times. rewrite Hnh, Hnn. reflexivity.
Qed.

(** C10, counterexample. After that tile the budget, 0, is not a
    positive multiple of the increment, and a tile without host
    intervention that starts from it computes [0 - 8] as 4294967288. *)
Lemma budget_invariant_broken_after_a_long_tile :
  exists fuel l,
    fst (path_trace_body (K := cycles WorkStealing) fuel never_canceled
           tile_64x64 feasible_64x64 16
           (new_machine (K := cycles WorkStealing) (steady_device 536870911)))
      = Normal l /\
    path_iteration_times
      (self (snd (path_trace_body (K := cycles WorkStealing) fuel never_canceled
                    tile_64x64 feasible_64x64 16
                    (new_machine (K := cycles WorkStealing) (steady_device 536870911)))))
      = 0 /\
    ~ budget_invariant (K := cycles WorkStealing)
        (self (snd (path_trace_body (K := cycles WorkStealing) fuel never_canceled
                      tile_64x64 feasible_64x64 16
                      (new_machine (K := cycles WorkStealing)
                         (steady_device 536870911))))) /\
    next_path_iteration_times (K := cycles WorkStealing)
      {| numHostIntervention := 0; numNextPathIterTimes := 0;
         canceled := false; activeRaysAvailable := false |} = 4294967288.
Proof.
  destruct long_tile_run as (fuel & [l Hl] & Hk). cbv zeta in Hl, Hk.
  exists fuel, l. split; [exact Hl|].
  pose proof (path_trace_body_budget (K := cycles WorkStealing) fuel never_canceled
                tile_64x64 feasible_64x64 16
                (new_machine (K := cycles WorkStealing) (steady_device 536870911))) as H.
  cbv zeta in H. rewrite Hl, Hk in H. destruct H as (Hnh & Hnn & Hpit).
  assert (Hzero : path_iteration_times
            (self (snd (path_trace_body (K := cycles WorkStealing) fuel never_canceled
                          tile_64x64 feasible_64x64 16
                          (new_machine (K := cycles WorkStealing)
                             (steady_device 536870911))))) = 0).
  { rewrite Hpit. unfold next_path_iteration_times. rewrite Hnh, Hnn. reflexivity. }
  split; [exact Hzero|]. split; [|reflexivity].
  intros (q & Hq & Hmul). rewrite Hzero in Hmul.
  change (PATH_ITER_INC_FACTOR (KernelTypes := cycles WorkStealing)) with 8 in Hmul. lia.
Qed.

Lemma lane_buffers_allocated_on_first_tile_witness :
  let s0 := loaded_machine (K := cycles WorkStealing) (steady_device 1) in
  fst (path_trace_request (K := cycles WorkStealing) (first_request never_canceled) s0)
    = Returned true /\
  filter is_alloc
    (events_since s0
       (perform_all (K := cycles WorkStealing)
          [PathTrace (first_request never_canceled);
           PathTrace (first_request never_canceled);
           LoadKernels {| max_closure := 8 |};
           PathTrace (first_request (canceled_from 0))] s0)) =
    allocation_events (K := cycles WorkStealing) feasible_64x1 16 (self s0).
Proof.
  cbv zeta.
  assert (Hok : fst (path_trace_request (K := cycles WorkStealing)
                       (first_request never_canceled)
                       (loaded_machine (K := cycles WorkStealing) (steady_device 1)))
                = Returned true) by (vm_compute; reflexivity).
  split; [exact Hok|].
  destruct (lane_buffers_allocated_on_first_tile (K := cycles WorkStealing)
              (loaded_machine (K := cycles WorkStealing) (steady_device 1))
              (first_request never_canceled)
              [PathTrace (first_request never_canceled);
               LoadKernels {| max_closure := 8 |};
               PathTrace (first_request (canceled_from 0))] eq_refl Hok)
    as [_ H].
  exact H.
Defined.

(** C5, counterexample. Under the fixed-allocation strategy a first call
    that returns [true], on a scheduler with its kernels loaded,
    allocates five buffers and no work pool. *)
Lemma work_pool_not_allocated_under_fixed_allocation :
  let s0 := loaded_machine (K := cycles FixedAllocation) (steady_device 1) in
  let r := path_trace_request (K := cycles FixedAllocation)
             (first_request never_canceled) s0 in
  pipeline_usable (self s0) = true /\
  fst r = Returned true /\
  existsb is_work_pool_alloc (events_since s0 (snd r)) = false /\
  allocations (events_since s0 (snd r)) = 5%nat.
Proof. vm_compute. repeat split. Qed.

(** C7, counterexample. A poll in the first batch finds the task
    canceled, the poll after the scan does not, the loop goes on and the
    device refuses the next enqueue: cancellation was observed, and
    [path_trace] returns [false]. *)
Lemma withdrawn_cancellation_returns_false :
  let s0 := loaded_machine (K := cycles WorkStealing) (faulty_device 1000 1000 9) in
  let r := path_trace (K := cycles WorkStealing) 4 (canceled_once 0)
             tile_64x1 feasible_64x1 16 s0 in
  pipeline_usable (self s0) = true /\
  existsb is_cancel (events_since s0 (snd r)) = true /\
  Forall (fun e => is_enqueue_of sum_all_radiance e = false) (events_since s0 (snd r)) /\
  fst r = Returned false.
Proof.
  vm_compute. split; [reflexivity|]. split; [reflexivity|].
  split; [|reflexivity]. repeat constructor.
Qed.

(** * Further properties of the scheduler *)

(** ** Work sizes and buffers *)

Section Grids.

Context {K : KernelTypes}.

(** X1. Under work stealing the dispatch grid is the tile rounded up to
    the local work size. *)
Theorem work_stealing_grid_covers_tile rtile m :
  local_size_well_formed -> tile_well_formed rtile ->
  let g := global_size WorkStealing rtile m in
  (rtile.(w) <= fst g < rtile.(w) + SPLIT_KERNEL_LOCAL_SIZE_X /\
   fst g mod SPLIT_KERNEL_LOCAL_SIZE_X = 0) /\
  (rtile.(h) <= snd g < rtile.(h) + SPLIT_KERNEL_LOCAL_SIZE_Y /\
   snd g mod SPLIT_KERNEL_LOCAL_SIZE_Y = 0) /\
  (forall n, n mod SPLIT_KERNEL_LOCAL_SIZE_X = 0 -> rtile.(w) <= n -> fst g <= n) /\
  (forall n, n mod SPLIT_KERNEL_LOCAL_SIZE_Y = 0 -> rtile.(h) <= n -> snd g <= n) /\
  (tile_aligned rtile -> g = (rtile.(w), rtile.(h)) /\
                         dispatch_area g = rtile.(w) * rtile.(h)).
Proof.
  intros [HLX HLY] (Hw & Hh & _) g. subst g. cbn [global_size fst snd local_size].
  pose proof (round_up_bounds _ _ Hw HLX) as [Bx Mx].
  pose proof (round_up_bounds _ _ Hh HLY) as [By My].
  split; [auto|]. split; [auto|].
  assert (Hleast : forall d l n, 0 < l -> d <= round_up d l < d + l ->
            round_up d l mod l = 0 -> n mod l = 0 -> d <= n -> round_up d l <= n).
  { intros d l n Hl Hb Hm Hn Hd.
    apply Z.mod_divide in Hm; [|lia]. apply Z.mod_divide in Hn; [|lia].
    destruct Hm as [a Ha]. destruct Hn as [b Hb']. rewrite Ha in *. subst n.
    assert (a <= b) by nia. nia. }
  split; [intros n Hn Hd; apply Hleast; auto; lia|].
  split; [intros n Hn Hd; apply Hleast; auto; lia|].
  intros [Ax Ay].
  rewrite (round_up_aligned _ _ Hw HLX Ax), (round_up_aligned _ _ Hh HLY Ay).
  split; [reflexivity|]. unfold dispatch_area. cbn [fst snd].
  apply to_size_t_small. nia.
Qed.

(** X2. The work pool holds one [unsigned int] for each work group of a
    maximum feasible tile. *)
Theorem work_pool_covers_feasible_tile m :
  local_size_well_formed -> feasible_size_well_formed m ->
  assert_feasible_aligned m = true ->
  max_work_groups m =
    (m.(x) / SPLIT_KERNEL_LOCAL_SIZE_X) * (m.(y) / SPLIT_KERNEL_LOCAL_SIZE_Y) /\
  max_work_groups m * (SPLIT_KERNEL_LOCAL_SIZE_X * SPLIT_KERNEL_LOCAL_SIZE_Y)
    = m.(x) * m.(y) /\
  to_size_t (max_work_groups m * 4) = 4 * max_work_groups m.
Proof.
  intros [HLX HLY] (Hx & Hy & Hxy) Ha.
  unfold assert_feasible_aligned in Ha. apply andb_prop in Ha. destruct Ha as [Ax Ay].
  apply Z.eqb_eq in Ax, Ay.
  assert (Hxr : 0 < x m < 2 ^ 31) by nia.
  assert (Hyr : 0 < y m < 2 ^ 31) by nia.
  unfold max_work_groups. cbn [local_size fst snd].
  rewrite (round_up_aligned _ _ Hxr HLX Ax), (round_up_aligned _ _ Hyr HLY Ay).
  apply Z.mod_divide in Ax; [|lia]. apply Z.mod_divide in Ay; [|lia].
  destruct Ax as [a Ea]. destruct Ay as [b Eb].
  rewrite Ea, Eb, !Z.div_mul by lia.
  assert (Ha : 0 < a) by nia. assert (Hb : 0 < b) by nia.
  assert (Haa : a <= a * SPLIT_KERNEL_LOCAL_SIZE_X) by nia.
  assert (Hbb : b <= b * SPLIT_KERNEL_LOCAL_SIZE_Y) by nia.
  assert (Hab : a * b <= a * SPLIT_KERNEL_LOCAL_SIZE_X * (b * SPLIT_KERNEL_LOCAL_SIZE_Y)).
  { apply Z.mul_le_mono_nonneg; lia. }
  rewrite (to_size_t_small (a * SPLIT_KERNEL_LOCAL_SIZE_X * (b * SPLIT_KERNEL_LOCAL_SIZE_Y)))
    by (rewrite <- Ea, <- Eb; lia).
  rewrite (to_size_t_small (SPLIT_KERNEL_LOCAL_SIZE_X * SPLIT_KERNEL_LOCAL_SIZE_Y)) by nia.
  replace (a * SPLIT_KERNEL_LOCAL_SIZE_X * (b * SPLIT_KERNEL_LOCAL_SIZE_Y))
    with (a * b * (SPLIT_KERNEL_LOCAL_SIZE_X * SPLIT_KERNEL_LOCAL_SIZE_Y)) by ring.
  rewrite Z.div_mul by nia.
  rewrite Ea, Eb in Hxy.
  rewrite to_unsigned_small by nia.
  split; [reflexivity|]. split; [reflexivity|].
  rewrite to_size_t_small by nia. ring.
Qed.

End Grids.

(** ** Read-back, data initialisation, reduction and destructor *)

Section More.

Context {K : KernelTypes}.

(** The read-back and the scan *)
Lemma scan_finds_active_lane n data :
  (n <= length data)%nat ->
  (scan_ray_state n data = true <->
   exists i, (i < n)%nat /\ int8_t (nth i data 0) <> RAY_INACTIVE).
Proof.
  revert data. induction n as [|n IH]; intros data Hlen.
  - cbn. split; [discriminate|]. intros (i & Hi & _). lia.
  - destruct data as [|c rest]; [cbn in Hlen; lia|].
    cbn [scan_ray_state]. cbn [length] in Hlen.
    destruct (Z.eqb_spec (int8_t c) RAY_INACTIVE) as [E|E]; cbn [negb].
    + rewrite IH by lia. split.
      * intros (i & Hi & Hne). exists (S i). split; [lia|exact Hne].
      * intros (i & Hi & Hne). destruct i as [|i]; [contradiction|].
        exists i. split; [lia|exact Hne].
    + split; [|reflexivity]. intros _. exists 0%nat. split; [lia|exact E].
Qed.

(** X3. [sync_check] reads the dispatch area back and scans it: activity
    is reported exactly when the device holds, at this read-back, a lane
    of the dispatch area that is not inactive. *)
Theorem sync_check_reports_active_lane g s :
  let r := sync_check g s in
  (exists a, fst r = Normal a /\
     events_since s (snd r) =
       [EvMemCopyFrom ray_state_mem (dispatch_area g); EvScan a]) /\
  (fst r = Normal true <->
   exists i, 0 <= i < dispatch_area g /\
     int8_t (ray_state_on_device (device (self s)) (read_backs s) i) <> RAY_INACTIVE).
Proof.
  cbv zeta. rewrite sync_check_run. cbn [fst snd]. split.
  { exists (still_active g s). split; [reflexivity|].
    apply events_since_app. rewrite synced_trace, copy_size. reflexivity. }
  unfold still_active.
  change (ray_state (self (copied g s))) with (ray_state (self (synced g s))).
  rewrite synced_ray_state.
  set (n := Z.to_nat (dispatch_area g)).
  pose proof (dispatch_area_range g) as Hr.
  assert (Hlen : (n <= length (lanes_on_device (device (self s)) (read_backs s) n ++
                                 skipn n (ray_state (self s))))%nat).
  { rewrite length_app, lanes_on_device_length. lia. }
  split.
  - intros E. assert (E' : scan_ray_state n
        (lanes_on_device (device (self s)) (read_backs s) n ++
         skipn n (ray_state (self s))) = true) by congruence.
    apply (scan_finds_active_lane n _ Hlen) in E'. destruct E' as (i & Hi & Hne).
    exists (Z.of_nat i). split; [subst n; lia|].
    rewrite app_nth1 in Hne by (rewrite lanes_on_device_length; exact Hi).
    rewrite lanes_on_device_nth in Hne by exact Hi. exact Hne.
  - intros (i & Hi & Hne). f_equal.
    apply (scan_finds_active_lane n _ Hlen). exists (Z.to_nat i).
    split; [subst n; lia|].
    rewrite app_nth1 by (rewrite lanes_on_device_length; subst n; lia).
    rewrite lanes_on_device_nth by (subst n; lia).
    rewrite Z2Nat.id by lia. exact Hne.
Qed.

(** X4. Every call issues the data-init dispatch once, after the
    allocations of a first tile and before anything else. *)
Theorem data_init_is_first_dispatch fuel task rtile m p s :
  let r := path_trace fuel task rtile m p s in
  exists rest,
    events_since s (snd r) =
      (if first_tile (self s) then allocation_events m p (self s) else []) ++
      EvDataInit (global_size dispatch_strategy rtile m) local_size
        (m.(x) * m.(y)) (num_parallel_samples dispatch_strategy rtile m)
        (data_init_result (device (self s)) (data_inits s)) :: rest /\
    Forall (fun e => is_data_init e = false /\ is_alloc e = false) rest /\
    (data_init_result (device (self s)) (data_inits s) = false ->
     rest = [] /\ fst r = Returned false).
Proof.
  cbv zeta. rewrite path_trace_machine.
  destruct (path_trace_body_events fuel task rtile m p s)
    as (loop_evs & tail & Htr & Hin & Htail & _).
  cbv zeta in *. rewrite (events_since_app s _ _ Htr).
  exists (loop_evs ++ tail). unfold prologue. rewrite <- app_assoc. cbn [app].
  split; [reflexivity|]. split.
  - apply Forall_app. split.
    + eapply Forall_impl; [|exact Hin]. intros e He. destruct e; cbn in *;
        try discriminate; auto.
    + destruct Htail as [->|(ok & -> & _)]; repeat constructor.
  - intros Hno. rewrite path_trace_run.
    rewrite path_trace_body_run in Htr |- *. cbv zeta in *.
    rewrite Hno in *. cbn [negb fst snd] in *.
    split; [|reflexivity].
    rewrite initialised_trace in Htr. apply app_inv_head in Htr.
    rewrite <- (app_nil_r (prologue rtile m p s)) in Htr at 1.
    apply app_inv_head in Htr. symmetry. exact Htr.
Qed.

(** X5. A call that ends without a refusal and without an observed
    cancellation enqueues the reduction stage once, as its last dispatch,
    on a grid of 16 by 16 work groups that covers the tile. *)
Theorem reduction_closes_the_tile fuel task rtile m p s :
  tile_well_formed rtile ->
  let r := path_trace fuel task rtile m p s in
  let evs := events_since s (snd r) in
  fst r = Returned true ->
  existsb is_cancel evs = false ->
  exists pre gx gy,
    evs = pre ++ [EvEnqueue sum_all_radiance (gx, gy) (16, 16) true] /\
    Forall (fun e => is_enqueue_of sum_all_radiance e = false) pre /\
    (rtile.(w) <= gx < rtile.(w) + 16 /\ gx mod 16 = 0) /\
    (rtile.(h) <= gy < rtile.(h) + 16 /\ gy mod 16 = 0).
Proof.
  intros (Hw & Hh & _). cbv zeta. rewrite path_trace_machine. intros Hret Hobs.
  apply path_trace_returns_true in Hret. destruct Hret as [l Hl].
  destruct (path_trace_body_events fuel task rtile m p s)
    as (loop_evs & tail & Htr & Hin & Htail & _ & _ & _ & _ & Hres).
  cbv zeta in *. rewrite (events_since_app s _ _ Htr) in *.
  destruct (host_interventions_in_loop rtile m p s loop_evs tail Htail) as [_ Hc].
  rewrite Hc in Hobs. rewrite Hl in Hres.
  destruct Hres as (_ & _ & Hcan & _ & _ & _).
  rewrite Hobs in Hcan.
  (* the tail is the reduction stage *)
  assert (Ht : tail = [reduction rtile true]).
  { clear Hc. rewrite path_trace_body_run in Htr, Hl. cbv zeta in Htr, Hl.
    destruct (data_init_result _ _); cbn [negb] in *; [|discriminate].
    destruct (path_iteration_loop_trace fuel task (global_size dispatch_strategy rtile m)
                local_size (initial_locals s) (initialised rtile m p s))
      as (evs & Htr3 & _). cbv zeta in Htr3.
    destruct (path_iteration_loop _ _ _ _ _ _) as [[l'|b|] s3]; cbn [fst snd] in *;
      try discriminate.
    (* same locals *)
    destruct (canceled l') eqn:El; cbn [negb] in *.
    - injection Hl as ->. congruence.
    - destruct (enqueue_result _ _); cbn [fst snd] in *; [|discriminate].
      unfold finished in Htr. cbn [snd bind modify trace advance] in Htr.
      rewrite Htr3, initialised_trace, <- !app_assoc in Htr.
      apply app_inv_head in Htr. apply app_inv_head in Htr.
      (* evs ++ [reduction] = loop_evs ++ tail, with in_loop loop_evs *)
      clear - Htr Hin Htr3 Htail.
      destruct Htail as [->|(ok & -> & _)].
      + rewrite app_nil_r in Htr. subst loop_evs.
        apply Forall_app in Hin. destruct Hin as [_ Hin].
        inversion Hin; subst. discriminate.
      + apply app_inj_tail in Htr. destruct Htr as [_ E]. rewrite <- E. reflexivity. }
  subst tail.
  exists (prologue rtile m p s ++ loop_evs),
    (round_up rtile.(w) 16), (round_up rtile.(h) 16).
  split; [rewrite <- app_assoc; reflexivity|].
  split.
  { apply Forall_app. split; [apply (prologue_events rtile m p s)|].
    apply (in_loop_events loop_evs Hin). }
  split; apply round_up_bounds; lia.
Qed.

(** X6. The destructor frees the six buffers, each once and in the order
    of the source, whatever the calls of [load_kernels] and [path_trace]
    before it did and allocated; no other function frees. *)
Theorem destructor_frees_each_buffer_once dev calls :
  let s := perform_all calls (new_machine dev) in
  let r := delete_DeviceSplitKernel s in
  fst r = Normal tt /\
  self (snd r) = self s /\
  events_since s (snd r) = destructor_events /\
  filter is_free (trace (snd r)) = destructor_events.
Proof.
  cbv zeta.
  set (s := perform_all calls (new_machine dev)).
  assert (Htr : trace (snd (delete_DeviceSplitKernel s)) = trace s ++ destructor_events).
  { unfold delete_DeviceSplitKernel, destructor_events. cbn.
    rewrite <- !app_assoc. reflexivity. }
  split; [reflexivity|]. split; [reflexivity|].
  split; [apply events_since_app; exact Htr|].
  rewrite Htr, filter_app. subst s. rewrite perform_all_frees_nothing. reflexivity.
Qed.

(** X7. A call allocates exactly when the first-tile flag is set, and
    only a call that runs to its end clears the flag: after a first call
    that the device refused, the next call allocates every buffer again. *)
Theorem refused_first_tile_allocates_again fuel task rtile m p fuel' task' rtile' m' p' s :
  let r1 := path_trace fuel task rtile m p s in
  let r2 := path_trace fuel' task' rtile' m' p' (snd r1) in
  first_tile (self s) = true ->
  fst r1 = Returned false ->
  filter is_alloc (events_since s (snd r1)) = allocation_events m p (self s) /\
  first_tile (self (snd r1)) = true /\
  filter is_free (events_since s (snd r1)) = [] /\
  filter is_alloc (events_since (snd r1) (snd r2)) = allocation_events m' p' (self s).
Proof.
  cbv zeta. intros Hfirst Hret.
  destruct (path_trace_allocations fuel task rtile m p s) as (Htr & Halloc & _ & _).
  rewrite Hfirst in Halloc.
  assert (Hkeep : first_tile (self (snd (path_trace fuel task rtile m p s))) = true /\
                  current_max_closure (self (snd (path_trace fuel task rtile m p s)))
                    = current_max_closure (self s) /\
                  device (self (snd (path_trace fuel task rtile m p s)))
                    = device (self s) /\
                  filter is_free (events_since s (snd (path_trace fuel task rtile m p s)))
                    = []).
  { apply path_trace_returns_false in Hret. rewrite path_trace_machine.
    destruct (path_trace_body_events fuel task rtile m p s)
      as (loop_evs & tail & Htr' & Hin & Htail & _ & Hd & _ & Hc & Hres).
    cbv zeta in *. rewrite Hret in Hres. destruct Hres as (_ & Hf & _).
    rewrite (events_since_app s _ _ Htr').
    repeat split; try congruence.
    rewrite !filter_app.
    rewrite (filter_none is_free (prologue _ _ _ s))
      by apply (prologue_events rtile m p s).
    rewrite (filter_none is_free loop_evs) by apply (in_loop_events loop_evs Hin).
    destruct Htail as [->|(ok & -> & _)]; reflexivity. }
  destruct Hkeep as (Hf & Hc & Hd & Hfree).
  split; [exact Halloc|]. split; [exact Hf|]. split; [exact Hfree|].
  destruct (path_trace_allocations fuel' task' rtile' m' p'
              (snd (path_trace fuel task rtile m p s))) as (_ & Halloc' & _ & _).
  rewrite Hf in Halloc'. rewrite Halloc'.
  unfold allocation_events. rewrite Hc, Hd. reflexivity.
Qed.

End More.

(** ** Termination of a call *)

Section Termination.

Context {K : KernelTypes}.

Lemma scan_quiet dev r n rest :
  (forall i, 0 <= i < Z.of_nat n -> int8_t (ray_state_on_device dev r i) = RAY_INACTIVE) ->
  scan_ray_state n (lanes_on_device dev r n ++ rest) = false.
Proof.
  intros Hq. destruct (scan_ray_state n _) eqn:E; [|reflexivity].
  apply scan_finds_active_lane in E.
  - destruct E as (i & Hi & Hne). exfalso. apply Hne.
    rewrite app_nth1 by (rewrite lanes_on_device_length; exact Hi).
    rewrite lanes_on_device_nth by exact Hi. apply Hq. lia.
  - rewrite length_app, lanes_on_device_length. lia.
Qed.

Lemma batch_fields n task g l c s :
  device (self (snd (path_iterations n task g l c s))) = device (self s) /\
  read_backs (snd (path_iterations n task g l c s)) = read_backs s /\
  ray_state (self (snd (path_iterations n task g l c s))) = ray_state (self s) /\
  (polls s <= polls (snd (path_iterations n task g l c s)))%N.
Proof.
  destruct (path_iterations_run n task g l c s) as (evs & o & Hrun & _).
  rewrite Hrun. cbn. repeat split. lia.
Qed.

Lemma batch_run_completes g sh l c n evs o :
  batch_run g sh l c n evs o -> o <> OutOfFuel.
Proof. induction 1; try discriminate; assumption. Qed.

(** The loop ends when a read-back finds every lane inactive. *)
Lemma path_iteration_loop_ends_when_inactive fuel task g l :
  forall (R : nat) st s,
  (forall i, 0 <= i < dispatch_area g ->
     int8_t (ray_state_on_device (device (self s)) (read_backs s + N.of_nat R) i)
       = RAY_INACTIVE) ->
  (R < fuel)%nat ->
  fst (path_iteration_loop fuel task g l st s) <> OutOfFuel.
Proof.
  induction fuel as [|fuel IH]; intros R st s Hq Hfuel; [lia|].
  destruct (activeRaysAvailable st) eqn:Hact;
    [|rewrite (loop_exit _ _ _ _ _ _ Hact); discriminate].
  rewrite (loop_step _ _ _ _ _ _ Hact).
  destruct (batch_fields (Z.to_nat (path_iteration_times (self s))) task g l
              (canceled st) s) as (Hd & Hrb & _ & _).
  destruct (path_iterations_run (Z.to_nat (path_iteration_times (self s)))
              task g l (canceled st) s) as (evs & o & Hrun & Hshape & _).
  rewrite Hrun in *. cbn [snd] in Hd, Hrb.
  apply batch_run_completes in Hshape.
  destruct o as [c|b|]; cbv zeta; cbn [fst]; [|discriminate|exfalso; apply Hshape; reflexivity].
  set (s1 := advance evs s) in *.
  destruct (cancel_answer task _); [discriminate|].
  destruct R as [|R].
  - assert (Ha : still_active g s1 = false).
    { unfold still_active.
      change (ray_state (self (copied g s1))) with (ray_state (self (synced g s1))).
      rewrite synced_ray_state. apply scan_quiet. intros i Hi.
      rewrite Hd, Hrb. rewrite N.add_0_r in Hq. apply Hq.
      pose proof (dispatch_area_range g). lia. }
    rewrite Ha. rewrite loop_exit by reflexivity. discriminate.
  - apply (IH R); [|lia].
    intros i Hi. cbn [advance self device read_backs].
    assert (E1 : device (self (retimed (still_active g s1) (synced g s1)))
                 = device (self s)).
    { destruct (still_active g s1); cbn; exact Hd. }
    assert (E2 : read_backs (retimed (still_active g s1) (synced g s1))
                 = N.succ (read_backs s)).
    { destruct (still_active g s1); reflexivity. }
    rewrite E1, E2.
    replace (N.succ (read_backs s) + N.of_nat R)%N
      with (read_backs s + N.of_nat (S R))%N by lia.
    apply Hq. exact Hi.
Qed.

(** The loop ends when the task is canceled. *)
Lemma path_iteration_loop_ends_when_canceled fuel task g l :
  forall (c : nat) st s,
  (forall i, (polls s + N.of_nat c <= i)%N -> cancel_answer task i = true) ->
  (c < fuel)%nat ->
  fst (path_iteration_loop fuel task g l st s) <> OutOfFuel.
Proof.
  induction fuel as [|fuel IH]; intros c st s Hc Hfuel; [lia|].
  destruct (activeRaysAvailable st) eqn:Hact;
    [|rewrite (loop_exit _ _ _ _ _ _ Hact); discriminate].
  rewrite (loop_step _ _ _ _ _ _ Hact).
  destruct (batch_fields (Z.to_nat (path_iteration_times (self s))) task g l
              (canceled st) s) as (_ & _ & _ & Hp).
  destruct (path_iterations_run (Z.to_nat (path_iteration_times (self s)))
              task g l (canceled st) s) as (evs & o & Hrun & Hshape & _).
  rewrite Hrun in *. cbn [snd] in Hp.
  apply batch_run_completes in Hshape.
  destruct o as [c0|b|]; cbv zeta; cbn [fst]; [|discriminate|exfalso; apply Hshape; reflexivity].
  set (s1 := advance evs s) in *.
  rewrite retimed_polls.
  change (polls (synced g s1)) with (polls s1).
  destruct (cancel_answer task (polls s1)) eqn:Ec; [discriminate|].
  destruct c as [|c].
  - rewrite Hc in Ec by lia. discriminate.
  - apply (IH c); [|lia].
    intros i Hi. apply Hc.
    cbn [advance polls filter is_poll length] in Hi.
    rewrite retimed_polls in Hi. change (polls (synced g s1)) with (polls s1) in Hi.
    lia.
Qed.

Lemma initialised_counters rtile m p s :
  read_backs (initialised rtile m p s) = read_backs s /\
  polls (initialised rtile m p s) = polls s.
Proof.
  unfold initialised, enqueue_split_kernel_data_init. cbn [snd read_backs polls].
  unfold prepared, allocate_global_memory.
  destruct (first_tile (self s)); [|split; reflexivity].
  destruct dispatch_strategy; split; reflexivity.
Qed.

Lemma path_trace_returns_when_loop_ends fuel task rtile m p s :
  (data_init_result (device (self s)) (data_inits s) = true ->
   fst (path_iteration_loop fuel task (global_size dispatch_strategy rtile m) local_size
          (initial_locals s) (initialised rtile m p s)) <> OutOfFuel) ->
  exists b, fst (path_trace fuel task rtile m p s) = Returned b.
Proof.
  intros Hloop. rewrite path_trace_run, path_trace_body_run. cbv zeta.
  destruct (data_init_result _ _); cbn [negb]; [|eexists; reflexivity].
  specialize (Hloop eq_refl).
  destruct (path_iteration_loop _ _ _ _ _ _) as [[l|b|] s3]; cbn [fst] in *.
  - destruct (canceled l); cbn [negb]; [eexists; reflexivity|].
    destruct (enqueue_result _ _); eexists; reflexivity.
  - eexists; reflexivity.
  - contradiction.
Qed.

(** X8. [path_trace] returns once the device's lanes have all become
    inactive: when the [R]-th read-back from now finds no active lane in
    the dispatch area, [R + 1] passes of the outer loop are enough. *)
Theorem path_trace_returns_when_lanes_inactive fuel task rtile m p s (R : nat) :
  (forall i, 0 <= i < dispatch_area (global_size dispatch_strategy rtile m) ->
     int8_t (ray_state_on_device (device (self s)) (read_backs s + N.of_nat R) i)
       = RAY_INACTIVE) ->
  (R < fuel)%nat ->
  exists b, fst (path_trace fuel task rtile m p s) = Returned b.
Proof.
  intros Hq Hfuel. apply path_trace_returns_when_loop_ends. intros _.
  apply (path_iteration_loop_ends_when_inactive fuel task _ _ R); [|exact Hfuel].
  destruct (initialised_fields rtile m p s) as (Hd & _).
  destruct (initialised_counters rtile m p s) as (Hrb & _).
  rewrite Hd, Hrb. exact Hq.
Qed.

(** X9. [path_trace] returns once the task is canceled: when every poll
    from the [c]-th from now on answers yes, [c + 1] passes of the outer
    loop are enough, whatever the lanes do. *)
Theorem path_trace_returns_when_canceled fuel task rtile m p s (c : nat) :
  (forall i, (polls s + N.of_nat c <= i)%N -> cancel_answer task i = true) ->
  (c < fuel)%nat ->
  exists b, fst (path_trace fuel task rtile m p s) = Returned b.
Proof.
  intros Hc Hfuel. apply path_trace_returns_when_loop_ends. intros _.
  apply (path_iteration_loop_ends_when_canceled fuel task _ _ c); [|exact Hfuel].
  destruct (initialised_counters rtile m p s) as (_ & Hp).
  rewrite Hp. exact Hc.
Qed.

End Termination.

(** ** After a cancellation *)

Section Loop.

Context {K : KernelTypes}.

Lemma events_after_cancel_none evs :
  existsb is_cancel evs = false -> events_after_cancel evs = [].
Proof.
  induction evs as [|e evs IH]; [reflexivity|].
  cbn [existsb]. intros H. apply orb_false_elim in H. destruct H as [He H].
  destruct e; cbn [events_after_cancel]; auto.
  destruct answer; [discriminate|auto].
Qed.

Lemma events_after_cancel_app evs1 evs2 :
  events_after_cancel (evs1 ++ evs2) =
    if existsb is_cancel evs1 then events_after_cancel evs1 ++ evs2
    else events_after_cancel evs2.
Proof.
  induction evs1 as [|e evs1 IH]; [reflexivity|].
  cbn [app existsb].
  destruct e; cbn [events_after_cancel is_cancel orb]; auto.
  destruct answer; cbn [orb]; auto.
Qed.

Lemma batch_after_cancel g sh l c n evs o :
  batch_run g sh l c n evs o -> events_after_cancel evs = [].
Proof.
  induction 1.
  - reflexivity.
  - reflexivity.
  - apply events_after_cancel_none.
    unfold refused_round. do 9 (destruct j as [|j]; [reflexivity|]). lia.
  - exact IHbatch_run.
Qed.

(** The trace of a call around its outer loop. *)
Lemma path_trace_body_loop fuel task rtile m p s :
  let g := global_size dispatch_strategy rtile m in
  let s2 := initialised rtile m p s in
  let lr := path_iteration_loop fuel task g local_size (initial_locals s) s2 in
  data_init_result (device (self s)) (data_inits s) = true ->
  exists tail,
    trace (snd (path_trace_body fuel task rtile m p s)) =
      trace s ++ prologue rtile m p s ++ events_since s2 (snd lr) ++ tail /\
    ray_state (self (snd (path_trace_body fuel task rtile m p s)))
      = ray_state (self (snd lr)) /\
    match fst lr with
    | Normal l =>
        if canceled l then tail = []
        else exists ok, tail = [reduction rtile ok] /\
               (fst (path_trace_body fuel task rtile m p s) = Normal l -> ok = true)
    | _ => tail = []
    end.
Proof.
  cbv zeta. intros Hok. rewrite path_trace_body_run. cbv zeta. rewrite Hok.
  cbn [negb].
  destruct (path_iteration_loop_trace fuel task (global_size dispatch_strategy rtile m)
              local_size (initial_locals s) (initialised rtile m p s))
    as (evs & Htr3 & _). cbv zeta in Htr3.
  rewrite (events_since_app _ _ evs Htr3).
  pose proof (initialised_trace rtile m p s) as Htr.
  destruct (path_iteration_loop _ _ _ _ _ _) as [[l|b|] s3]; cbn [fst snd] in *.
  - destruct (canceled l); cbn [negb].
    + exists []. rewrite app_nil_r. unfold finished. cbn [snd bind modify trace self].
      rewrite Htr3, Htr, <- app_assoc. auto.
    + destruct (enqueue_result _ _); cbn [fst snd].
      * exists [reduction rtile true]. unfold finished.
        cbn [snd bind modify trace self advance].
        rewrite Htr3, Htr, <- !app_assoc. split; [reflexivity|].
        split; [reflexivity|]. exists true. auto.
      * exists [reduction rtile false]. cbn [trace self advance].
        rewrite Htr3, Htr, <- !app_assoc. split; [reflexivity|].
        split; [reflexivity|]. exists false. split; [reflexivity|discriminate].
  - exists []. rewrite app_nil_r, Htr3, Htr, <- app_assoc. auto.
  - exists []. rewrite app_nil_r, Htr3, Htr, <- app_assoc. auto.
Qed.

(** Once a poll has found a sticky task canceled, the loop does no more
    than the read-back, the scan and the poll that were pending. *)
Lemma path_iteration_loop_after_cancel fuel task g l :
  sticky task ->
  forall st s,
  let r := path_iteration_loop fuel task g l st s in
  let evs := events_since s (snd r) in
  (events_after_cancel evs = [] \/
   exists a, events_after_cancel evs =
     [EvMemCopyFrom ray_state_mem (dispatch_area g); EvScan a; EvGetCancel true]) /\
  (existsb is_cancel evs = true -> exists st', fst r = Normal st' /\ canceled st' = true).
Proof.
  intros Hsticky. induction fuel as [|fuel IH]; intros st s;
    destruct (activeRaysAvailable st) eqn:Hact; cbv zeta;
    try (rewrite (loop_exit _ _ _ _ _ _ Hact); cbn [fst snd];
         rewrite (events_since_app s s []) by (rewrite app_nil_r; reflexivity);
         split; [left; reflexivity|discriminate]).
  - rewrite (loop_out_of_fuel _ _ _ _ _ Hact). cbn [fst snd].
    rewrite (events_since_app s s []) by (rewrite app_nil_r; reflexivity).
    split; [left; reflexivity|discriminate].
  - rewrite (loop_step _ _ _ _ _ _ Hact).
    destruct (path_iterations_run (Z.to_nat (path_iteration_times (self s)))
                task g l (canceled st) s) as (evs & o & Hrun & Hshape & Hpolled).
    rewrite Hrun.
    pose proof (batch_after_cancel _ _ _ _ _ _ _ Hshape) as Hafter.
    pose proof (batch_run_cancel _ _ _ _ _ _ _ Hshape) as Hcan.
    destruct o as [c|b|]; cbv zeta.
    + set (a := still_active g (advance evs s)).
      set (s3 := retimed a (synced g (advance evs s))).
      pose proof (body_trace task g a (advance evs s)) as Htr.
      fold s3 in Htr. cbv zeta in Htr. rewrite copy_size in Htr.
      assert (Hp3 : polls s3 = polls (advance evs s)).
      { subst s3. rewrite retimed_polls. reflexivity. }
      set (s4 := advance [EvGetCancel (cancel_answer task (polls s3))] s3) in *.
      cbn [advance trace] in Htr. fold a in Htr.
      destruct (existsb is_cancel evs) eqn:Eb.
      * (* the batch was canceled: the poll after the scan says so too *)
        destruct (Hpolled eq_refl) as (q & Hq & Hans).
        assert (Ec : cancel_answer task (polls s3) = true).
        { rewrite Hp3. apply (Hsticky q); [lia|exact Hans]. }
        rewrite Ec. cbn [fst snd].
        rewrite (events_since_app s s4 (evs ++ [EvMemCopyFrom ray_state_mem (dispatch_area g);
                                              EvScan a; EvGetCancel true]))
          by (rewrite Htr, <- app_assoc; rewrite Hp3 in Ec; rewrite Ec; reflexivity).
        rewrite events_after_cancel_app, Eb, Hafter. cbn [app].
        split; [right; exists a; reflexivity|]. intros _. eauto.
      * destruct (cancel_answer task (polls s3)) eqn:Ec.
        -- cbn [fst snd].
           rewrite (events_since_app s s4 (evs ++ [EvMemCopyFrom ray_state_mem
                                                   (dispatch_area g);
                                                 EvScan a; EvGetCancel true]))
             by (rewrite Htr, <- app_assoc; rewrite Hp3 in Ec; rewrite Ec; reflexivity).
           rewrite events_after_cancel_app, Eb. cbn [events_after_cancel].
           split; [left; reflexivity|]. intros _. eauto.
        -- destruct (path_iteration_loop_trace fuel task g l (intervened a c st) s4)
             as (evs' & Htr' & _). cbv zeta in Htr'.
           specialize (IH (intervened a c st) s4). cbv zeta in IH.
           rewrite (events_since_app s4 _ evs' Htr') in IH.
           rewrite (events_since_app s _ (evs ++ [EvMemCopyFrom ray_state_mem
                                                   (dispatch_area g);
                                                 EvScan a; EvGetCancel false] ++ evs'))
             by (rewrite Htr', Htr, <- !app_assoc; rewrite Hp3 in Ec; rewrite Ec;
                 reflexivity).
           rewrite events_after_cancel_app, Eb. cbn [app events_after_cancel].
           rewrite existsb_app, Eb. cbn [existsb is_cancel orb]. exact IH.
    + cbn [fst snd]. rewrite (events_since_app s _ evs) by reflexivity.
      rewrite Hafter, Hcan. split; [left; reflexivity|discriminate].
    + cbn [fst snd]. rewrite (events_since_app s _ evs) by reflexivity.
      rewrite Hafter, Hcan. split; [left; reflexivity|discriminate].
Qed.

(** X10. Once a poll has found the task canceled, with a cancellation that
    stays raised, a call issues no further dispatch: it does at most the
    pending read-back, its scan and one more poll. *)
Theorem no_dispatch_after_cancellation fuel task rtile m p s :
  sticky task ->
  let r := path_trace fuel task rtile m p s in
  let after := events_after_cancel (events_since s (snd r)) in
  after = [] \/
  exists a, after =
    [EvMemCopyFrom ray_state_mem
       (dispatch_area (global_size dispatch_strategy rtile m));
     EvScan a; EvGetCancel true].
Proof.
  intros Hsticky. cbv zeta. rewrite path_trace_machine.
  destruct (data_init_result (device (self s)) (data_inits s)) eqn:Hok.
  - destruct (path_trace_body_loop fuel task rtile m p s Hok) as (tail & Htr & _ & Htail).
    cbv zeta in *. rewrite (events_since_app s _ _ Htr).
    destruct (prologue_events rtile m p s) as (_ & Hp & _).
    rewrite (events_after_cancel_app (prologue rtile m p s)), Hp.
    destruct (path_iteration_loop_after_cancel fuel task
                (global_size dispatch_strategy rtile m) local_size Hsticky
                (initial_locals s) (initialised rtile m p s)) as [Hafter Hflag].
    cbv zeta in Hafter, Hflag.
    set (loop_evs := events_since (initialised rtile m p s) _) in *.
    rewrite (events_after_cancel_app loop_evs).
    destruct (existsb is_cancel loop_evs) eqn:Eb.
    + destruct (Hflag eq_refl) as (st' & Hst & Hc). rewrite Hst, Hc in Htail.
      subst tail. rewrite app_nil_r. exact Hafter.
    + left. apply events_after_cancel_none.
      destruct (fst (path_iteration_loop _ _ _ _ _ _)) as [l| |].
      * destruct (canceled l); [subst tail; reflexivity|].
        destruct Htail as (ok & -> & _). reflexivity.
      * subst tail. reflexivity.
      * subst tail. reflexivity.
  - rewrite path_trace_body_run. cbv zeta. rewrite Hok. cbn [negb snd].
    rewrite (events_since_app s _ _ (initialised_trace rtile m p s)).
    left. apply events_after_cancel_none.
    unfold prologue, allocation_events.
    destruct (first_tile (self s)); destruct dispatch_strategy; reflexivity.
Qed.

End Loop.

(** ** Passes of a tile *)

Section Counting.

Context {K : KernelTypes}.

Lemma enqueues_of_app k evs1 evs2 :
  enqueues_of k (evs1 ++ evs2) = (enqueues_of k evs1 + enqueues_of k evs2)%nat.
Proof. unfold enqueues_of. rewrite filter_app, length_app. reflexivity. Qed.

Lemma read_back_count_app evs1 evs2 :
  read_back_count (evs1 ++ evs2) = (read_back_count evs1 + read_back_count evs2)%nat.
Proof. unfold read_back_count. rewrite filter_app, length_app. reflexivity. Qed.

(** A batch that ran to its end without cancellation has issued each
    stage once per pass. *)
Lemma batch_passes g sh l c n evs c' :
  batch_run g sh l c n evs (Normal c') ->
  existsb is_cancel evs = false ->
  forall k, k <> sum_all_radiance ->
    enqueues_of k evs = n /\ read_back_count evs = 0%nat.
Proof.
  intros H. remember (Normal c') as o eqn:Eo. revert Eo.
  induction H; intros Eo Hobs k Hk.
  - split; reflexivity.
  - cbn in Hobs. discriminate.
  - discriminate.
  - rewrite existsb_app in Hobs. cbn [existsb is_cancel round_events orb] in Hobs.
    destruct (IHbatch_run Eo Hobs k Hk) as [IH1 IH2].
    rewrite enqueues_of_app, read_back_count_app.
    change (EvGetCancel false :: evs) with ([EvGetCancel false] ++ evs).
    rewrite enqueues_of_app, read_back_count_app, IH1, IH2.
    split; [|reflexivity].
    destruct k; try contradiction; reflexivity.
Qed.

(** The passes and read-backs of an outer loop that ended without
    cancellation: the budget of the first batch, then the increment for
    each host intervention; one read-back more than host interventions. *)
Lemma path_iteration_loop_passes fuel task g l :
  forall st s st',
  let r := path_iteration_loop fuel task g l st s in
  let evs := events_since s (snd r) in
  fst r = Normal st' ->
  existsb is_cancel evs = false ->
  forall k, k <> sum_all_radiance ->
    enqueues_of k evs =
      (if activeRaysAvailable st
       then Z.to_nat (path_iteration_times (self s)) +
            Z.to_nat (host_interventions evs) * Z.to_nat (to_unsigned PATH_ITER_INC_FACTOR)
       else 0)%nat /\
    read_back_count evs =
      (if activeRaysAvailable st then S (Z.to_nat (host_interventions evs)) else 0)%nat.
Proof.
  induction fuel as [|fuel IH]; intros st s st'; cbv zeta;
    destruct (activeRaysAvailable st) eqn:Hact;
    try (rewrite (loop_exit _ _ _ _ _ _ Hact); cbn [fst snd];
         rewrite (events_since_app s s []) by (rewrite app_nil_r; reflexivity);
         intros _ _ k Hk; split; reflexivity).
  - rewrite (loop_out_of_fuel _ _ _ _ _ Hact). discriminate.
  - rewrite (loop_step _ _ _ _ _ _ Hact).
    destruct (path_iterations_run (Z.to_nat (path_iteration_times (self s)))
                task g l (canceled st) s) as (evs & o & Hrun & Hshape & _).
    rewrite Hrun.
    pose proof (batch_no_intervention _ _ _ _ _ _ _ Hshape) as Hk0.
    destruct o as [c|b|]; cbv zeta; [|discriminate|discriminate].
    set (a := still_active g (advance evs s)).
    set (s3 := retimed a (synced g (advance evs s))).
    pose proof (body_trace task g a (advance evs s)) as Htr.
    fold s3 in Htr. cbv zeta in Htr.
    assert (Hpit : path_iteration_times (self s3) =
                   if a then to_unsigned PATH_ITER_INC_FACTOR
                   else path_iteration_times (self s)).
    { subst s3. rewrite retimed_path_iteration_times. reflexivity. }
    set (s4 := advance [EvGetCancel (cancel_answer task (polls s3))] s3) in *.
    assert (Hpit4 : path_iteration_times (self s4) = path_iteration_times (self s3))
      by reflexivity.
    cbn [advance trace] in Htr. fold a in Htr.
    set (body := [EvMemCopyFrom ray_state_mem (to_size_t (dispatch_area g * 1));
                  EvScan a;
                  EvGetCancel (cancel_answer task (polls (advance evs s)))]) in *.
    assert (Hp3 : polls s3 = polls (advance evs s)).
    { subst s3. rewrite retimed_polls. reflexivity. }
    destruct (cancel_answer task (polls s3)) eqn:Ec.
    + cbn [fst snd]. intros _ Hobs. exfalso.
      rewrite (events_since_app s s4 (evs ++ body))
        in Hobs by (rewrite Htr, <- app_assoc; reflexivity).
      rewrite existsb_app in Hobs. apply orb_false_elim in Hobs.
      destruct Hobs as [_ Hobs]. subst body. rewrite <- Hp3, Ec in Hobs.
      cbn in Hobs. discriminate.
    + destruct (path_iteration_loop_trace fuel task g l (intervened a c st) s4)
        as (evs' & Htr' & _). cbv zeta in Htr'.
      specialize (IH (intervened a c st) s4 st'). cbv zeta in IH.
      rewrite (events_since_app s4 _ evs' Htr') in IH.
      rewrite (events_since_app s _ (evs ++ body ++ evs'))
        by (rewrite Htr', Htr, <- !app_assoc; reflexivity).
      intros Hres Hobs k Hk.
      rewrite !existsb_app in Hobs.
      apply orb_false_elim in Hobs. destruct Hobs as [Hobs1 Hobs].
      apply orb_false_elim in Hobs. destruct Hobs as [_ Hobs'].
      destruct (batch_passes _ _ _ _ _ _ _ Hshape Hobs1 k Hk) as [Hb1 Hb2].
      destruct (IH Hres Hobs' k Hk) as [IH1 IH2].
      rewrite !enqueues_of_app, !read_back_count_app, !host_interventions_app.
      rewrite Hb1, Hb2, IH1, IH2, Hk0, Hpit4, Hpit.
      pose proof (host_interventions_nonneg evs') as Hnn.
      assert (Hbody : enqueues_of k body = 0%nat /\ read_back_count body = 1%nat /\
                      host_interventions body = if a then 1 else 0).
      { subst body. destruct a; repeat split. }
      destruct Hbody as (-> & -> & ->).
      destruct a; cbn [intervened activeRaysAvailable].
      * rewrite Z.add_0_l, Z2Nat.inj_add by lia. cbn [Z.to_nat Pos.to_nat Pos.iter_op].
        split; lia.
      * (* the loop has ended: nothing follows *)
        rewrite loop_exit in Htr' by reflexivity. cbn [snd] in Htr'.
        rewrite <- (app_nil_r (trace s4)) in Htr' at 1.
        apply app_inv_head in Htr'. subst evs'.
        cbn. split; lia.
Qed.

(** X11. A tile that is rendered to its end without cancellation runs the
    nine stages once per pass: as many passes as the starting budget,
    and as many as the increment again for each host intervention. It
    reads the ray state back once more than it intervenes. *)
Theorem passes_of_a_tile fuel task rtile m p s :
  let r := path_trace fuel task rtile m p s in
  let evs := events_since s (snd r) in
  let k := Z.to_nat (host_interventions evs) in
  fst r = Returned true ->
  existsb is_cancel evs = false ->
  (forall stage, stage <> sum_all_radiance ->
     enqueues_of stage evs =
       (Z.to_nat (path_iteration_times (self s)) +
        k * Z.to_nat (to_unsigned PATH_ITER_INC_FACTOR))%nat) /\
  enqueues_of sum_all_radiance evs = 1%nat /\
  read_back_count evs = S k.
Proof.
  cbv zeta. rewrite path_trace_machine. intros Hret Hobs.
  apply path_trace_returns_true in Hret. destruct Hret as [l Hl].
  destruct (data_init_result (device (self s)) (data_inits s)) eqn:Hok.
  2:{ rewrite path_trace_body_run in Hl. cbv zeta in Hl. rewrite Hok in Hl.
      discriminate. }
  destruct (path_trace_body_loop fuel task rtile m p s Hok) as (tail & Htr & _ & Htail).
  cbv zeta in *. rewrite (events_since_app s _ _ Htr) in *.
  set (g := global_size dispatch_strategy rtile m) in *.
  set (s2 := initialised rtile m p s) in *.
  pose proof (path_iteration_loop_passes fuel task g local_size (initial_locals s) s2) as Hloop.
  cbv zeta in Hloop.
  set (loop_evs := events_since s2 _) in *.
  destruct (prologue_events rtile m p s) as (Hp1 & Hp2 & _).
  rewrite !existsb_app in Hobs.
  apply orb_false_elim in Hobs. destruct Hobs as [_ Hobs].
  apply orb_false_elim in Hobs. destruct Hobs as [Hobs _].
  (* the loop ended normally, not canceled *)
  assert (Hnormal : fst (path_iteration_loop fuel task g local_size (initial_locals s) s2)
                    = Normal l /\ canceled l = false).
  { rewrite path_trace_body_run in Hl. cbv zeta in Hl. rewrite Hok in Hl.
    cbn [negb] in Hl. fold g s2 in Hl.
    pose proof (path_iteration_loop_cancel fuel task g local_size (initial_locals s) s2)
      as Hc. cbv zeta in Hc. fold loop_evs in Hc.
    destruct (path_iteration_loop fuel task g local_size (initial_locals s) s2)
      as [[l'|b|] s3]; cbn [fst snd] in *; try discriminate.
    destruct Hc as [Hc _]. rewrite Hobs in Hc. cbn in Hc.
    rewrite Hc in Hl. cbn [negb] in Hl.
    destruct (enqueue_result _ _); [|discriminate].
    injection Hl as <-. auto. }
  destruct Hnormal as [Hn Hcl]. rewrite Hn, Hcl in Htail.
  destruct Htail as (ok & -> & Hokk). specialize (Hokk Hl). subst ok.
  assert (Hpro : forall stage, enqueues_of stage (prologue rtile m p s) = 0%nat /\
                               read_back_count (prologue rtile m p s) = 0%nat).
  { intros stage. unfold prologue, allocation_events.
    destruct (first_tile (self s)); destruct dispatch_strategy; split; reflexivity. }
  rewrite !host_interventions_app, Hp1.
  change (host_interventions [reduction rtile true]) with 0.
  rewrite Z.add_0_l, Z.add_0_r.
  assert (Hall : forall stage,
            enqueues_of stage (prologue rtile m p s ++ loop_evs ++ [reduction rtile true])
            = (enqueues_of stage loop_evs
               + enqueues_of stage [reduction rtile true])%nat).
  { intros stage. rewrite !enqueues_of_app. destruct (Hpro stage) as [-> _]. lia. }
  split; [|split].
  - intros stage Hstage. rewrite Hall.
    destruct (Hloop l Hn Hobs stage Hstage) as [-> _].
    cbn [initial_locals activeRaysAvailable].
    change (path_iteration_times (self s2)) with (path_iteration_times (self (prepared m p s))).
    destruct (prepared_fields m p s) as (_ & _ & _ & _ & -> & _).
    destruct stage; try contradiction; cbn; lia.
  - rewrite Hall.
    assert (Hnone : enqueues_of sum_all_radiance loop_evs = 0%nat).
    { destruct (path_iteration_loop_trace fuel task g local_size (initial_locals s) s2)
        as (evs & Htr3 & _ & Hin & _). cbv zeta in Htr3.
      subst loop_evs. rewrite (events_since_app _ _ evs Htr3).
      unfold enqueues_of. rewrite filter_none; [reflexivity|].
      apply (in_loop_events evs Hin). }
    rewrite Hnone. reflexivity.
  - rewrite !read_back_count_app. destruct (Hpro scene_intersect) as [_ ->].
    destruct (Hloop l Hn Hobs scene_intersect ltac:(discriminate)) as [_ ->].
    cbn [initial_locals activeRaysAvailable]. cbn. lia.
Qed.

End Counting.

(** ** The host vector of ray states *)

Section Buffers.

Context {K : KernelTypes}.

Lemma resize_length n data : length (resize n data) = Z.to_nat n.
Proof.
  unfold resize. rewrite length_app, length_firstn, repeat_length. lia.
Qed.

Lemma synced_length g s :
  (Z.to_nat (dispatch_area g) <= length (ray_state (self s)))%nat ->
  length (ray_state (self (synced g s))) = length (ray_state (self s)).
Proof.
  intros H. rewrite synced_ray_state, length_app, lanes_on_device_length, length_skipn.
  lia.
Qed.

Lemma batch_reads_back g sh l c n evs o size :
  batch_run g sh l c n evs o -> Forall (reads_back size) evs.
Proof.
  intros H. apply batch_run_events in H.
  eapply Forall_impl; [|exact H].
  intros [] [[H1 _]|H1]; cbn in *; try discriminate; exact I.
Qed.

(** The outer loop reads back the dispatch area, and leaves the host
    vector as long as it was when the area fits. *)
Lemma path_iteration_loop_ray_state fuel task g l :
  forall st s,
  (Z.to_nat (dispatch_area g) <= length (ray_state (self s)))%nat ->
  let r := path_iteration_loop fuel task g l st s in
  length (ray_state (self (snd r))) = length (ray_state (self s)) /\
  Forall (reads_back (dispatch_area g)) (events_since s (snd r)).
Proof.
  induction fuel as [|fuel IH]; intros st s Hfit; cbv zeta;
    destruct (activeRaysAvailable st) eqn:Hact;
    try (rewrite (loop_exit _ _ _ _ _ _ Hact); cbn [fst snd];
         rewrite (events_since_app s s []) by (rewrite app_nil_r; reflexivity);
         split; [reflexivity|constructor]).
  - rewrite (loop_out_of_fuel _ _ _ _ _ Hact). cbn [fst snd].
    rewrite (events_since_app s s []) by (rewrite app_nil_r; reflexivity).
    split; [reflexivity|constructor].
  - rewrite (loop_step _ _ _ _ _ _ Hact).
    destruct (path_iterations_run (Z.to_nat (path_iteration_times (self s)))
                task g l (canceled st) s) as (evs & o & Hrun & Hshape & _).
    rewrite Hrun.
    pose proof (batch_reads_back _ _ _ _ _ _ _ (dispatch_area g) Hshape) as Hb.
    destruct o as [c|b|]; cbv zeta.
    + set (a := still_active g (advance evs s)).
      set (s3 := retimed a (synced g (advance evs s))).
      pose proof (body_trace task g a (advance evs s)) as Htr.
      fold s3 in Htr. cbv zeta in Htr. rewrite copy_size in Htr.
      assert (Hlen3 : length (ray_state (self s3)) = length (ray_state (self s))).
      { subst s3. destruct a; cbn [retimed snd modify self set_path_iteration_times
                                     ray_state];
          apply (synced_length g (advance evs s)); exact Hfit. }
      set (s4 := advance [EvGetCancel (cancel_answer task (polls s3))] s3) in *.
      cbn [advance trace] in Htr.
      set (body := [EvMemCopyFrom ray_state_mem (dispatch_area g);
                    EvScan (still_active g (advance evs s));
                    EvGetCancel (cancel_answer task (polls (advance evs s)))]) in *.
      assert (Hbody : Forall (reads_back (dispatch_area g)) body).
      { subst body. repeat constructor. }
      destruct (cancel_answer task (polls s3)) eqn:Ec.
      * cbn [fst snd].
        rewrite (events_since_app s s4 (evs ++ body))
          by (rewrite Htr, <- app_assoc; reflexivity).
        split; [exact Hlen3|]. apply Forall_app. auto.
      * destruct (path_iteration_loop_trace fuel task g l (intervened a c st) s4)
          as (evs' & Htr' & _). cbv zeta in Htr'.
        destruct (IH (intervened a c st) s4) as [IH1 IH2].
        { change (ray_state (self s4)) with (ray_state (self s3)).
          rewrite Hlen3. exact Hfit. }
        rewrite (events_since_app s4 _ evs' Htr') in IH2.
        rewrite (events_since_app s _ (evs ++ body ++ evs'))
          by (rewrite Htr', Htr, <- !app_assoc; reflexivity).
        split.
        -- rewrite IH1. exact Hlen3.
        -- repeat (apply Forall_app; split); assumption.
    + cbn [fst snd]. rewrite (events_since_app s _ evs) by reflexivity.
      split; [reflexivity|exact Hb].
    + cbn [fst snd]. rewrite (events_since_app s _ evs) by reflexivity.
      split; [reflexivity|exact Hb].
Qed.

Lemma initialised_ray_state rtile m p s :
  length (ray_state (self (initialised rtile m p s))) =
    if first_tile (self s) then Z.to_nat (num_global_elements m)
    else length (ray_state (self s)).
Proof.
  unfold initialised, enqueue_split_kernel_data_init. cbn [snd self].
  unfold prepared, allocate_global_memory.
  destruct (first_tile (self s)); [|reflexivity].
  destruct dispatch_strategy; cbn; apply resize_length.
Qed.

(** X12. The host vector of ray states has one entry for each lane of a
    maximum feasible tile from the first tile on, and a call whose
    dispatch area fits in it reads back exactly the dispatch area and
    leaves the vector's length alone. *)
Theorem read_backs_stay_within_ray_state fuel task rtile m p s :
  let g := global_size dispatch_strategy rtile m in
  let lanes :=
    if first_tile (self s) then Z.to_nat (num_global_elements m)
    else length (ray_state (self s)) in
  (Z.to_nat (dispatch_area g) <= lanes)%nat ->
  let r := path_trace fuel task rtile m p s in
  length (ray_state (self (snd r))) = lanes /\
  Forall (reads_back (dispatch_area g)) (events_since s (snd r)).
Proof.
  cbv zeta. intros Hfit. rewrite path_trace_machine.
  pose proof (initialised_ray_state rtile m p s) as Hlen.
  destruct (data_init_result (device (self s)) (data_inits s)) eqn:Hok.
  - destruct (path_trace_body_loop fuel task rtile m p s Hok) as (tail & Htr & Hrs & Htail).
    cbv zeta in *. rewrite (events_since_app s _ _ Htr), Hrs.
    destruct (path_iteration_loop_ray_state fuel task
                (global_size dispatch_strategy rtile m) local_size
                (initial_locals s) (initialised rtile m p s)) as [H1 H2].
    { rewrite Hlen. exact Hfit. }
    cbv zeta in H1, H2. split; [rewrite H1; exact Hlen|].
    apply Forall_app. split.
    { unfold prologue, allocation_events.
      destruct (first_tile (self s)); destruct dispatch_strategy; repeat constructor. }
    apply Forall_app. split; [exact H2|].
    destruct (fst (path_iteration_loop _ _ _ _ _ _)) as [l| |].
    + destruct (canceled l); [subst tail; constructor|].
      destruct Htail as (ok & -> & _). repeat constructor.
    + subst tail. constructor.
    + subst tail. constructor.
  - rewrite path_trace_body_run. cbv zeta. rewrite Hok. cbn [negb snd].
    split; [exact Hlen|].
    rewrite (events_since_app s _ _ (initialised_trace rtile m p s)).
    unfold prologue, allocation_events.
    destruct (first_tile (self s)); destruct dispatch_strategy; repeat constructor.
Qed.

End Buffers.

(** ** [load_kernels] *)

Ltac load_handles k :=
  rewrite LOAD_KERNEL_then, ?loaded_device;
  match goal with
  | |- context [get_split_kernel_function ?d k ?f] =>
      let E := fresh "E" in
      destruct (get_split_kernel_function d k f) eqn:E;
      [|cbn [fst snd]; split;
        [intros k'; unfold first_missing, all_kernels; cbn [find];
         rewrite ?loaded_kernel_handle;
         destruct k';
         repeat match goal with
                | H : get_split_kernel_function _ _ _ = _ |- _ => rewrite H
                end;
         reflexivity
        |repeat split]]
  end.

(** X13. [load_kernels] stores what the device resolves, stage by stage in
    the order of the source, up to and including the first stage that
    is missing; the stages after it keep the handle they had. Nothing
    else of the scheduler changes, and the device is not asked to do
    anything. *)
Theorem load_kernels_handles requested_features s :
  let dev := device (self s) in
  let r := load_kernels requested_features s in
  (forall k,
     kernel_handle (self (snd r)) k =
       match first_missing dev requested_features with
       | None => get_split_kernel_function dev k requested_features
       | Some k0 =>
           if (stage_index k <=? stage_index k0)%nat
           then get_split_kernel_function dev k requested_features
           else kernel_handle (self s) k
       end) /\
  device (self (snd r)) = device (self s) /\
  path_iteration_times (self (snd r)) = path_iteration_times (self s) /\
  first_tile (self (snd r)) = first_tile (self s) /\
  ray_state (self (snd r)) = ray_state (self s) /\
  trace (snd r) = trace s.
Proof.
  cbv zeta. unfold load_kernels.
  load_handles scene_intersect.
  load_handles lamp_emission.
  load_handles queue_enqueue.
  load_handles background_buffer_update.
  load_handles shader_eval.
  load_handles holdout_emission_blurring_pathtermination_ao.
  load_handles direct_lighting.
  load_handles shadow_blocked.
  load_handles next_iteration_setup.
  load_handles sum_all_radiance.
  cbn [fst snd]. split; [|repeat split].
  intros k'. unfold first_missing, all_kernels. cbn [find].
  repeat match goal with
         | H : get_split_kernel_function _ _ _ = _ |- _ => rewrite H
         end.
  destruct k'; cbn; rewrite ?loaded_kernel_handle; cbn; congruence.
Qed.

(** ** The rounds of a call *)

Section Rounds.

Context {K : KernelTypes}.




End Rounds.

(** * Properties of the Alembic utilities *)

Section BeginsWithProperties.

Context {A : Type} (eqb : A -> A -> bool).
Hypothesis eqb_eq : forall a b, eqb a b = true <-> a = b.

Lemma equal_prefix m input :
  (length m <= length input)%nat ->
  equal eqb m input <> None /\
  (equal eqb m input = Some true <-> exists rest, input = m ++ rest).
Proof.
  revert input. induction m as [|a m IH]; intros input Hlen.
  - cbn. split; [discriminate|]. split; [eauto|reflexivity].
  - destruct input as [|b input]; [cbn in Hlen; lia|].
    cbn [equal]. cbn [length] in Hlen.
    destruct (eqb a b) eqn:E.
    + apply eqb_eq in E. subst b.
      destruct (IH input ltac:(lia)) as [IH1 IH2]. split; [exact IH1|].
      rewrite IH2. split.
      * intros [rest ->]. exists rest. reflexivity.
      * intros [rest Hr]. injection Hr as Hr. eauto.
    + split; [discriminate|]. split; [discriminate|].
      intros [rest Hr]. injection Hr as Hab _. symmetry in Hab.
      apply eqb_eq in Hab. congruence.
Qed.

Lemma begins_with_prefix input match_ :
  begins_with eqb input match_ = Some true <-> exists rest, input = match_ ++ rest.
Proof.
  unfold begins_with.
  destruct (Nat.leb_spec (length match_) (length input)) as [Hlen|Hlen].
  - apply equal_prefix. exact Hlen.
  - split; [discriminate|]. intros [rest ->]. rewrite length_app in Hlen. lia.
Qed.

(** X14. [begins_with] never reads past the end of [input], and answers
    yes exactly when [input] starts with [match]. *)
Theorem begins_with_is_prefix input match_ :
  begins_with eqb input match_ <> None /\
  (begins_with eqb input match_ = Some true <-> exists rest, input = match_ ++ rest) /\
  ((length input < length match_)%nat -> begins_with eqb input match_ = Some false).
Proof.
  unfold begins_with.
  destruct (Nat.leb_spec (length match_) (length input)) as [Hlen|Hlen].
  - destruct (equal_prefix match_ input Hlen) as [H1 H2].
    split; [exact H1|]. split; [exact H2|]. lia.
  - split; [discriminate|]. split; [|reflexivity].
    split; [discriminate|]. intros [rest ->]. rewrite length_app in Hlen. lia.
Qed.

(** X15. [begins_with] orders containers: every container begins with
    itself and with the empty one, two containers that begin with each
    other are equal, and beginning-with is transitive. *)
Theorem begins_with_is_an_order a b c :
  begins_with eqb a a = Some true /\
  begins_with eqb a [] = Some true /\
  (begins_with eqb a b = Some true -> begins_with eqb b a = Some true -> a = b) /\
  (begins_with eqb a b = Some true -> begins_with eqb b c = Some true ->
   begins_with eqb a c = Some true).
Proof.
  pose proof begins_with_prefix as P.
  split; [apply P; exists []; rewrite app_nil_r; reflexivity|].
  split; [apply P; exists a; reflexivity|].
  split.
  - intros H1 H2. apply P in H1, H2. destruct H1 as [r1 H1]. destruct H2 as [r2 H2].
    assert (Hl : length a = (length b + length r1)%nat)
      by (rewrite H1 at 1; apply length_app).
    assert (Hl' : length b = (length a + length r2)%nat)
      by (rewrite H2 at 1; apply length_app).
    destruct r1; [rewrite app_nil_r in H1; exact H1|cbn in Hl; lia].
  - intros H1 H2. apply P in H1, H2. apply P.
    destruct H1 as [r1 ->]. destruct H2 as [r2 ->].
    exists (r2 ++ r1). rewrite app_assoc. reflexivity.
Qed.

End BeginsWithProperties.

Lemma to_short_range v : -32768 <= to_short v <= 32767.
Proof.
  unfold to_short. pose proof (Z.mod_pos_bound v 65536 ltac:(lia)).
  destruct (Z.ltb_spec (v mod 65536) 32768); lia.
Qed.

Lemma to_short_small v : -32768 <= v <= 32767 -> to_short v = v.
Proof.
  intros Hv. unfold to_short.
  destruct (Z_lt_le_dec v 0).
  - replace (v mod 65536) with (v + 65536).
    + destruct (Z.ltb_spec (v + 65536) 32768); lia.
    + apply (Z.mod_unique _ _ (-1)); lia.
  - rewrite Z.mod_small by lia. destruct (Z.ltb_spec v 32768); lia.
Qed.

Lemma short_neg_involutive v : -32768 <= v <= 32767 -> short_neg (short_neg v) = v.
Proof.
  intros Hv. unfold short_neg.
  destruct (Z.eq_dec v (-32768)) as [->|Hne]; [reflexivity|].
  rewrite (to_short_small (- v)) by lia. rewrite Z.opp_involutive.
  apply to_short_small. exact Hv.
Qed.

Section AxisConversionProperties.

Context {T : Type} (neg : T -> T).

Ltac stores :=
  unfold copy_zup_from_yup, copy_yup_from_zup, vector, store, separate in *;
  repeat match goal with
         | |- context [?a =? ?b] => destruct (Z.eqb_spec a b); try lia
         end;
  try reflexivity.

(** X16. On arrays that do not overlap, the two functions turn the axes:
    [zup = (yup[0], -yup[2], yup[1])] and [yup = (zup[0], zup[2],
    -zup[1])]; the source array and the rest of the memory are as
    before. *)
Theorem axis_conversion_on_separate_arrays dst src mem :
  separate dst src ->
  (let mem' := copy_zup_from_yup neg dst src mem in
   vector mem' dst = (mem (src + 0), neg (mem (src + 2)), mem (src + 1)) /\
   forall a, ~ dst <= a < dst + 3 -> mem' a = mem a) /\
  (let mem' := copy_yup_from_zup neg dst src mem in
   vector mem' dst = (mem (src + 0), mem (src + 2), neg (mem (src + 1))) /\
   forall a, ~ dst <= a < dst + 3 -> mem' a = mem a).
Proof.
  intros Hsep. cbv zeta. repeat split.
  - stores.
  - intros a Ha. stores.
  - stores.
  - intros a Ha. stores.
Qed.

(** X17. Called in place, with the same array as source and target, the
    functions do not turn the axes: the component that is stored second
    is overwritten before it is read. *)
Theorem axis_conversion_in_place p mem :
  vector (copy_zup_from_yup neg p p mem) p
    = (mem (p + 0), neg (mem (p + 2)), neg (mem (p + 2))) /\
  vector (copy_yup_from_zup neg p p mem) p
    = (mem (p + 0), mem (p + 2), neg (mem (p + 2))).
Proof. split; stores. Qed.

(** Converting there and back through a separate array. *)
Lemma axis_round_trip a b c mem :
  separate b a -> separate c b ->
  (forall i, 0 <= i < 3 -> neg (neg (mem (a + i))) = mem (a + i)) ->
  vector (copy_yup_from_zup neg c b (copy_zup_from_yup neg b a mem)) c = vector mem a /\
  vector (copy_zup_from_yup neg c b (copy_yup_from_zup neg b a mem)) c = vector mem a.
Proof.
  intros Hba Hcb Hneg.
  pose proof (Hneg 1 ltac:(lia)) as H1. pose proof (Hneg 2 ltac:(lia)) as H2.
  split; stores; rewrite ?H1, ?H2; reflexivity.
Qed.

End AxisConversionProperties.

(** X18. For [short] vectors, converting from Y-up to Z-up and back, or
    the other way round, gives the vector back, also for a component of
    [-32768], whose negation is [-32768]. *)
Theorem short_axis_round_trip a b c (mem : memory) :
  separate b a -> separate c b ->
  (forall i, 0 <= i < 3 -> -32768 <= mem (a + i) <= 32767) ->
  vector (copy_yup_from_zup short_neg c b (copy_zup_from_yup short_neg b a mem)) c
    = vector mem a /\
  vector (copy_zup_from_yup short_neg c b (copy_yup_from_zup short_neg b a mem)) c
    = vector mem a /\
  short_neg (-32768) = -32768.
Proof.
  intros Hba Hcb Hrange.
  destruct (axis_round_trip short_neg a b c mem Hba Hcb) as [H1 H2].
  { intros i Hi. apply short_neg_involutive, Hrange, Hi. }
  split; [exact H1|]. split; [exact H2|reflexivity].
Qed.

(** The negation of a [float] turns bit 31 and no other bit. *)
Lemma float_neg_bits v i :
  Z.testbit (float_neg v) i = if i =? 31 then negb (Z.testbit v i) else Z.testbit v i.
Proof.
  unfold float_neg. rewrite Z.lxor_spec, Z.pow2_bits_eqb by lia.
  rewrite (Z.eqb_sym 31 i).
  destruct (i =? 31); [apply xorb_true_r|apply xorb_false_r].
Qed.

Lemma float_neg_involutive v : float_neg (float_neg v) = v.
Proof.
  unfold float_neg. rewrite Z.lxor_assoc, Z.lxor_nilpotent. apply Z.lxor_0_r.
Qed.

(** X19. For [float] vectors the round trip gives the vector back bit
    for bit, whatever the components are, NaNs included: the negation of
    a [float] turns the sign bit of its encoding and no other bit. *)
Theorem float_axis_round_trip a b c (mem : @memory Z) :
  separate b a -> separate c b ->
  vector (copy_yup_from_zup float_neg c b (copy_zup_from_yup float_neg b a mem)) c
    = vector mem a /\
  vector (copy_zup_from_yup float_neg c b (copy_yup_from_zup float_neg b a mem)) c
    = vector mem a /\
  (forall v i, Z.testbit (float_neg v) i =
     if i =? 31 then negb (Z.testbit v i) else Z.testbit v i).
Proof.
  intros Hba Hcb.
  destruct (axis_round_trip float_neg a b c mem Hba Hcb) as [H1 H2].
  { intros i _. apply float_neg_involutive. }
  split; [exact H1|]. split; [exact H2|]. exact float_neg_bits.
Qed.

(** ** Time ranges *)

Lemma SFcompare_antisym a b :
  SFcompare b a = option_map CompOpp (SFcompare a b).
Proof.
  destruct a as [sa|sa| |sa ma ea], b as [sb|sb| |sb mb eb]; cbn;
    try reflexivity;
    try (destruct sa; reflexivity); try (destruct sb; reflexivity);
    try (destruct sa, sb; reflexivity).
  destruct sa, sb; try reflexivity; f_equal;
    rewrite (Z.compare_antisym ea eb);
    destruct (ea ?= eb); cbn; try reflexivity;
    rewrite (Pos.compare_cont_antisym ma mb Eq); cbn;
    rewrite ?CompOpp_involutive; reflexivity.
Qed.

Lemma SFcompare_refl a : is_number a = true -> SFcompare a a = Some Eq.
Proof.
  destruct a as [sa|sa| |sa ma ea]; cbn; intros H; try discriminate;
    try reflexivity; try (destruct sa; reflexivity).
  destruct sa; rewrite Z.compare_refl;
    change (Pos.compare_cont Eq ma ma) with (Pos.compare ma ma);
    rewrite Pos.compare_refl; reflexivity.
Qed.

Lemma SFcompare_number a b :
  is_number a = true -> is_number b = true -> SFcompare a b <> None.
Proof.
  destruct a as [sa|sa| |sa ma ea], b as [sb|sb| |sb mb eb]; cbn; intros Ha Hb;
    discriminate.
Qed.

Lemma SFltb_asym a b : SFltb a b = true -> SFltb b a = false.
Proof.
  unfold SFltb. rewrite (SFcompare_antisym a b).
  destruct (SFcompare a b) as [[| |]|]; cbn; congruence.
Qed.

Lemma SFltb_irrefl a : SFltb a a = false.
Proof.
  destruct (SFltb a a) eqn:E; [|reflexivity].
  pose proof (SFltb_asym a a E). congruence.
Qed.

Lemma SFleb_of_not_ltb a b :
  is_number a = true -> is_number b = true -> SFltb b a = false -> SFleb a b = true.
Proof.
  intros Ha Hb. unfold SFltb, SFleb. rewrite (SFcompare_antisym a b).
  pose proof (SFcompare_number a b Ha Hb).
  destruct (SFcompare a b) as [[| |]|]; cbn; congruence.
Qed.

Lemma SFleb_refl a : is_number a = true -> SFleb a a = true.
Proof. intros H. unfold SFleb. rewrite SFcompare_refl by exact H. reflexivity. Qed.

Lemma SFleb_of_ltb a b : SFltb a b = true -> SFleb a b = true.
Proof.
  unfold SFltb, SFleb. destruct (SFcompare a b) as [[| |]|]; congruence.
Qed.

Lemma std_min_le a b :
  SFltb a (std_min a b) = false /\
  (is_number a = true -> is_number b = true ->
   SFleb (std_min a b) a = true /\ SFleb (std_min a b) b = true).
Proof.
  unfold std_min. destruct (SFltb b a) eqn:E.
  - split; [apply SFltb_asym; exact E|]. intros Ha Hb.
    split; [apply SFleb_of_ltb; exact E|apply SFleb_refl; exact Hb].
  - split.
    + apply SFltb_irrefl.
    + intros Ha Hb. split; [apply SFleb_refl; exact Ha|].
      apply SFleb_of_not_ltb; assumption.
Qed.

Lemma std_max_ge a b :
  SFltb (std_max a b) a = false /\
  (is_number a = true -> is_number b = true ->
   SFleb a (std_max a b) = true /\ SFleb b (std_max a b) = true).
Proof.
  unfold std_max. destruct (SFltb a b) eqn:E.
  - split; [apply SFltb_asym; exact E|]. intros Ha Hb.
    split; [apply SFleb_of_ltb; exact E|apply SFleb_refl; exact Hb].
  - split.
    + apply SFltb_irrefl.
    + intros Ha Hb. split; [apply SFleb_refl; exact Ha|].
      apply SFleb_of_not_ltb; assumption.
Qed.

(** The range after [get_min_max_time_ex] is not narrower than before. *)
Lemma get_min_max_time_ex_range schema range :
  let r := get_min_max_time_ex schema range in
  SFltb (fst range) (fst r) = false /\ SFltb (snd r) (snd range) = false.
Proof.
  cbv zeta. unfold get_min_max_time_ex.
  pose proof SFltb_irrefl as Hself.
  destruct (isConstant schema); cbn [negb]; [rewrite !Hself; auto|].
  destruct (0 <? getNumSamples schema); [|rewrite !Hself; auto].
  cbn [fst snd]. split; [apply std_min_le|apply std_max_ge].
Qed.

(** X20. [get_min_max_time_ex] never narrows the range. A constant schema,
    or one without samples, leaves it as it is; otherwise only the times
    of the first and of the last sample are looked at, and, for times
    that are numbers, the new range contains the old one and these two
    times. *)
Theorem get_min_max_time_ex_widens schema min_ max_ :
  let r := get_min_max_time_ex schema (min_, max_) in
  let first := schema.(getSampleTime) 0 in
  let last := schema.(getSampleTime) (schema.(getNumSamples) - 1) in
  0 <= schema.(getNumSamples) < 2 ^ 64 ->
  SFltb min_ (fst r) = false /\ SFltb (snd r) max_ = false /\
  (isConstant schema = true \/ getNumSamples schema = 0 -> r = (min_, max_)) /\
  (isConstant schema = false -> 0 < getNumSamples schema ->
   r = (std_min min_ first, std_max max_ last) /\
   (is_number min_ = true -> is_number first = true ->
    SFleb (fst r) min_ = true /\ SFleb (fst r) first = true) /\
   (is_number max_ = true -> is_number last = true ->
    SFleb max_ (snd r) = true /\ SFleb last (snd r) = true)).
Proof.
  cbv zeta. intros Hn. unfold get_min_max_time_ex. cbn [fst snd].
  pose proof SFltb_irrefl as Hself.
  destruct (isConstant schema); cbn [negb].
  - cbn [fst snd]. rewrite !Hself. repeat split; auto; discriminate.
  - destruct (Z.ltb_spec 0 (getNumSamples schema)) as [Hpos|Hzero].
    + rewrite to_size_t_small by lia. cbn [fst snd].
      split; [apply std_min_le|]. split; [apply std_max_ge|].
      split; [intros [H|H]; [discriminate|lia]|].
      intros _ _. split; [reflexivity|].
      split; intros Ha Hb; [apply std_min_le|apply std_max_ge]; assumption.
    + cbn [fst snd]. rewrite !Hself. repeat split; auto; lia.
Qed.

(** X21. [get_min_max_time] takes the schema into account and, when the
    parent of the object is valid and is a transform, the schema of that
    transform after it; otherwise the parent is ignored. Neither step
    narrows the range of times that are numbers. *)
Theorem get_min_max_time_uses_parent_transform object schema min_ max_ :
  let r := get_min_max_time object schema (min_, max_) in
  let own := get_min_max_time_ex schema (min_, max_) in
  (parent_valid object = true -> parent_matches_IXform object = true ->
   r = get_min_max_time_ex object.(parent_schema) own) /\
  (parent_valid object = false \/ parent_matches_IXform object = false -> r = own) /\
  SFltb (fst own) (fst r) = false /\ SFltb (snd r) (snd own) = false.
Proof.
  cbv zeta. unfold get_min_max_time.
  set (own := get_min_max_time_ex schema (min_, max_)).
  pose proof SFltb_irrefl as Hself.
  pose proof (get_min_max_time_ex_range (parent_schema object) own) as W.
  cbv zeta in W.
  destruct (parent_valid object), (parent_matches_IXform object); cbn [andb].
  - split; [reflexivity|]. split; [intros [H|H]; discriminate|]. exact W.
  - split; [discriminate|]. split; [reflexivity|]. rewrite !Hself. auto.
  - split; [discriminate|]. split; [reflexivity|]. rewrite !Hself. auto.
  - split; [discriminate|]. split; [reflexivity|]. rewrite !Hself. auto.
Qed.

(** * Properties of the GLUT view *)

Section ViewProperties.

Import UtilView.

Lemma count_app p tr1 tr2 : count p (tr1 ++ tr2) = (count p tr1 + count p tr2)%nat.
Proof. unfold count. rewrite filter_app, length_app. reflexivity. Qed.

Lemma exit_handlers_run handlers : forall s,
  fold_left (fun s f => log (Call ViewExitFunc f []) s) handlers s =
    {| V := V s;
       trace := trace s ++ map (fun f => Call ViewExitFunc f []) handlers;
       at_exit := at_exit s; exited := exited s |}.
Proof.
  induction handlers as [|f rest IH]; intros s.
  - cbn. rewrite app_nil_r. destruct s; reflexivity.
  - cbn [fold_left map]. rewrite IH. cbn. rewrite <- app_assoc. reflexivity.
Qed.

(** What a step does to the trace and to the program. *)
Lemma handle_run e s :
  trace (handle e s) = trace s ++ step_events e s /\
  initf (V (handle e s)) = initf (V s) /\
  exitf (V (handle e s)) = exitf (V s) /\
  resize (V (handle e s)) = resize (V s) /\
  display (V (handle e s)) = display (V s) /\
  keyboard (V (handle e s)) = keyboard (V s) /\
  first_display (V (handle e s)) = first_display (V s) && negb (is_display e) /\
  exited (handle e s) = exited s || is_quit e /\
  at_exit (handle e s) =
    (if first_display (V s) && is_display e
     then match exitf (V s) with Some f => [f] | None => [] end
     else []) ++ at_exit s.
Proof.
  destruct s as [[i x r d k fd rd w h] tr ae ex].
  destruct e as [| |w' h'|key mx my|]; cbn [handle step_events is_display is_quit].
  - unfold view_display, display_events. cbn [V first_display].
    destruct fd, ex, i, x, d; cbn; rewrite <- ?app_assoc; cbn;
      repeat split; reflexivity.
  - unfold view_idle. cbn [V redraw].
    destruct fd, ex, rd; cbn; rewrite <- ?app_assoc; cbn; repeat split; reflexivity.
  - unfold view_reshape, reshape_events.
    destruct ((w' <=? 0) || (h' <=? 0)); destruct fd, ex; cbn;
      try (rewrite app_nil_r; repeat split; reflexivity);
      destruct r; cbn; rewrite <- ?app_assoc; cbn; repeat split; reflexivity.
  - unfold view_keyboard, keyboard_events. cbn [V keyboard exitf at_exit].
    destruct (key =? 113) eqn:Eq.
    + assert (E109 : (key =? 109) = false) by lia. rewrite E109.
      unfold exit_program. rewrite exit_handlers_run.
      destruct fd, ex, k, x; cbn; rewrite <- ?app_assoc; cbn;
        repeat split; reflexivity.
    + destruct fd, ex, k, (key =? 109); cbn;
        rewrite <- ?app_assoc, ?app_nil_r; cbn; repeat split; reflexivity.
  - destruct fd, ex; cbn; rewrite app_nil_r; repeat split; reflexivity.
Qed.

Lemma handle_size e s :
  (width (V (handle e s)), height (V (handle e s))) =
    match e with
    | Reshape w h => if (w <=? 0) || (h <=? 0) then (width (V s), height (V s)) else (w, h)
    | _ => (width (V s), height (V s))
    end /\
  redraw (V (handle e s)) =
    match e with
    | Idle => false
    | Redraw => true
    | _ => redraw (V s)
    end.
Proof.
  destruct s as [[i x r d k fd rd w h] tr ae ex].
  destruct e as [| |w' h'|key mx my|]; cbn [handle].
  - unfold view_display. cbn [V first_display].
    destruct fd, i, x, d; cbn; split; reflexivity.
  - unfold view_idle. cbn [V redraw]. destruct rd; cbn; split; reflexivity.
  - unfold view_reshape. destruct ((w' <=? 0) || (h' <=? 0)); cbn; [split; reflexivity|].
    destruct r; cbn; split; reflexivity.
  - unfold view_keyboard. cbn [V keyboard exitf].
    destruct (key =? 113); [|destruct k, (key =? 109); cbn; split; reflexivity].
    unfold exit_program. rewrite exit_handlers_run.
    destruct k, (key =? 109), x; cbn; split; reflexivity.
  - cbn. split; reflexivity.
Qed.

(** A property that every step keeps holds when the loop ends. *)
Lemma glutMainLoop_invariant (P : machine -> Prop) :
  (forall e s, exited s = false -> P s -> P (handle e s)) ->
  forall steps s, P s -> P (glutMainLoop steps s).
Proof.
  intros Hstep. induction steps as [|e rest IH]; intros s Hs; [exact Hs|].
  cbn [glutMainLoop]. destruct (exited s) eqn:E; [exact Hs|].
  apply IH, Hstep; assumption.
Qed.

Lemma view_main_loop_run apple a steps :
  view_main_loop apple a steps = glutMainLoop steps (started apple a).
Proof. reflexivity. Qed.

Lemma started_fields apple a :
  initf (V (started apple a)) = arg_initf a /\
  exitf (V (started apple a)) = arg_exitf a /\
  first_display (V (started apple a)) = true /\
  redraw (V (started apple a)) = false /\
  width (V (started apple a)) = arg_width a /\
  height (V (started apple a)) = arg_height a /\
  exited (started apple a) = false /\
  at_exit (started apple a) = [] /\
  exists setup,
    trace (started apple a) = setup /\
    Forall (fun e => match e with
                     | Call ViewResizeFunc _ _ | glViewport _ _ _ _
                     | glutInit | glutInitWindowSize _ _ | glutInitWindowPosition _ _
                     | glutInitDisplayMode | glutCreateWindow _ | glewInit
                     | glMatrixMode _ | glLoadIdentity
                     | glutDisplayFunc | glutIdleFunc | glutReshapeFunc
                     | glutKeyboardFunc => True
                     | _ => False
                     end) setup.
Proof.
  unfold started, view_main_loop. cbn [glutMainLoop].
  unfold view_reshape.
  destruct ((arg_width a <=? 0) || (arg_height a <=? 0)), apple, (arg_resize a); cbn;
    repeat split; eexists; split; try reflexivity; repeat constructor.
Qed.

Lemma init_first_app b tr1 tr2 :
  init_first b (tr1 ++ tr2) =
    init_first b tr1 && init_first (b || existsb (is_call ViewInitFunc) tr1) tr2.
Proof.
  revert b. induction tr1 as [|e tr1 IH]; intros b.
  - cbn. rewrite orb_false_r. reflexivity.
  - destruct e as [[] f args| | | | | | | | | | | | | | | | | | | | | | |];
      cbn [app init_first existsb is_call orb]; rewrite ?IH;
      rewrite ?orb_true_r, ?orb_false_r, ?andb_assoc; try reflexivity;
      destruct b; reflexivity.
Qed.

Lemma init_first_split tr :
  forall b, init_first b tr = true ->
  forall pre g args post, tr = pre ++ Call ViewDisplayFunc g args :: post ->
    b || existsb (is_call ViewInitFunc) pre = true.
Proof.
  intros b H pre g args post ->. rewrite init_first_app in H.
  apply andb_prop in H. destruct H as [_ H]. cbn [init_first] in H.
  apply andb_prop in H. exact (proj1 H).
Qed.

Lemma count_existsb p tr : (0 < count p tr)%nat -> existsb p tr = true.
Proof.
  unfold count. induction tr as [|e tr IH]; cbn; [lia|].
  destruct (p e); [reflexivity|exact IH].
Qed.

Lemma display_events_facts s :
  count (is_call ViewInitFunc) (display_events s) =
    (if first_display (V s)
     then match initf (V s) with Some _ => 1 | None => 0 end else 0)%nat /\
  count is_atexit (display_events s) =
    (if first_display (V s)
     then match exitf (V s) with Some _ => 1 | None => 0 end else 0)%nat /\
  (forall b, init_first b (display_events s) =
     match display (V s) with
     | Some _ =>
         b || (first_display (V s) &&
               match initf (V s) with Some _ => true | None => false end)
     | None => true
     end) /\
  Forall (fun e => match e with
                   | Call ViewInitFunc f args => initf (V s) = Some f /\ args = []
                   | _ => True
                   end) (display_events s).
Proof.
  unfold display_events.
  destruct (first_display (V s)), (initf (V s)), (exitf (V s)), (display (V s));
    cbn; repeat split; try (intros []; reflexivity); repeat constructor.
Qed.

Lemma quiet_events_facts a evs :
  Forall (fun ev => is_call ViewInitFunc ev = false /\ is_atexit ev = false /\
                    is_call ViewDisplayFunc ev = false) evs ->
  count (is_call ViewInitFunc) evs = 0%nat /\ count is_atexit evs = 0%nat /\
  (forall b, init_first b evs = true) /\
  Forall (init_call_of a) evs.
Proof.
  induction 1 as [|ev evs (H1 & H2 & H3) _ (IH1 & IH2 & IH3 & IH4)].
  - repeat split; constructor.
  - unfold count in *. cbn [filter]. rewrite H1, H2.
    split; [exact IH1|]. split; [exact IH2|]. split.
    + intros b. destruct ev as [[] f args| | | | | | | | | | | | | | | | | | | | | | |];
        cbn in *; try discriminate; apply IH3.
    + constructor; [|exact IH4].
      destruct ev as [[] f args| | | | | | | | | | | | | | | | | | | | | | |];
        cbn in *; try discriminate; exact I.
Qed.

Lemma step_keeps_initialised_once a e s :
  initialised_once a s -> initialised_once a (handle e s).
Proof.
  intros (Hi & Hx & Hci & Hca & Hif & Hall).
  destruct (handle_run e s) as (Htr & Ei & Ex & _ & _ & _ & Efd & _ & _).
  unfold initialised_once. rewrite Htr, Ei, Ex, Efd, !count_app, init_first_app.
  split; [exact Hi|]. split; [exact Hx|].
  destruct (is_display e) eqn:Ed; cbn [negb].
  - (* display *)
    destruct e; try discriminate. cbn [step_events].
    destruct (display_events_facts s) as (D1 & D2 & D3 & D4).
    rewrite D1, D2, D3, Hci, Hca, Hi, Hx, andb_false_r. cbn [orb].
    assert (Hseen : first_display (V s) = false -> arg_initf a <> None ->
                    existsb (is_call ViewInitFunc) (trace s) = true).
    { intros Hfd Hne. apply count_existsb. rewrite Hci, Hfd.
      destruct (arg_initf a); [lia|contradiction]. }
    split; [destruct (first_display (V s)), (arg_initf a); lia|].
    split; [destruct (first_display (V s)), (arg_exitf a); lia|].
    split.
    + destruct (arg_initf a) as [f|] eqn:Ea.
      * rewrite Hif. cbn [andb].
        destruct (display (V s)); [|reflexivity].
        destruct (first_display (V s)) eqn:Efirst; cbn [andb].
        -- apply orb_true_r.
        -- rewrite Hseen by (auto; discriminate). reflexivity.
      * destruct (init_first false (trace s)); [|reflexivity]. cbn [andb].
        rewrite andb_false_r, orb_false_r.
        destruct (display (V s)); reflexivity.
    + apply Forall_app. split; [exact Hall|].
      eapply Forall_impl; [|exact D4].
      intros ev. unfold init_call_of. destruct ev as [[] f args| | | | | | | | | | | | | | | | | | | | | | |];
        auto. rewrite Hi. auto.
  - assert (Hev : Forall (fun ev => is_call ViewInitFunc ev = false /\
                                    is_atexit ev = false /\
                                    is_call ViewDisplayFunc ev = false)
                    (step_events e s)).
    { destruct e as [| |w' h'|key mx my|]; try discriminate; cbn [step_events].
      - destruct (redraw (V s)); repeat constructor.
      - unfold reshape_events. destruct ((w' <=? 0) || (h' <=? 0)); [constructor|].
        destruct (resize (V s)); repeat constructor.
      - unfold keyboard_events.
        apply Forall_app. split; [destruct (keyboard (V s)); repeat constructor|].
        apply Forall_app. split; [destruct (key =? 109); repeat constructor|].
        destruct (key =? 113); [|constructor].
        apply Forall_app. split; [destruct (exitf (V s)); repeat constructor|].
        constructor; [repeat split|].
        induction (at_exit s); cbn; repeat constructor. assumption.
      - constructor. }
    destruct (quiet_events_facts a _ Hev) as (-> & -> & H3 & H4).
    rewrite H3, !Nat.add_0_r, !andb_true_r.
    repeat split; try assumption. apply Forall_app. auto.
Qed.

Lemma started_initialised_once apple a : initialised_once a (started apple a).
Proof.
  destruct (started_fields apple a)
    as (Hi & Hx & Hfd & _ & _ & _ & _ & _ & setup & Htr & Hsetup).
  unfold initialised_once. rewrite Hi, Hx, Hfd, Htr.
  assert (H : count (is_call ViewInitFunc) setup = 0%nat /\
              count is_atexit setup = 0%nat /\
              (forall b, init_first b setup = true) /\
              Forall (init_call_of a) setup).
  { clear - Hsetup. induction Hsetup as [|ev evs H _ (IH1 & IH2 & IH3 & IH4)].
    - repeat split; constructor.
    - destruct ev as [[] f args| | | | | | | | | | | | | | | | | | | | | | |];
        try contradiction; unfold count in *; cbn; repeat split; auto. }
  destruct H as (H1 & H2 & H3 & H4).
  rewrite H1, H2, H3. repeat split; auto. destruct (arg_initf a); reflexivity.
Qed.

(** X22. Over a whole run of the main loop the init callback is called at
    most once and the exit callback is registered with [atexit] at most
    once, both by the first display; and when there is an init callback,
    no display callback is called before it. *)
Theorem init_callback_runs_once_before_display apple a steps :
  let tr := trace (view_main_loop apple a steps) in
  (count (is_call ViewInitFunc) tr <= 1)%nat /\
  (count is_atexit tr <= 1)%nat /\
  (forall f, arg_initf a = Some f ->
   forall pre g args post,
     tr = pre ++ Call ViewDisplayFunc g args :: post ->
     In (Call ViewInitFunc f []) pre).
Proof.
  cbv zeta. rewrite view_main_loop_run.
  assert (H : initialised_once a (glutMainLoop steps (started apple a))).
  { apply glutMainLoop_invariant.
    - intros e s _. apply step_keeps_initialised_once.
    - apply started_initialised_once. }
  destruct H as (_ & _ & Hci & Hca & Hif & Hall).
  split; [rewrite Hci; destruct (first_display _), (arg_initf a); lia|].
  split; [rewrite Hca; destruct (first_display _), (arg_exitf a); lia|].
  intros f Hf pre g args post Hsplit.
  rewrite Hf in Hif.
  pose proof (init_first_split _ false Hif pre g args post Hsplit) as Hseen.
  cbn [orb] in Hseen. rewrite Hsplit in Hall, Hci.
  apply Forall_app in Hall. destruct Hall as [Hall _].
  apply existsb_exists in Hseen. destruct Hseen as (e & Hin & He).
  rewrite Forall_forall in Hall. specialize (Hall e Hin).
  destruct e as [[] f' args'| | | | | | | | | | | | | | | | | | | | | | |];
    try discriminate.
  destruct Hall as [Hall ->]. rewrite Hf in Hall. injection Hall as <-. exact Hin.
Qed.

Lemma step_keeps_sizes e s : sizes_kept s -> sizes_kept (handle e s).
Proof.
  intros (Hw & Hh & Hall).
  destruct (handle_run e s) as (Htr & _).
  destruct (handle_size e s) as (Hsz & _).
  unfold sizes_kept. rewrite Htr.
  assert (Hnew : 0 < width (V (handle e s)) /\ 0 < height (V (handle e s))).
  { pose proof (f_equal fst Hsz) as E1. pose proof (f_equal snd Hsz) as E2.
    cbn [fst snd] in E1, E2. rewrite E1, E2.
    destruct e as [| |w' h'|key mx my|]; cbn [fst snd]; try (split; assumption).
    destruct (Z.leb_spec w' 0), (Z.leb_spec h' 0); cbn [orb fst snd];
      split; assumption. }
  destruct Hnew as [Hw' Hh']. split; [exact Hw'|]. split; [exact Hh'|].
  apply Forall_app. split; [exact Hall|].
  destruct e as [| |w' h'|key mx my|]; cbn [step_events].
  - unfold display_events.
    destruct (first_display (V s)), (initf (V s)), (exitf (V s)), (display (V s));
      repeat constructor; assumption.
  - destruct (redraw (V s)); repeat constructor.
  - unfold reshape_events.
    destruct (Z.leb_spec w' 0); cbn [orb]; [constructor|].
    destruct (Z.leb_spec h' 0); [constructor|].
    destruct (resize (V s)); repeat constructor; assumption.
  - unfold keyboard_events.
    apply Forall_app. split; [destruct (keyboard (V s)); repeat constructor|].
    apply Forall_app. split; [destruct (key =? 109); repeat constructor|].
    destruct (key =? 113); [|constructor].
    apply Forall_app. split; [destruct (exitf (V s)); repeat constructor|].
    constructor; [exact I|].
    induction (at_exit s); cbn; repeat constructor. assumption.
  - constructor.
Qed.

(** X23. [view_reshape] ignores a size that is not positive; so a view
    opened with a positive size keeps a positive size whatever GLUT
    reports, and hands only positive sizes to OpenGL and to the resize
    callback. *)
Theorem view_size_stays_positive apple a steps :
  0 < arg_width a -> 0 < arg_height a ->
  let s := view_main_loop apple a steps in
  0 < width (V s) /\ 0 < height (V s) /\
  Forall sizes_positive (trace s) /\
  (forall w h s', w <= 0 \/ h <= 0 -> view_reshape w h s' = s').
Proof.
  intros Hw Hh. cbv zeta. rewrite view_main_loop_run.
  assert (H : sizes_kept (glutMainLoop steps (started apple a))).
  { apply glutMainLoop_invariant.
    - intros e s _. apply step_keeps_sizes.
    - destruct (started_fields apple a)
        as (_ & _ & _ & _ & Ew & Eh & _ & _ & _).
      unfold sizes_kept. rewrite Ew, Eh. split; [exact Hw|]. split; [exact Hh|].
      unfold started, view_main_loop. cbn [glutMainLoop]. unfold view_reshape.
      destruct (Z.leb_spec (arg_width a) 0), (Z.leb_spec (arg_height a) 0);
        try lia. cbn [orb].
      destruct apple, (arg_resize a); cbn; repeat constructor; assumption. }
  destruct H as (H1 & H2 & H3). split; [exact H1|]. split; [exact H2|].
  split; [exact H3|].
  intros w h s' Hwh. unfold view_reshape.
  destruct (Z.leb_spec w 0), (Z.leb_spec h 0); cbn [orb]; try reflexivity. lia.
Qed.

(** X24. A redisplay is posted by [view_idle] only, and only for a redraw
    that was requested since the last one: over a run of the main loop
    there are never more redisplays, counting the one still pending,
    than calls of [view_redraw]. *)
Theorem redisplay_needs_a_redraw_request apple a steps :
  let s := view_main_loop apple a steps in
  (count is_post_redisplay (trace s) + (if redraw (V s) then 1 else 0)
   <= redraws steps)%nat.
Proof.
  cbv zeta. rewrite view_main_loop_run.
  assert (Hstart : (count is_post_redisplay (trace (started apple a)) +
                    (if redraw (V (started apple a)) then 1 else 0) <= 0)%nat).
  { destruct (started_fields apple a)
      as (_ & _ & _ & -> & _ & _ & _ & _ & setup & -> & Hsetup).
    assert (H : count is_post_redisplay setup = 0%nat).
    { clear - Hsetup. induction Hsetup as [|ev evs H _ IH]; [reflexivity|].
      destruct ev; try contradiction; exact IH. }
    lia. }
  enough (Hloop : forall n s,
            (count is_post_redisplay (trace s) + (if redraw (V s) then 1 else 0)
             <= n)%nat ->
            (count is_post_redisplay (trace (glutMainLoop steps s)) +
             (if redraw (V (glutMainLoop steps s)) then 1 else 0)
             <= n + redraws steps)%nat).
  { apply (Hloop 0%nat). exact Hstart. }
  clear Hstart. unfold redraws.
  induction steps as [|e rest IH]; intros n s Hs; cbn [glutMainLoop filter length].
  - lia.
  - destruct (exited s).
    + destruct (is_redraw e); cbn [length]; lia.
    + destruct (handle_run e s) as (Htr & _).
      destruct (handle_size e s) as (_ & Hrd).
      assert (Hstep : (count is_post_redisplay (trace (handle e s)) +
                       (if redraw (V (handle e s)) then 1 else 0)
                       <= n + (if is_redraw e then 1 else 0))%nat).
      { rewrite Htr, count_app, Hrd.
        destruct e as [| |w' h'|key mx my|]; cbn [step_events is_redraw].
        - assert (E : count is_post_redisplay (display_events s) = 0%nat).
          { unfold display_events.
            destruct (first_display (V s)), (initf (V s)), (exitf (V s)),
              (display (V s)); reflexivity. }
          rewrite E. lia.
        - destruct (redraw (V s)); cbn; lia.
        - assert (E : count is_post_redisplay (reshape_events w' h' s) = 0%nat).
          { unfold reshape_events. destruct ((w' <=? 0) || (h' <=? 0)); [reflexivity|].
            destruct (resize (V s)); reflexivity. }
          rewrite E. lia.
        - assert (E : count is_post_redisplay (keyboard_events key mx my s) = 0%nat).
          { unfold keyboard_events. rewrite !count_app.
            assert (E1 : count is_post_redisplay
                           (map (fun f => Call ViewExitFunc f []) (at_exit s)) = 0%nat).
            { induction (at_exit s); [reflexivity|exact IHl]. }
            destruct (keyboard (V s)), (key =? 109), (key =? 113), (exitf (V s));
              rewrite ?count_app, ?E1; reflexivity. }
          rewrite E. lia.
        - cbn. destruct (redraw (V s)); lia. }
      destruct (is_redraw e); cbn [length].
      * specialize (IH (n + 1)%nat (handle e s) Hstep). lia.
      * apply (IH n (handle e s)). lia.
Qed.

Lemma glutMainLoop_exited steps s : exited s = true -> glutMainLoop steps s = s.
Proof. intros H. destruct steps; cbn; rewrite ?H; reflexivity. Qed.

Lemma glutMainLoop_app steps1 steps2 : forall s,
  glutMainLoop (steps1 ++ steps2) s = glutMainLoop steps2 (glutMainLoop steps1 s).
Proof.
  induction steps1 as [|e rest IH]; intros s; [reflexivity|].
  cbn [app glutMainLoop]. destruct (exited s) eqn:E; [|apply IH].
  rewrite glutMainLoop_exited by exact E. reflexivity.
Qed.

Lemma step_events_without_quit e s :
  is_quit e = false ->
  count (is_call ViewExitFunc) (step_events e s) = 0%nat /\
  count is_exit (step_events e s) = 0%nat.
Proof.
  intros Hq. destruct e as [| |w' h'|key mx my|]; cbn [step_events].
  - unfold display_events.
    destruct (first_display (V s)), (initf (V s)), (exitf (V s)), (display (V s));
      split; reflexivity.
  - destruct (redraw (V s)); split; reflexivity.
  - unfold reshape_events. destruct ((w' <=? 0) || (h' <=? 0)); [split; reflexivity|].
    destruct (resize (V s)); split; reflexivity.
  - unfold keyboard_events. cbn [is_quit] in Hq. rewrite Hq.
    destruct (keyboard (V s)), (key =? 109); split; reflexivity.
  - split; reflexivity.
Qed.

(** The main loop as long as ['q'] is not pressed. *)
Lemma glutMainLoop_without_quit steps : forall s,
  existsb is_quit steps = false -> exited s = false ->
  let s' := glutMainLoop steps s in
  exited s' = false /\
  exitf (V s') = exitf (V s) /\
  first_display (V s') = first_display (V s) && negb (existsb is_display steps) /\
  at_exit s' =
    (if first_display (V s) && existsb is_display steps
     then match exitf (V s) with Some f => [f] | None => [] end
     else []) ++ at_exit s /\
  count (is_call ViewExitFunc) (trace s') = count (is_call ViewExitFunc) (trace s) /\
  count is_exit (trace s') = count is_exit (trace s).
Proof.
  induction steps as [|e rest IH]; intros s Hq Hex; cbv zeta.
  - cbn. rewrite andb_true_r, andb_false_r. cbn. repeat split; assumption.
  - cbn [glutMainLoop existsb] in *. rewrite Hex.
    apply orb_false_elim in Hq. destruct Hq as [Hqe Hq].
    destruct (handle_run e s) as (Htr & _ & Ex & _ & _ & _ & Efd & Eex & Eae).
    destruct (step_events_without_quit e s Hqe) as [C1 C2].
    rewrite Hex, Hqe in Eex. cbn [orb] in Eex.
    destruct (IH (handle e s) Hq Eex) as (I1 & I2 & I3 & I4 & I5 & I6).
    cbv zeta in *.
    rewrite I1, I2, I3, I4, I5, I6, Ex, Efd, Eae, Htr, !count_app, C1, C2.
    split; [reflexivity|]. split; [reflexivity|].
    split; [destruct (first_display (V s)), (is_display e), (existsb is_display rest);
            reflexivity|].
    split; [|split; lia].
    destruct (first_display (V s)), (is_display e), (existsb is_display rest);
      cbn; rewrite ?app_nil_r; reflexivity.
Qed.

(** X25. The key ['q'] ends the program: nothing that GLUT reports after
    it is handled. The exit callback is called by [view_keyboard] and,
    when the view has been displayed, a second time by [exit], which
    runs what the first display registered with [atexit]. *)
Theorem quit_key_calls_exit_callback_twice apple a pre x y post :
  existsb is_quit pre = false ->
  let before := view_main_loop apple a pre in
  let s := view_main_loop apple a (pre ++ Keyboard 113 x y :: post) in
  exited before = false /\
  s = view_keyboard 113 x y before /\
  exited s = true /\
  count is_exit (trace s) = 1%nat /\
  count (is_call ViewExitFunc) (trace s) =
    match arg_exitf a with
    | Some _ => if existsb is_display pre then 2%nat else 1%nat
    | None => 0%nat
    end.
Proof.
  intros Hq. cbv zeta. rewrite !view_main_loop_run, glutMainLoop_app.
  destruct (started_fields apple a)
    as (_ & Hx & Hfd & _ & _ & _ & Hex & Hae & setup & Htr & Hsetup).
  destruct (glutMainLoop_without_quit pre (started apple a) Hq Hex)
    as (I1 & I2 & I3 & I4 & I5 & I6).
  cbv zeta in *.
  set (before := glutMainLoop pre (started apple a)) in *.
  assert (Hsetup0 : count (is_call ViewExitFunc) setup = 0%nat /\
                    count is_exit setup = 0%nat).
  { clear - Hsetup. induction Hsetup as [|ev evs H _ [IH1 IH2]]; [split; reflexivity|].
    destruct ev as [[] f args| | | | | | | | | | | | | | | | | | | | | | |];
      try contradiction; split; assumption. }
  destruct Hsetup0 as [S1 S2]. rewrite Htr, S1 in I5. rewrite Htr, S2 in I6.
  split; [exact I1|].
  cbn [glutMainLoop]. rewrite I1.
  change (handle (Keyboard 113 x y) before) with (view_keyboard 113 x y before).
  destruct (handle_run (Keyboard 113 x y) before) as (Htr' & _ & _ & _ & _ & _ & _ & Eex & _).
  change (handle (Keyboard 113 x y) before) with (view_keyboard 113 x y before) in *.
  rewrite glutMainLoop_exited by (rewrite Eex; apply orb_true_r).
  split; [reflexivity|]. split; [rewrite Eex; apply orb_true_r|].
  rewrite Htr', !count_app, I5, I6.
  cbn [step_events]. unfold keyboard_events.
  change (113 =? 109) with false. change (113 =? 113) with true. cbv iota.
  rewrite !count_app, I2, I4, Hx, Hfd, Hae, app_nil_r. cbn [andb].
  destruct (keyboard (V before)), (arg_exitf a), (existsb is_display pre);
    split; reflexivity.
Qed.

End ViewProperties.

(** * Runs of the further properties on example inputs *)


Lemma work_stealing_grid_covers_tile_witness :
  let g := global_size (K := cycles WorkStealing) WorkStealing tile_100x3 feasible_256x256 in
  (100 <= fst g < 100 + 64 /\ fst g mod 64 = 0) /\
  (3 <= snd g < 3 + 1 /\ snd g mod 1 = 0) /\
  (forall n, n mod 64 = 0 -> 100 <= n -> fst g <= n) /\
  (forall n, n mod 1 = 0 -> 3 <= n -> snd g <= n) /\
  (tile_aligned (K := cycles WorkStealing) tile_100x3 ->
   g = (100, 3) /\ dispatch_area g = 100 * 3).
Proof.
  apply (work_stealing_grid_covers_tile (K := cycles WorkStealing)
           tile_100x3 feasible_256x256).
  - unfold local_size_well_formed. cbn. lia.
  - unfold tile_well_formed. cbn. lia.
Defined.

Lemma work_pool_covers_feasible_tile_witness :
  max_work_groups (K := cycles WorkStealing) feasible_64x64 = (64 / 64) * (64 / 1) /\
  max_work_groups (K := cycles WorkStealing) feasible_64x64 * (64 * 1) = 64 * 64 /\
  to_size_t (max_work_groups (K := cycles WorkStealing) feasible_64x64 * 4)
    = 4 * max_work_groups (K := cycles WorkStealing) feasible_64x64.
Proof.
  apply (work_pool_covers_feasible_tile (K := cycles WorkStealing) feasible_64x64).
  - unfold local_size_well_formed. cbn. lia.
  - unfold feasible_size_well_formed. cbn. lia.
  - reflexivity.
Defined.

Lemma reduction_closes_the_tile_witness :
  let s0 := new_machine (K := cycles WorkStealing) (steady_device 1) in
  let r := path_trace (K := cycles WorkStealing) 4 never_canceled
             tile_100x3 feasible_256x256 16 s0 in
  exists pre gx gy,
    events_since s0 (snd r) = pre ++ [EvEnqueue sum_all_radiance (gx, gy) (16, 16) true] /\
    Forall (fun e => is_enqueue_of sum_all_radiance e = false) pre /\
    (100 <= gx < 100 + 16 /\ gx mod 16 = 0) /\
    (3 <= gy < 3 + 16 /\ gy mod 16 = 0).
Proof.
  apply (reduction_closes_the_tile (K := cycles WorkStealing) 4 never_canceled
           tile_100x3 feasible_256x256 16
           (new_machine (K := cycles WorkStealing) (steady_device 1))).
  - unfold tile_well_formed. cbn. lia.
  - vm_compute. reflexivity.
  - vm_compute. reflexivity.
Defined.

Lemma refused_first_tile_allocates_again_witness :
  let s0 := new_machine (K := cycles WorkStealing) (faulty_device 0 0 1000) in
  let r1 := path_trace (K := cycles WorkStealing) 4 never_canceled
              tile_64x1 feasible_64x1 16 s0 in
  let r2 := path_trace (K := cycles WorkStealing) 4 never_canceled
              tile_64x1 feasible_64x1 16 (snd r1) in
  filter is_alloc (events_since s0 (snd r1)) = allocation_events (K := cycles WorkStealing) feasible_64x1 16 (self s0) /\
  first_tile (self (snd r1)) = true /\
  filter is_free (events_since s0 (snd r1)) = [] /\
  filter is_alloc (events_since (snd r1) (snd r2))
    = allocation_events (K := cycles WorkStealing) feasible_64x1 16 (self s0).
Proof.
  apply (refused_first_tile_allocates_again (K := cycles WorkStealing)
           4 never_canceled tile_64x1 feasible_64x1 16
           4 never_canceled tile_64x1 feasible_64x1 16
           (new_machine (K := cycles WorkStealing) (faulty_device 0 0 1000))).
  - reflexivity.
  - vm_compute. reflexivity.
Defined.

Lemma path_trace_returns_when_lanes_inactive_witness :
  exists b,
    fst (path_trace (K := cycles WorkStealing) 3 never_canceled
           tile_64x1 feasible_64x1 16
           (new_machine (K := cycles WorkStealing) (steady_device 2))) = Returned b.
Proof.
  apply (path_trace_returns_when_lanes_inactive (K := cycles WorkStealing)
           3 never_canceled tile_64x1 feasible_64x1 16
           (new_machine (K := cycles WorkStealing) (steady_device 2)) 2).
  - intros i _. reflexivity.
  - lia.
Defined.

Lemma path_trace_returns_when_canceled_witness :
  exists b,
    fst (path_trace (K := cycles WorkStealing) 3 (canceled_from 2)
           tile_64x1 feasible_64x1 16
           (new_machine (K := cycles WorkStealing) (steady_device 1000))) = Returned b.
Proof.
  apply (path_trace_returns_when_canceled (K := cycles WorkStealing)
           3 (canceled_from 2) tile_64x1 feasible_64x1 16
           (new_machine (K := cycles WorkStealing) (steady_device 1000)) 2).
  - intros i Hi. cbn in Hi. cbn. apply N.leb_le. lia.
  - lia.
Defined.

Lemma no_dispatch_after_cancellation_witness :
  let s0 := new_machine (K := cycles WorkStealing) (steady_device 1000) in
  let r := path_trace (K := cycles WorkStealing) 4 (canceled_from 3)
             tile_64x1 feasible_64x1 16 s0 in
  let after := events_after_cancel (events_since s0 (snd r)) in
  after = [] \/
  exists a, after =
    [EvMemCopyFrom ray_state_mem
       (dispatch_area (global_size (K := cycles WorkStealing) WorkStealing
                         tile_64x1 feasible_64x1));
     EvScan a; EvGetCancel true].
Proof.
  apply (no_dispatch_after_cancellation (K := cycles WorkStealing)
           4 (canceled_from 3) tile_64x1 feasible_64x1 16
           (new_machine (K := cycles WorkStealing) (steady_device 1000))).
  intros i j Hij. cbn. rewrite !N.leb_le. lia.
Defined.

Lemma passes_of_a_tile_witness :
  let s0 := new_machine (K := cycles WorkStealing) (steady_device 2) in
  let r := path_trace (K := cycles WorkStealing) 4 never_canceled
             tile_64x1 feasible_64x1 16 s0 in
  let evs := events_since s0 (snd r) in
  let k := Z.to_nat (host_interventions evs) in
  (forall stage, stage <> sum_all_radiance ->
     enqueues_of stage evs =
       (Z.to_nat (path_iteration_times (self s0)) + k * Z.to_nat (to_unsigned 8))%nat) /\
  enqueues_of sum_all_radiance evs = 1%nat /\
  read_back_count evs = S k.
Proof.
  apply (passes_of_a_tile (K := cycles WorkStealing) 4 never_canceled
           tile_64x1 feasible_64x1 16
           (new_machine (K := cycles WorkStealing) (steady_device 2))).
  - vm_compute. reflexivity.
  - vm_compute. reflexivity.
Defined.

Lemma read_backs_stay_within_ray_state_witness :
  let s0 := new_machine (K := cycles WorkStealing) (steady_device 2) in
  let r := path_trace (K := cycles WorkStealing) 4 never_canceled
             tile_64x1 feasible_64x64 16 s0 in
  length (ray_state (self (snd r))) = 4096%nat /\
  Forall (reads_back 64) (events_since s0 (snd r)).
Proof.
  apply (read_backs_stay_within_ray_state (K := cycles WorkStealing)
           4 never_canceled tile_64x1 feasible_64x64 16
           (new_machine (K := cycles WorkStealing) (steady_device 2))).
  apply Nat.leb_le. vm_compute. reflexivity.
Defined.

Lemma begins_with_is_prefix_witness :
  begins_with Z.eqb [1; 2; 3] [1; 2] <> None /\
  (begins_with Z.eqb [1; 2; 3] [1; 2] = Some true <->
   exists rest, [1; 2; 3] = [1; 2] ++ rest) /\
  ((length [1; 2; 3] < length [1; 2])%nat ->
   begins_with Z.eqb [1; 2; 3] [1; 2] = Some false).
Proof.
  apply (begins_with_is_prefix Z.eqb Z.eqb_eq [1; 2; 3] [1; 2]).
Defined.

Lemma begins_with_is_an_order_witness :
  begins_with Z.eqb [1; 2; 3] [1; 2; 3] = Some true /\
  begins_with Z.eqb [1; 2; 3] [] = Some true /\
  (begins_with Z.eqb [1; 2; 3] [1; 2] = Some true ->
   begins_with Z.eqb [1; 2] [1; 2; 3] = Some true -> [1; 2; 3] = [1; 2]) /\
  (begins_with Z.eqb [1; 2; 3] [1; 2] = Some true ->
   begins_with Z.eqb [1; 2] [1] = Some true ->
   begins_with Z.eqb [1; 2; 3] [1] = Some true).
Proof.
  apply (begins_with_is_an_order Z.eqb Z.eqb_eq [1; 2; 3] [1; 2] [1]).
Defined.

Lemma axis_conversion_on_separate_arrays_witness :
  (let mem' := copy_zup_from_yup short_neg 10 0 shorts_at_0 in
   vector mem' 10 = (shorts_at_0 (0 + 0), short_neg (shorts_at_0 (0 + 2)),
                     shorts_at_0 (0 + 1)) /\
   forall a, ~ 10 <= a < 10 + 3 -> mem' a = shorts_at_0 a) /\
  (let mem' := copy_yup_from_zup short_neg 10 0 shorts_at_0 in
   vector mem' 10 = (shorts_at_0 (0 + 0), shorts_at_0 (0 + 2),
                     short_neg (shorts_at_0 (0 + 1))) /\
   forall a, ~ 10 <= a < 10 + 3 -> mem' a = shorts_at_0 a).
Proof.
  apply (axis_conversion_on_separate_arrays short_neg 10 0 shorts_at_0).
  unfold separate. lia.
Defined.

Lemma short_axis_round_trip_witness :
  vector (copy_yup_from_zup short_neg 20 10
            (copy_zup_from_yup short_neg 10 0 shorts_at_0)) 20
    = vector shorts_at_0 0 /\
  vector (copy_zup_from_yup short_neg 20 10
            (copy_yup_from_zup short_neg 10 0 shorts_at_0)) 20
    = vector shorts_at_0 0 /\
  short_neg (-32768) = -32768.
Proof.
  apply (short_axis_round_trip 0 10 20 shorts_at_0).
  - unfold separate. lia.
  - unfold separate. lia.
  - intros i Hi. unfold shorts_at_0.
    destruct (Z.eqb_spec (0 + i) 0); lia.
Defined.

Lemma float_axis_round_trip_witness :
  vector (copy_yup_from_zup float_neg 20 10
            (copy_zup_from_yup float_neg 10 0 floats_at_0)) 20
    = vector floats_at_0 0 /\
  vector (copy_zup_from_yup float_neg 20 10
            (copy_yup_from_zup float_neg 10 0 floats_at_0)) 20
    = vector floats_at_0 0 /\
  (forall v i, Z.testbit (float_neg v) i =
     if i =? 31 then negb (Z.testbit v i) else Z.testbit v i).
Proof.
  apply (float_axis_round_trip 0 10 20 floats_at_0).
  - unfold separate. lia.
  - unfold separate. lia.
Defined.

Lemma get_min_max_time_ex_widens_witness :
  get_min_max_time_ex three_samples (seconds 3, seconds 3) = (seconds 2, seconds 4).
Proof.
  destruct (get_min_max_time_ex_widens three_samples (seconds 3) (seconds 3))
    as (_ & _ & _ & H).
  - cbn. lia.
  - destruct H as [H _]; [reflexivity|cbn; lia|]. exact H.
Defined.

(** The range [3, 3] of an object whose samples lie between 2 and 4,
    below a transform whose samples lie between 1 and 2. *)
Example get_min_max_time_below_transform :
  get_min_max_time below_transform three_samples (seconds 3, seconds 3)
    = (seconds 1, seconds 4).
Proof. reflexivity. Qed.

Lemma view_size_stays_positive_witness :
  let s := UtilView.view_main_loop false window_640x480
             [UtilView.Reshape 0 300; UtilView.Display; UtilView.Reshape 800 600] in
  0 < UtilView.width (UtilView.V s) /\ 0 < UtilView.height (UtilView.V s) /\
  Forall UtilView.sizes_positive (UtilView.trace s) /\
  (forall w h s', w <= 0 \/ h <= 0 -> UtilView.view_reshape w h s' = s').
Proof.
  apply (view_size_stays_positive false window_640x480
           [UtilView.Reshape 0 300; UtilView.Display; UtilView.Reshape 800 600]).
  - cbn. lia.
  - cbn. lia.
Defined.

Lemma quit_key_calls_exit_callback_twice_witness :
  let before := UtilView.view_main_loop false window_640x480 [UtilView.Display] in
  let s := UtilView.view_main_loop false window_640x480
             ([UtilView.Display] ++ UtilView.Keyboard 113 0 0 :: [UtilView.Display]) in
  UtilView.exited before = false /\
  s = UtilView.view_keyboard 113 0 0 before /\
  UtilView.exited s = true /\
  UtilView.count UtilView.is_exit (UtilView.trace s) = 1%nat /\
  UtilView.count (UtilView.is_call UtilView.ViewExitFunc) (UtilView.trace s) = 2%nat.
Proof.
  apply (quit_key_calls_exit_callback_twice false window_640x480
           [UtilView.Display] 0 0 [UtilView.Display]).
  reflexivity.
Defined.
